(** * Photo-evidence table generator (photo_evidence.py): a Rocq model

    The program walks a folder of photographs, reads date, camera model and
    GPS position from the EXIF block of every picture, asks a geocoder for
    an address, and writes a Word table sorted by date.

    The development follows the source function by function:
    [get_gps_location], [get_address_from_coords], [extract_image_info],
    [create_document], [main] and the start-up code under [__main__].

    - Python values are an inductive type; a text is kept as its UTF-8
      bytes.
    - Python floats are IEEE-754 binary64 numbers: [spec_float] at
      precision 53, with the operations of [SpecFloat].  [round(x, 6)] and
      the format [.6f] are the correctly rounded conversions of CPython.
    - Dictionaries are [gmap]s, exceptions are an error sum.
    - Console output, reverse-geocoding requests and the document written
      are recorded in a trace that is threaded through the effectful
      functions; [print] itself is taken to succeed.
    - Pillow, geopy, python-docx, [datetime], [os] and the file system are
      fields of a record [world]; every statement holds for all worlds.

    Left out: the pause of half a second after each row of the table, and
    the banner, the prompt and the wait for Enter of the start-up code. *)

From Stdlib Require Import ZArith List Bool Ascii String Lia SpecFloat.
From Stdlib Require Import Sorted Permutation.
From stdpp Require Import base option gmap strings list pretty.

Set Warnings "-register-all".

Local Open Scope string_scope.
Local Open Scope Z_scope.

(** ** Binary64 arithmetic, as Python's [float] *)

Module F64.

Definition prec : Z := 53.
Definition emax : Z := 1024.

Abbreviation f64 := spec_float.

Definition nan : f64 := S754_nan.
Definition add : f64 -> f64 -> f64 := SFadd prec emax.
Definition div : f64 -> f64 -> f64 := SFdiv prec emax.
Definition opp : f64 -> f64 := SFopp.

(** The float nearest to an integer (ties to even); an infinity when the
    integer is out of range. *)
Definition of_Z (z : Z) : f64 := binary_normalize prec emax z 0 false.

(** The float nearest to the quotient [n / d] of two integers, [d > 0]. *)
Definition of_ratio (n : Z) (d : positive) : f64 :=
  match n with
  | Z0 => S754_zero false
  | Zpos p => div (S754_finite false p 0) (S754_finite false d 0)
  | Zneg p => div (S754_finite true p 0) (S754_finite false d 0)
  end.

Definition is_zero (x : f64) : bool :=
  match x with S754_zero _ => true | _ => false end.

(** The sign bit; a NaN has none in this representation. *)
Definition sign_bit (x : f64) : option bool :=
  match x with
  | S754_zero s | S754_infinity s | S754_finite s _ _ => Some s
  | S754_nan => None
  end.

(** [m * 2^e * 10^6] rounded to the nearest integer, ties to even: the
    digits that a correctly rounded conversion to six decimal places
    keeps. *)
Definition scaled6 (m : positive) (e : Z) : Z :=
  match e with
  | Zneg p =>
      let den := 2 ^ Zpos p in
      let num := Zpos m * 1000000 in
      let q := num / den in
      let r := num mod den in
      match 2 * r ?= den with
      | Lt => q
      | Gt => q + 1
      | Eq => if Z.even q then q else q + 1
      end
  | _ => Zpos m * 2 ^ e * 1000000
  end.

(** [round(x, 6)] on a float: the decimal with six fractional digits
    nearest to [x], converted back to the nearest float.  Zeros, NaN and
    infinities are returned unchanged and the sign of [x] is kept. *)
Definition round6 (x : f64) : f64 :=
  match x with
  | S754_finite s m e =>
      match scaled6 m e with
      | Zpos n => div (S754_finite s n 0) (S754_finite false 1000000 0)
      | _ => S754_zero s
      end
  | _ => x
  end.

Definition digit (n : Z) : ascii := ascii_of_nat (48 + Z.to_nat (n mod 10)).

Definition frac6 (n : Z) : string :=
  String (digit (n / 100000)) (String (digit (n / 10000))
 (String (digit (n / 1000)) (String (digit (n / 100))
 (String (digit (n / 10)) (String (digit n) EmptyString))))).

Definition sign_str (s : bool) : string := if s then "-" else "".

(** [format(x, ".6f")]. *)
Definition format_6f (x : f64) : string :=
  match x with
  | S754_nan => "nan"
  | S754_infinity s => sign_str s ++ "inf"
  | S754_zero s => sign_str s ++ "0.000000"
  | S754_finite s m e =>
      let n := scaled6 m e in
      sign_str s ++ pretty (Z.to_N (n / 1000000)) ++ "." ++ frac6 (n mod 1000000)
  end.

End F64.

Abbreviation f64 := spec_float.

(** ** Python values, exceptions and effects *)

(** The values that Pillow hands out for EXIF tags: integers, floats,
    rationals ([IFDRational(num, den)]), text, byte strings and tuples of
    these; [PyNone] is what [dict.get] returns for a missing key.  A
    [PyStr] holds the UTF-8 bytes of the text. *)
Inductive pyval : Type :=
  | PyNone
  | PyInt (z : Z)
  | PyFloat (f : f64)
  | PyRational (num den : Z)
  | PyStr (s : string)
  | PyBytes (b : string)
  | PyTuple (items : list pyval).

(** Exceptions; every one of them derives from [Exception]. *)
Inductive exn : Type :=
  | TypeError
  | ValueError
  | KeyError
  | OverflowError
  | ZeroDivisionError
  | AttributeError
  | OSError
  | SyntaxError
  | GeocoderServiceError
  | GeocoderTimedOut.

Inductive res (A : Type) : Type :=
  | Ok (a : A)
  | Raise (e : exn).
Arguments Ok {A} a.
Arguments Raise {A} e.

#[export] Instance res_ret : MRet res := fun A a => Ok a.
#[export] Instance res_bind : MBind res := fun A B k r =>
  match r with
  | Ok a => k a
  | Raise e => Raise e
  end.

(** A [datetime.datetime] without time zone. *)
Record datetime : Type := {
  year : Z; month : Z; day : Z; hour : Z; minute : Z; second : Z
}.

#[export] Instance datetime_eq_dec : EqDecision datetime.
Proof. solve_decision. Defined.

(** A row of the table in the document.  The first cell holds the
    thumbnail, or the text "Ошибка загрузки" when it could not be made; the
    second cell is the text "Дата: {date}\nКамера: {camera}", kept here as
    its two parts; the third cell is the address. *)
Inductive thumbnail : Type :=
  | Picture (jpeg : string)
  | LoadError.

Record row : Type := {
  cell_photo : thumbnail;
  cell_date : datetime;
  cell_camera : pyval;
  cell_place : string
}.

(** What the program prints. *)
Inductive message : Type :=
  | MsgGpsWarning (e : exn)        (* "  ⚠️ Ошибка обработки GPS: {e}" *)
  | MsgProcessing (filename : string) (* "  → Обработка: {filename}..." *)
  | MsgOpenError                   (* " ОШИБКА: не удалось открыть файл." *)
  | MsgNoExif                      (* " НЕТ EXIF." *)
  | MsgNoDate                      (* " НЕТ ДАТЫ." *)
  | MsgDateError                   (* " ОШИБКА ДАТЫ." *)
  | MsgDone                        (* " ГОТОВО." *)
  | MsgCreating (filename : string)
  | MsgRowAdded (i total : nat)
  | MsgSaved (path : string)
  | MsgFolderMissing (path : string)
  | MsgNotAFolder (path : string)
  | MsgSearching (path : string)
  | MsgNoPhotos
  | MsgFound (n : nat)
  | MsgNoData
  | MsgProcessed (n total : nat).

(** What the program does to the outside world, in order: lines printed,
    reverse-geocoding requests sent, documents written. *)
Inductive event : Type :=
  | EvPrint (msg : message)
  | EvReverse (lat lon : f64)
  | EvSave (path : string) (table : list row).

(** Effectful code: the trace produced so far, and a value or a raised
    exception. *)
Definition M (A : Type) : Type := (list event * res A)%type.

#[export] Instance M_ret : MRet M := fun A a => ([], Ok a).
#[export] Instance M_bind : MBind M := fun A B k m =>
  match m with
  | (out, Ok a) => let '(out', r) := k a in ((out ++ out')%list, r)
  | (out, Raise e) => (out, Raise e)
  end.

Definition emit (ev : event) : M unit := ([ev], Ok tt).
Definition print (msg : message) : M unit := emit (EvPrint msg).
Definition lift {A : Type} (r : res A) : M A := ([], r).

(** [try: body / except Exception as e: handler e]. *)
Definition try_except {A : Type} (body : M A) (handler : exn -> M A) : M A :=
  match body with
  | (out, Raise e) => let '(out', r) := handler e in ((out ++ out')%list, r)
  | (out, Ok a) => (out, Ok a)
  end.

(** The same on effect-free code. *)
Definition try_pure {A : Type} (body : res A) (handler : exn -> M A) : M A :=
  try_except (lift body) handler.

(** *** Strings *)

(** A byte that continues a UTF-8 sequence ([10xxxxxx]). *)
Definition is_continuation (c : ascii) : bool :=
  let n := N_of_ascii c in ((128 <=? n) && (n <? 192))%N.

(** The characters of a text, each with its UTF-8 bytes. *)
Fixpoint utf8_chars (s : string) : list string :=
  match s with
  | EmptyString => []
  | String c rest =>
      match utf8_chars rest with
      | ch :: chs =>
          match ch with
          | String c' _ =>
              if is_continuation c' then String c ch :: chs
              else String c EmptyString :: ch :: chs
          | EmptyString => String c EmptyString :: chs
          end
      | [] => [String c EmptyString]
      end
  end.

Definition bytes_ints (b : string) : list Z :=
  map (fun c => Z.of_N (N_of_ascii c)) (list_ascii_of_string b).

(** *** Dynamic operations *)

(** [bool(v)]. *)
Definition py_truthy (v : pyval) : bool :=
  match v with
  | PyNone => false
  | PyInt z => negb (z =? 0)
  | PyFloat f => negb (F64.is_zero f)
  | PyRational n d => (d =? 0) || negb (n =? 0)
  | PyStr s => negb (String.eqb s "")
  | PyBytes b => negb (String.eqb b "")
  | PyTuple l => match l with [] => false | _ => true end
  end.

(** [a or b]. *)
Definition py_or (a b : pyval) : pyval := if py_truthy a then a else b.

(** [v == s] for a text literal [s]: only the same text is equal to it. *)
Definition py_eq_str (v : pyval) (s : string) : bool :=
  match v with
  | PyStr t => String.eqb t s
  | _ => false
  end.

(** [v != s]. *)
Definition py_ne_str (v : pyval) (s : string) : bool := negb (py_eq_str v s).

(** [iter(v)], run to the end. *)
Definition py_iter (v : pyval) : res (list pyval) :=
  match v with
  | PyTuple l => Ok l
  | PyStr s => Ok (map PyStr (utf8_chars s))
  | PyBytes b => Ok (map PyInt (bytes_ints b))
  | _ => Raise TypeError
  end.

(** [d, m, s = v]. *)
Definition unpack3 (v : pyval) : res (pyval * pyval * pyval) :=
  l ← py_iter v;
  match l with
  | [d; m; s] => Ok (d, m, s)
  | _ => Raise ValueError
  end.

(** [float(z)] for an integer. *)
Definition float_of_int (z : Z) : res f64 :=
  match F64.of_Z z with
  | S754_infinity _ => Raise OverflowError
  | f => Ok f
  end.

(** [float(Fraction(n, d))], that is the true division [n / d] of two
    integers, for [d <> 0]. *)
Definition float_of_fraction (n d : Z) : res f64 :=
  let q := match d with
           | Zpos p => F64.of_ratio n p
           | Zneg p => F64.of_ratio (- n) p
           | Z0 => F64.nan
           end in
  match q with
  | S754_infinity _ => Raise OverflowError
  | f => Ok f
  end.

(** The float a number is turned into when the other operand of [+] or
    [/] is a float.  An [IFDRational] with denominator zero holds a NaN. *)
Definition as_float (v : pyval) : res f64 :=
  match v with
  | PyInt z => float_of_int z
  | PyFloat f => Ok f
  | PyRational n d => if d =? 0 then Ok F64.nan else float_of_fraction n d
  | _ => Raise TypeError
  end.

(** [x + y] with [y] a float. *)
Definition py_add (x : pyval) (y : f64) : res f64 :=
  fx ← as_float x; Ok (F64.add fx y).

(** [x / y] with [y] a float. *)
Definition py_truediv (x : pyval) (y : f64) : res f64 :=
  fx ← as_float x;
  if F64.is_zero y then Raise ZeroDivisionError else Ok (F64.div fx y).

(** *** Dictionaries

    Keys are tag names, or the numeric tag id where Pillow knows no name
    for it. *)
Abbreviation key := (string + Z)%type.
Abbreviation dict := (gmap key pyval).

Definition name (s : string) : key := inl s.

(** [k in d]. *)
Definition contains (d : dict) (k : string) : bool := bool_decide (is_Some (d !! name k)).

(** [d[k]]. *)
Definition getitem (d : dict) (k : string) : res pyval :=
  match d !! name k with
  | Some v => Ok v
  | None => Raise KeyError
  end.

(** [d.get(k, default)]. *)
Definition get_default (d : dict) (k : string) (default : pyval) : pyval :=
  match d !! name k with
  | Some v => v
  | None => default
  end.

(** [d.get(k)]. *)
Definition get (d : dict) (k : string) : pyval := get_default d k PyNone.

(** [bool(d)]. *)
Definition dict_truthy (d : dict) : bool := negb (bool_decide (d = ∅)).

(** ** The program *)

(** *** Settings *)

Definition SUPPORTED_FORMATS : list string :=
  [".jpg"; ".jpeg"; ".JPG"; ".JPEG"; ".heic"; ".HEIF"; ".heif"].

Definition OUTPUT_PREFIX : string := "!_ФОТОТАБЛИЦА_".

(** *** get_gps_location *)

Definition f60 : f64 := F64.of_Z 60.
Definition f3600 : f64 := F64.of_Z 3600.

Definition convert_to_degrees (value : pyval) : res f64 :=
  '(d, m, s) ← unpack3 value;
  a ← py_truediv m f60;
  t ← py_add d a;
  b ← py_truediv s f3600;
  Ok (F64.add t b).

Definition get_gps_location (gps_data : dict) : M (option (f64 * f64)) :=
  if negb (dict_truthy gps_data)
     || negb (contains gps_data "GPSLatitude")
     || negb (contains gps_data "GPSLongitude")
  then mret None
  else
    try_pure
      (v_lat ← getitem gps_data "GPSLatitude";
       lat ← convert_to_degrees v_lat;
       v_lon ← getitem gps_data "GPSLongitude";
       lon ← convert_to_degrees v_lon;
       let lat := if py_ne_str (get gps_data "GPSLatitudeRef") "N"
                  then F64.opp lat else lat in
       let lon := if py_ne_str (get gps_data "GPSLongitudeRef") "E"
                  then F64.opp lon else lon in
       Ok (Some (F64.round6 lat, F64.round6 lon)))
      (fun e => print (MsgGpsWarning e);; mret None).

(** *** The libraries and the outside world

    What the program gets from Pillow, geopy, python-docx, [datetime], [os]
    and the file system.  Calls that can fail return a [res]. *)

(** The EXIF block of an image: the tags of its primary directory, and
    what [get_ifd] does for each sub-directory. *)
Record exif : Type := {
  exif_tags : gmap Z pyval;
  get_ifd : Z -> res (gmap Z pyval)
}.

(** Decoded pixel data; [as_jpeg] is the outcome of converting it to RGB and
    saving it as a JPEG of quality 85. *)
Record pixels : Type := {
  as_jpeg : res string
}.

(** An opened image file.  [Image.open] only reads the header: the EXIF
    block is parsed by [getexif], the pixels are decoded by [copy]. *)
Record image : Type := {
  getexif : res exif;
  copy : res pixels
}.

(** A geopy [Location]. *)
Record location : Type := {
  loc_address : string
}.

Record world : Type := {
  TAGS : Z -> option string;              (* PIL.ExifTags.TAGS *)
  GPSTAGS : Z -> option string;           (* PIL.ExifTags.GPSTAGS *)
  decode_utf8_ignore : string -> string;  (* bytes.decode('utf-8', errors='ignore') *)
  strptime : pyval -> string -> res datetime; (* datetime.datetime.strptime *)
  Image_open : string -> res image;       (* PIL.Image.open *)
  reverse : f64 * f64 -> string -> Z -> res (option location);
                                          (* geolocator.reverse(query, language, timeout) *)
  basename : string -> string;            (* os.path.basename *)
  join : string -> string -> string;      (* os.path.join *)
  path_exists : string -> bool;           (* os.path.exists *)
  isdir : string -> bool;                 (* os.path.isdir *)
  listdir : string -> res (list string);  (* os.listdir *)
  now_stamp : string;  (* datetime.datetime.now().strftime("%Y-%m-%d_%H-%M") *)
  strftime : datetime -> string -> string; (* datetime.strftime *)
  py_str : pyval -> string;               (* str(x), for a value that is no text *)
  set_text : string -> res unit;
      (* python-docx, cell.text = s: a text that XML cannot hold (a NUL or
         another control character) is refused with a ValueError *)
  save : string -> list row -> res unit   (* Document.save(path) *)
}.

(** *** get_address_from_coords *)

Definition location_address (location : option location) : res string :=
  match location with
  | Some loc => Ok (loc_address loc)
  | None => Raise AttributeError
  end.

Definition get_address_from_coords (w : world) (lat lon : f64) : M string :=
  try_except
    (emit (EvReverse lat lon);;
     location ← lift (reverse w (lat, lon) "ru" 10);
     lift (location_address location))
    (fun e => mret (F64.format_6f lat ++ ", " ++ F64.format_6f lon)).

(** *** extract_image_info *)

(** The dictionary the function returns. *)
Record photo_info : Type := {
  info_image : pixels;
  date_taken : datetime;
  address : string;
  camera_model : pyval
}.

(** [table.get(id, id)]. *)
Definition tag_name (table : Z -> option string) (id : Z) : key :=
  match table id with
  | Some n => inl n
  | None => inr id
  end.

Definition decode_bytes (w : world) (value : pyval) : pyval :=
  match value with
  | PyBytes b => PyStr (decode_utf8_ignore w b)
  | _ => value
  end.

(** The loop that fills [exif_data]. *)
Definition read_tags (w : world) (tags : gmap Z pyval) : dict :=
  fold_left
    (fun exif_data '(tag_id, value) =>
       <[tag_name (TAGS w) tag_id := decode_bytes w value]> exif_data)
    (map_to_list tags) ∅.

(** [{GPSTAGS.get(key, key): val for key, val in gps_exif.items()}]. *)
Definition read_gps (w : world) (gps_exif : gmap Z pyval) : dict :=
  fold_left
    (fun gps_data '(k, val) => <[tag_name (GPSTAGS w) k := val]> gps_data)
    (map_to_list gps_exif) ∅.

Definition GPS_IFD : Z := 34853.   (* 0x8825 *)

(** The [try] block around [get_ifd]. *)
Definition gps_fragment (w : world) (exif : exif) : dict :=
  match get_ifd exif GPS_IFD with
  | Ok gps_exif => read_gps w gps_exif
  | Raise _ => ∅
  end.

(** [exif_data.get("DateTimeOriginal") or exif_data.get("DateTime")]. *)
Definition find_date_str (exif_data : dict) : pyval :=
  py_or (get exif_data "DateTimeOriginal") (get exif_data "DateTime").

Definition DATE_FORMAT : string := "%Y:%m:%d %H:%M:%S".
Definition NO_COORDS : string := "Координаты недоступны".
Definition NO_MODEL : string := "Модель неизвестна".

Definition extract_image_info (w : world) (image_path : string) : M (option photo_info) :=
  let filename := basename w image_path in
  print (MsgProcessing filename);;
  match Image_open w image_path with
  | Raise _ => print MsgOpenError;; mret None
  | Ok image =>
      exif ← lift (getexif image);
      if bool_decide (exif_tags exif = ∅) then print MsgNoExif;; mret None
      else
        let exif_data := read_tags w (exif_tags exif) in
        let gps_data := gps_fragment w exif in
        let date_str := find_date_str exif_data in
        if negb (py_truthy date_str) then print MsgNoDate;; mret None
        else
          match strptime w date_str DATE_FORMAT with
          | Raise _ => print MsgDateError;; mret None
          | Ok date_taken =>
              coords ← get_gps_location gps_data;
              address ← match coords with
                        | Some (lat, lon) => get_address_from_coords w lat lon
                        | None => mret NO_COORDS
                        end;
              let camera_model := get_default exif_data "Model" (PyStr NO_MODEL) in
              print MsgDone;;
              image_copy ← lift (copy image);
              mret (Some {| info_image := image_copy;
                            date_taken := date_taken;
                            address := address;
                            camera_model := camera_model |})
          end
  end.

(** *** create_document *)

Definition datetime_fields (t : datetime) : list Z :=
  [year t; month t; day t; hour t; minute t; second t].

Fixpoint lex_ltb (a b : list Z) : bool :=
  match a, b with
  | x :: a', y :: b' => (x <? y) || ((x =? y) && lex_ltb a' b')
  | [], _ :: _ => true
  | _, [] => false
  end.

(** [a < b] on datetimes. *)
Definition datetime_ltb (a b : datetime) : bool :=
  lex_ltb (datetime_fields a) (datetime_fields b).

(** [photos_info.sort(key=lambda x: x["date_taken"])].  Python's sort is
    stable and compares keys with [<] only; the result of a stable sort is
    fixed by the input, so a stable insertion sort stands for it. *)
Fixpoint insert_by_date (x : photo_info) (l : list photo_info) : list photo_info :=
  match l with
  | [] => [x]
  | y :: l' =>
      if datetime_ltb (date_taken y) (date_taken x)
      then y :: insert_by_date x l'
      else x :: y :: l'
  end.

Definition sort_by_date (l : list photo_info) : list photo_info :=
  foldr insert_by_date [] l.

(** [a <= b] on datetimes. *)
Definition datetime_le (a b : datetime) : Prop := datetime_ltb b a = false.

Definition make_thumbnail (image : pixels) : thumbnail :=
  match as_jpeg image with
  | Ok jpeg => Picture jpeg
  | Raise _ => LoadError
  end.

Definition render_row (info : photo_info) : row :=
  {| cell_photo := make_thumbnail (info_image info);
     cell_date := date_taken info;
     cell_camera := camera_model info;
     cell_place := address info |}.

Definition DATE_CELL_FORMAT : string := "%d.%m.%Y %H:%M:%S".

Definition NEWLINE : string := String (ascii_of_nat 10) EmptyString.

(** [f"{v}"]: a text stands for itself, another value for its [str]. *)
Definition py_format (w : world) (v : pyval) : string :=
  match v with
  | PyStr s => s
  | _ => py_str w v
  end.

(** The text of the second cell of a row: date and camera model. *)
Definition date_cell_text (w : world) (info : photo_info) : string :=
  "Дата: " ++ strftime w (date_taken info) DATE_CELL_FORMAT ++ NEWLINE
  ++ "Камера: " ++ py_format w (camera_model info).

(** The loop over [enumerate(photos_info, 1)].  The thumbnail is made
    inside a [try]; the texts of the two other cells are set outside any,
    so a text that python-docx refuses ends the function. *)
Fixpoint add_rows (w : world) (i total : nat) (photos_info : list photo_info)
    : M (list row) :=
  match photos_info with
  | [] => mret []
  | info :: rest =>
      print (MsgRowAdded i total);;
      lift (set_text w (date_cell_text w info));;
      lift (set_text w (address info));;
      rows ← add_rows w (S i) total rest;
      mret (render_row info :: rows)
  end.

(** [doc.save] is not guarded either: when it raises, nothing is written
    and the exception leaves the function. *)
Definition create_document (w : world) (photos_info : list photo_info)
    (output_dir : string) : M string :=
  let output_path := join w output_dir (OUTPUT_PREFIX ++ now_stamp w ++ ".docx") in
  print (MsgCreating (basename w output_path));;
  let photos_info := sort_by_date photos_info in
  rows ← add_rows w 1 (length photos_info) photos_info;
  lift (save w output_path rows);;
  emit (EvSave output_path rows);;
  print (MsgSaved output_path);;
  mret output_path.

(** *** main *)

Definition is_upper (c : ascii) : bool :=
  let n := N_of_ascii c in ((65 <=? n) && (n <=? 90))%N.

Definition lower_char (c : ascii) : ascii :=
  if is_upper c then ascii_of_N (N_of_ascii c + 32) else c.

(** [s.lower()] on the bytes of a text: the letters A to Z are lowered, the
    bytes of characters outside ASCII are left as they are.  Python lowers
    those characters too, but the only ASCII letters that can come out of
    them are a k (from the Kelvin sign) and an i followed by a combining
    dot, and neither fits a suffix of [SUPPORTED_FORMATS]; so [is_supported]
    below decides as the program does. *)
Fixpoint py_lower (s : string) : string :=
  match s with
  | EmptyString => EmptyString
  | String c rest => String (lower_char c) (py_lower rest)
  end.

(** [s.endswith(suffix)]. *)
Definition endswith (s suffix : string) : bool :=
  let n := String.length s in
  let k := String.length suffix in
  (k <=? n)%nat && String.eqb (substring (n - k) k s) suffix.

(** [s.endswith(suffixes)] for a tuple of suffixes. *)
Definition endswith_any (s : string) (suffixes : list string) : bool :=
  existsb (endswith s) suffixes.

(** The condition of the list comprehension in [main]. *)
Definition is_supported (f : string) : bool :=
  endswith_any (py_lower f) SUPPORTED_FORMATS.

(** The list comprehension of [main], on the entries that [os.listdir]
    gave. *)
Definition select_photos (w : world) (folder_path : string) (entries : list string)
    : list string :=
  map (join w folder_path) (filter (fun f => is_supported f = true) entries).

(** The files [main] works on: the selected entries of the folder, and none
    when the folder cannot be listed. *)
Definition find_photos (w : world) (folder_path : string) : list string :=
  match listdir w folder_path with
  | Ok entries => select_photos w folder_path entries
  | Raise _ => []
  end.

(** The loop over [photos]. *)
Fixpoint process_photos (w : world) (photos : list string) : M (list photo_info) :=
  match photos with
  | [] => mret []
  | photo :: rest =>
      info ← extract_image_info w photo;
      photo_info_list ← process_photos w rest;
      mret (match info with
            | Some i => i :: photo_info_list
            | None => photo_info_list
            end)
  end.

Definition main (w : world) (folder_path : string) : M unit :=
  if negb (path_exists w folder_path)
  then print (MsgFolderMissing folder_path)
  else if negb (isdir w folder_path)
  then print (MsgNotAFolder folder_path)
  else
    print (MsgSearching folder_path);;
    entries ← lift (listdir w folder_path);
    let photos := select_photos w folder_path entries in
    match photos with
    | [] => print MsgNoPhotos
    | _ =>
        print (MsgFound (length photos));;
        photo_info_list ← process_photos w photos;
        match photo_info_list with
        | [] => print MsgNoData
        | _ =>
            print (MsgProcessed (length photo_info_list) (length photos));;
            create_document w photo_info_list folder_path;;
            mret tt
        end
    end.

(** *** The start-up code

    The folder is the first argument of the command line, or else the line
    typed at the prompt; [main] runs on it.  The banner, the prompt and the
    wait for Enter at the end are not modelled. *)

(** The double quote. *)
Definition QUOTE : ascii := ascii_of_nat 34.

Definition is_quote (c : ascii) : bool := Ascii.eqb c QUOTE.

(** Drop the leading items, then the trailing items, that satisfy [p]. *)
Fixpoint lstrip_list {A : Type} (p : A -> bool) (l : list A) : list A :=
  match l with
  | [] => []
  | x :: l' => if p x then lstrip_list p l' else l
  end.

Fixpoint rstrip_list {A : Type} (p : A -> bool) (l : list A) : list A :=
  match l with
  | [] => []
  | x :: l' =>
      match rstrip_list p l' with
      | [] => if p x then [] else [x]
      | kept => x :: kept
      end
  end.

Definition strip_list {A : Type} (p : A -> bool) (l : list A) : list A :=
  rstrip_list p (lstrip_list p l).

(** [s.strip(q)] for the text [q] made of one double quote. *)
Definition strip_quotes (s : string) : string :=
  string_of_list_ascii (strip_list is_quote (list_ascii_of_string s)).

Definition utf8 (bytes : list nat) : string :=
  string_of_list_ascii (map ascii_of_nat bytes).

(** The characters for which [str.isspace] holds: U+0009 to U+000D, U+001C
    to U+0020, U+0085, U+00A0, U+1680, U+2000 to U+200A, U+2028, U+2029,
    U+202F, U+205F and U+3000. *)
Definition WHITESPACE : list string :=
  map utf8
    [[9]; [10]; [11]; [12]; [13]; [28]; [29]; [30]; [31]; [32];
     [194; 133]; [194; 160]; [225; 154; 128];
     [226; 128; 128]; [226; 128; 129]; [226; 128; 130]; [226; 128; 131];
     [226; 128; 132]; [226; 128; 133]; [226; 128; 134]; [226; 128; 135];
     [226; 128; 136]; [226; 128; 137]; [226; 128; 138];
     [226; 128; 168]; [226; 128; 169]; [226; 128; 175];
     [226; 129; 159]; [227; 128; 128]]%nat.

Definition is_space (ch : string) : bool := existsb (String.eqb ch) WHITESPACE.

Fixpoint concat_strings (l : list string) : string :=
  match l with
  | [] => EmptyString
  | s :: l' => s ++ concat_strings l'
  end.

(** [s.strip()]: whole characters are taken off both ends. *)
Definition py_strip (s : string) : string :=
  concat_strings (strip_list is_space (utf8_chars s)).

(** The folder handed to [main]: [sys.argv[1]] without the double quotes
    at its ends when the command line has an argument; otherwise the line
    [typed] that [input] returns, without the white space at its ends and
    then without the double quotes at its ends. *)
Definition folder_argument (argv : list string) (typed : string) : string :=
  if (1 <? length argv)%nat
  then strip_quotes (nth 1 argv EmptyString)
  else strip_quotes (py_strip typed).

(** The call [main(folder)] of the start-up code. *)
Definition run (w : world) (argv : list string) (typed : string) : M unit :=
  main w (folder_argument argv typed).

(** ** A sample folder

    A concrete world, used to run the program on definite inputs. *)

Module Sample.

Definition tags (id : Z) : option string :=
  if id =? 271 then Some "Make"
  else if id =? 272 then Some "Model"
  else if id =? 306 then Some "DateTime"
  else if id =? 36867 then Some "DateTimeOriginal"
  else None.

Definition gps_tags (id : Z) : option string :=
  if id =? 1 then Some "GPSLatitudeRef"
  else if id =? 2 then Some "GPSLatitude"
  else if id =? 3 then Some "GPSLongitudeRef"
  else if id =? 4 then Some "GPSLongitude"
  else None.

Definition digit_value (c : ascii) : option Z :=
  let n := N_of_ascii c in
  if ((48 <=? n) && (n <=? 57))%N then Some (Z.of_N n - 48) else None.

Fixpoint number (cs : list ascii) (acc : Z) : option Z :=
  match cs with
  | [] => Some acc
  | c :: cs' => match digit_value c with
                | Some v => number cs' (10 * acc + v)
                | None => None
                end
  end.

Definition is_leap (y : Z) : bool :=
  ((y mod 4 =? 0) && negb (y mod 100 =? 0)) || (y mod 400 =? 0).

Definition days_in_month (y m : Z) : Z :=
  if m =? 2 then (if is_leap y then 29 else 28)
  else if (m =? 4) || (m =? 6) || (m =? 9) || (m =? 11) then 30
  else 31.

Definition valid_datetime (t : datetime) : bool :=
  (1 <=? year t) && (1 <=? month t) && (month t <=? 12)
  && (1 <=? day t) && (day t <=? days_in_month (year t) (month t))
  && (hour t <=? 23) && (minute t <=? 59) && (second t <=? 59).

(** Texts of the exact shape [dddd:dd:dd dd:dd:dd]. *)
Definition parse_date (s : string) : option datetime :=
  match list_ascii_of_string s with
  | [y1; y2; y3; y4; c1; m1; m2; c2; d1; d2; sp; h1; h2; c3; n1; n2; c4; s1; s2] =>
      if forallb (Ascii.eqb ":") [c1; c2; c3; c4] && Ascii.eqb " " sp then
        y ← number [y1; y2; y3; y4] 0;
        m ← number [m1; m2] 0;
        d ← number [d1; d2] 0;
        h ← number [h1; h2] 0;
        n ← number [n1; n2] 0;
        sec ← number [s1; s2] 0;
        let t := {| year := y; month := m; day := d;
                    hour := h; minute := n; second := sec |} in
        if valid_datetime t then Some t else None
      else None
  | _ => None
  end.

(** A [strptime] for the one format the program uses.  It takes the texts
    of the exact shape above; on those it gives what Python gives.  (Python
    takes a few more, such as fields written with one digit.) *)
Definition parse (date_string : pyval) (format : string) : res datetime :=
  match date_string with
  | PyStr s =>
      if String.eqb format "%Y:%m:%d %H:%M:%S" then
        match parse_date s with
        | Some t => Ok t
        | None => Raise ValueError
        end
      else Raise ValueError
  | _ => Raise TypeError
  end.

Definition rational (n d : Z) : pyval := PyRational n d.

Definition gps_barcelona : gmap Z pyval :=
  {[ 1 := PyStr "N";
     2 := PyTuple [rational 41 1; rational 30 1; rational 0 1];
     3 := PyStr "E";
     4 := PyTuple [rational 2 1; rational 10 1; rational 3011 100] ]}.

(** GPS fragments as [get_gps_location] receives them. *)
Definition fragment_north_west : dict :=
  <[name "GPSLatitude" := PyTuple [rational 41 1; rational 30 1; rational 0 1]]>
  (<[name "GPSLatitudeRef" := PyStr "N"]>
  (<[name "GPSLongitude" := PyTuple [rational 2 1; rational 10 1; rational 3011 100]]>
  (<[name "GPSLongitudeRef" := PyStr "W"]> ∅))).

Definition no_ifd (_ : Z) : res (gmap Z pyval) := Ok ∅.

Definition ifd_with_gps (gps : gmap Z pyval) (id : Z) : res (gmap Z pyval) :=
  if id =? 34853 then Ok gps else Ok ∅.

Definition good_pixels : pixels := {| as_jpeg := Ok "JFIF" |}.

(** Date, camera and position. *)
Definition img_0001 : image :=
  {| getexif := Ok {| exif_tags := {[ 272 := PyStr "Canon EOS 80D";
                                      306 := PyStr "2023:05:14 10:30:05";
                                      36867 := PyStr "2023:05:14 10:30:00" ]};
                      get_ifd := ifd_with_gps gps_barcelona |};
     copy := Ok good_pixels |}.

(** A date only: no camera model, no position. *)
Definition img_0002 : image :=
  {| getexif := Ok {| exif_tags := {[ 306 := PyStr "2021:12:31 23:59:59" ]};
                      get_ifd := no_ifd |};
     copy := Ok good_pixels |}.

(** An empty [DateTimeOriginal] next to a good [DateTime]. *)
Definition img_0003 : image :=
  {| getexif := Ok {| exif_tags := {[ 306 := PyStr "2022:02:03 04:05:06";
                                      36867 := PyStr "" ]};
                      get_ifd := no_ifd |};
     copy := Ok good_pixels |}.

(** A file cut short: header and EXIF block are whole, the pixel data is
    not, and decoding it fails. *)
Definition img_0004 : image :=
  {| getexif := Ok {| exif_tags := {[ 306 := PyStr "2020:01:01 00:00:00" ]};
                      get_ifd := no_ifd |};
     copy := Raise OSError |}.

Definition open_file (path : string) : res image :=
  if String.eqb path "photos/IMG_0001.jpg" then Ok img_0001
  else if String.eqb path "photos/IMG_0002.JPG" then Ok img_0002
  else if String.eqb path "photos/IMG_0003.heic" then Ok img_0003
  else if String.eqb path "damaged/IMG_0004.jpg" then Ok img_0004
  else Raise OSError.

(** The geocoder knows one place and is out of reach for negative
    latitudes. *)
Definition geocode (query : f64 * f64) (language : string) (timeout : Z)
    : res (option location) :=
  match F64.sign_bit (fst query) with
  | Some true => Raise GeocoderTimedOut
  | _ =>
      if SFeqb (fst query) (F64.of_ratio 83 2)
      then Ok (Some {| loc_address := "Barcelona" |})
      else Ok None
  end.

Fixpoint last_part (path : string) : string :=
  match path with
  | EmptyString => EmptyString
  | String c rest =>
      if existsb (Ascii.eqb "/") (list_ascii_of_string rest) then last_part rest
      else if Ascii.eqb c "/" then rest
      else path
  end.

Definition join_path (a b : string) : string := a ++ "/" ++ b.

Definition folder (path : string) : list string :=
  if String.eqb path "photos"
  then ["IMG_0001.jpg"; "IMG_0002.JPG"; "IMG_0003.heic"; "notes.txt"]
  else if String.eqb path "damaged"
  then ["IMG_0004.jpg"]
  else [].

(** Two digits at least. *)
Definition two_digits (z : Z) : string :=
  if z <? 10 then "0" ++ pretty z else pretty z.

(** A [strftime] for the format of the date cell. *)
Definition format_date (t : datetime) (format : string) : string :=
  two_digits (day t) ++ "." ++ two_digits (month t) ++ "." ++ pretty (year t)
  ++ " " ++ two_digits (hour t) ++ ":" ++ two_digits (minute t)
  ++ ":" ++ two_digits (second t).

Definition repr (v : pyval) : string :=
  match v with
  | PyNone => "None"
  | PyInt z => pretty z
  | _ => "<value>"
  end.

(** Here every text is accepted and every document can be saved. *)
Definition files : world :=
  {| TAGS := tags;
     GPSTAGS := gps_tags;
     decode_utf8_ignore := fun b => b;
     strptime := parse;
     Image_open := open_file;
     reverse := geocode;
     basename := last_part;
     join := join_path;
     path_exists := fun p => String.eqb p "photos" || String.eqb p "damaged";
     isdir := fun p => String.eqb p "photos" || String.eqb p "damaged";
     listdir := fun p => Ok (folder p);
     now_stamp := "2024-03-01_12-00";
     strftime := format_date;
     py_str := repr;
     set_text := fun _ => Ok tt;
     save := fun _ _ => Ok tt |}.

End Sample.

(** ** More sample files *)

Module Cases.

(** A picture whose GPS directory cannot be read. *)
Definition img_broken_gps : image :=
  {| getexif := Ok {| exif_tags := {[ 272 := PyBytes "Nikon D750";
                                      306 := PyStr "2019:07:04 08:09:10" ]};
                      get_ifd := fun _ => Raise SyntaxError |};
     copy := Ok Sample.good_pixels |}.

(** A picture whose thumbnail cannot be made. *)
Definition no_thumbnail : pixels := {| as_jpeg := Raise OSError |}.

Definition img_no_thumbnail : image :=
  {| getexif := Ok {| exif_tags := {[ 306 := PyStr "2018:03:02 01:00:00" ]};
                      get_ifd := Sample.no_ifd |};
     copy := Ok no_thumbnail |}.

(** A file whose EXIF block cannot be parsed. *)
Definition img_bad_exif : image :=
  {| getexif := Raise SyntaxError; copy := Ok Sample.good_pixels |}.

(** A picture whose camera model holds a control character (U+0001). *)
Definition img_control_model : image :=
  {| getexif := Ok {| exif_tags := {[ 272 := PyStr (String (ascii_of_nat 1) "Cam");
                                      306 := PyStr "2017:01:02 03:04:05" ]};
                      get_ifd := Sample.no_ifd |};
     copy := Ok Sample.good_pixels |}.

(** Every folder holds the same files. *)
Definition open_file (path : string) : res image :=
  let file := Sample.last_part path in
  if String.eqb file "a.jpg" then Ok Sample.img_0002
  else if String.eqb file "b.jpg" then Ok img_broken_gps
  else if String.eqb file "c.jpg" then Ok img_no_thumbnail
  else if String.eqb file "d.jpg" then Ok img_bad_exif
  else if String.eqb file "e.jpg" then Ok Sample.img_0001
  else if String.eqb file "f.jpg" then Ok img_control_model
  else Raise OSError.

Definition folders : list string := ["mixed"; "fine"; "control"; "locked"; "upper"].

Definition folder (path : string) : res (list string) :=
  if String.eqb path "mixed"
  then Ok ["a.jpg"; "b.jpg"; "c.jpg"; "d.jpg"; "e.jpg"]
  else if String.eqb path "fine"
  then Ok ["b.jpg"; "readme.md"; "c.jpg"; "a.jpg"]
  else if String.eqb path "control"
  then Ok ["a.jpg"; "f.jpg"]
  else if String.eqb path "locked"
  then Ok ["a.jpg"]
  else if String.eqb path "upper"
  then Ok ["IMG_0005.HEIC"; "IMG_0006.HEIF"; "scan.Jpg"; "IMG_0007.heic"]
  else Raise OSError.

(** A control character other than tab, line feed and carriage return. *)
Definition is_control (c : ascii) : bool :=
  let n := N_of_ascii c in
  ((n <? 32) && negb ((n =? 9) || (n =? 10) || (n =? 13)))%N.

Definition write_text (s : string) : res unit :=
  if existsb is_control (list_ascii_of_string s) then Raise ValueError else Ok tt.

(** Nothing can be written below the folder [locked]. *)
Definition write_document (path : string) (table : list row) : res unit :=
  if String.prefix "locked/" path then Raise OSError else Ok tt.

(** The folder [mixed] holds a file that makes the extraction fail; the
    folder [fine] holds three pictures and a text; the folder [control]
    holds a picture whose camera model cannot be written into the table;
    in the folder [locked] no document can be saved; the folder [upper]
    holds names with extensions in capitals. *)
Definition files : world :=
  {| TAGS := Sample.tags;
     GPSTAGS := Sample.gps_tags;
     decode_utf8_ignore := fun b => b;
     strptime := Sample.parse;
     Image_open := open_file;
     reverse := Sample.geocode;
     basename := Sample.last_part;
     join := Sample.join_path;
     path_exists := fun p => bool_decide (p ∈ folders);
     isdir := fun p => bool_decide (p ∈ folders);
     listdir := folder;
     now_stamp := "2024-03-01_12-00";
     strftime := Sample.format_date;
     py_str := Sample.repr;
     set_text := write_text;
     save := write_document |}.

End Cases.

(** ** Notions used in the statements *)

(** The conversion in the words of the specification:
    degrees + minutes/60 + seconds/3600, on floats. *)
Definition decimal_degrees (d m s : f64) : f64 :=
  F64.add (F64.add d (F64.div m (F64.of_Z 60))) (F64.div s (F64.of_Z 3600)).

(** A number that is not negative: it turns into a float whose sign bit is
    clear. *)
Definition nonneg_number (v : pyval) : Prop :=
  match as_float v with
  | Ok f => F64.sign_bit f = Some false
  | Raise _ => False
  end.

(** A rational as EXIF stores it: two unsigned 32-bit integers, the second
    not zero. *)
Definition exif_rational (v : pyval) : Prop :=
  match v with
  | PyRational n d => 0 <= n < 2 ^ 32 /\ 0 < d < 2 ^ 32
  | _ => False
  end.

(** Why a file gives no record: the states Skipped-NoImage, Skipped-NoExif
    and Skipped-NoDate of the specification. *)
Inductive skipped (w : world) (path : string) : Prop :=
  | Skipped_NoImage e :
      Image_open w path = Raise e -> skipped w path
  | Skipped_NoExif image exif :
      Image_open w path = Ok image -> getexif image = Ok exif ->
      exif_tags exif = ∅ -> skipped w path
  | Skipped_NoDate image exif :
      Image_open w path = Ok image -> getexif image = Ok exif ->
      exif_tags exif <> ∅ ->
      (let date_str := find_date_str (read_tags w (exif_tags exif)) in
       py_truthy date_str = false \/
       exists e, strptime w date_str DATE_FORMAT = Raise e) ->
      skipped w path.

(** The text to parse if only the presence of [DateTimeOriginal] decided
    between the two tags. *)
Definition date_str_by_presence (exif_data : dict) : option pyval :=
  match exif_data !! name "DateTimeOriginal" with
  | Some v => Some v
  | None => exif_data !! name "DateTime"
  end.

(** The reading of the capture date under which [DateTime] is used only
    when [DateTimeOriginal] is absent. *)
Definition capture_date_by_presence : Prop :=
  forall (w : world) path image exif,
    Image_open w path = Ok image ->
    getexif image = Ok exif ->
    exif_tags exif <> ∅ ->
    match date_str_by_presence (read_tags w (exif_tags exif)) with
    | None => snd (extract_image_info w path) = Ok None
    | Some v =>
        match strptime w v DATE_FORMAT with
        | Raise _ => snd (extract_image_info w path) = Ok None
        | Ok t => forall info, snd (extract_image_info w path) = Ok (Some info) ->
                               date_taken info = t
        end
    end.

(** Matching of file names against [SUPPORTED_FORMATS] letter for letter,
    without lowering the name first. *)
Definition matches_as_listed (f : string) : bool :=
  endswith_any f SUPPORTED_FORMATS.

(** The reading of the file filter under which [main] selects, from the
    entries of the folder, exactly the names that end with a listed
    extension in the listed case. *)
Definition selection_case_sensitive : Prop :=
  forall (w : world) folder_path entries,
    listdir w folder_path = Ok entries ->
    find_photos w folder_path
    = map (join w folder_path) (filter (fun f => matches_as_listed f = true) entries).

(** Records in the order of their dates. *)
Abbreviation by_date :=
  (fun a b : photo_info => datetime_le (date_taken a) (date_taken b)).

(** The four extensions in lower case. *)
Abbreviation lower_extensions := [".jpg"; ".jpeg"; ".heic"; ".heif"].

(** What a trace holds: the reverse-geocoding requests, the documents
    written, and the files announced as being processed. *)
Definition requests (out : list event) : list (f64 * f64) :=
  omap (fun ev => match ev with EvReverse lat lon => Some (lat, lon) | _ => None end) out.

Definition saved (out : list event) : list (string * list row) :=
  omap (fun ev => match ev with EvSave path table => Some (path, table) | _ => None end) out.

Definition processed (out : list event) : list string :=
  omap (fun ev => match ev with
                  | EvPrint (MsgProcessing filename) => Some filename
                  | _ => None
                  end) out.

(** What [extract_image_info] gives for a file, with an exception read as
    no record. *)
Definition record_of (w : world) (path : string) : option photo_info :=
  match snd (extract_image_info w path) with
  | Ok r => r
  | Raise _ => None
  end.

(** The extraction returns, with a record or with [None]. *)
Definition returns (w : world) (path : string) : Prop :=
  exists r, snd (extract_image_info w path) = Ok r.

(** The name of a tag is the name of no other tag of the directory. *)
Definition only_tag_named (table : Z -> option string) (tags : gmap Z pyval)
    (id : Z) (k : string) : Prop :=
  table id = Some k /\
  forall id', is_Some (tags !! id') -> table id' = Some k -> id' = id.

(** python-docx accepts the two texts of every row. *)
Definition texts_accepted (w : world) (photos_info : list photo_info) : Prop :=
  Forall (fun info => set_text w (date_cell_text w info) = Ok tt
                      /\ set_text w (address info) = Ok tt) photos_info.

(** A run of [n] double quotes, and of [n] blanks. *)
Definition quotes (n : nat) : string := string_of_list_ascii (repeat QUOTE n).

Definition blanks (n : nat) : string := string_of_list_ascii (repeat " "%char n).

(** Neither the first nor the last item of [l] satisfies [p]. *)
Definition trimmed {A : Type} (p : A -> bool) (l : list A) : Prop :=
  (forall x, head l = Some x -> p x = false) /\
  (forall x, last l = Some x -> p x = false).

(** The text neither begins nor ends with a double quote. *)
Definition unquoted (s : string) : Prop := trimmed is_quote (list_ascii_of_string s).

(** * Proofs *)

(** ** Signs of rounded results *)

Section RoundingSigns.
Variables prec emax : Z.

Lemma shr_1_nonneg mrs : 0 <= shr_m mrs -> 0 <= shr_m (shr_1 mrs).
Proof.
  destruct mrs as [m r s]; simpl.
  destruct m as [|p|p]; try destruct p; simpl; lia.
Qed.

Lemma iter_shr_1_nonneg p : forall mrs,
  0 <= shr_m mrs -> 0 <= shr_m (SpecFloat.iter_pos shr_1 p mrs).
Proof.
  induction p as [p IH|p IH|]; intros mrs H; simpl.
  - apply IH, IH, shr_1_nonneg, H.
  - apply IH, IH, H.
  - apply shr_1_nonneg, H.
Qed.

Lemma shr_nonneg mrs e n : 0 <= shr_m mrs -> 0 <= shr_m (fst (shr mrs e n)).
Proof.
  intros H. destruct n; simpl; auto using iter_shr_1_nonneg.
Qed.

Lemma shr_record_of_loc_m m l : shr_m (shr_record_of_loc m l) = m.
Proof. destruct l as [|[]]; reflexivity. Qed.

Lemma shr_fexp_nonneg m e l :
  0 <= m -> 0 <= shr_m (fst (shr_fexp prec emax m e l)).
Proof.
  intros H. unfold shr_fexp. apply shr_nonneg.
  now rewrite shr_record_of_loc_m.
Qed.

Lemma round_nearest_even_nonneg m l : 0 <= m -> 0 <= round_nearest_even m l.
Proof.
  intros H. destruct l as [|[]]; simpl; try lia.
  destruct (Z.even m); lia.
Qed.

Lemma binary_round_aux_sign s m e l :
  0 <= m -> F64.sign_bit (binary_round_aux prec emax s m e l) = Some s.
Proof.
  intros H. unfold binary_round_aux.
  pose proof (shr_fexp_nonneg m e l H) as H1.
  destruct (shr_fexp prec emax m e l) as [mrs1 e1]; simpl in H1.
  pose proof (round_nearest_even_nonneg (shr_m mrs1) (loc_of_shr_record mrs1) H1) as H2.
  pose proof (shr_fexp_nonneg _ e1 loc_Exact H2) as H3.
  destruct (shr_fexp prec emax _ e1 loc_Exact) as [mrs2 e2]; simpl in H3.
  destruct (shr_m mrs2) as [|p|p]; try lia; try reflexivity.
  now destruct (e2 <=? emax - prec).
Qed.

Lemma binary_round_sign s m e :
  F64.sign_bit (binary_round prec emax s m e) = Some s.
Proof.
  unfold binary_round. destruct (shl_align m e _) as [mz ez].
  apply binary_round_aux_sign. lia.
Qed.
End RoundingSigns.

Lemma add_nonneg a b :
  F64.sign_bit a = Some false -> F64.sign_bit b = Some false ->
  F64.sign_bit (F64.add a b) = Some false.
Proof.
  destruct a as [sa|sa| |sa ma ea], b as [sb|sb| |sb mb eb]; simpl;
    intros [= ->] [= ->]; try reflexivity.
  unfold F64.add, SFadd. simpl cond_Zopp.
  unfold binary_normalize.
  destruct (_ + _) as [|p|p] eqn:E; try reflexivity; try lia.
  apply binary_round_sign.
Qed.

Lemma div_sign a s m e :
  F64.sign_bit (F64.div a (S754_finite s m e)) = xorb s <$> F64.sign_bit a.
Proof.
  destruct a as [sa|sa| |sa ma ea]; simpl; try reflexivity.
  - now rewrite xorb_comm.
  - now rewrite xorb_comm.
  - unfold SFdiv_core_binary.
    set (m' := match _ - _ - _ with Z0 => _ | Zpos _ => _ | Zneg _ => _ end).
    assert (Hm : 0 <= m').
    { subst m'. destruct (_ - _ - _); try lia. apply Z.shiftl_nonneg. lia. }
    pose proof (Z.div_eucl_eq m' (Zpos m) ltac:(lia)) as Hd.
    pose proof (Z.mod_pos_bound m' (Zpos m) ltac:(lia)) as Hr.
    unfold Z.modulo in Hr.
    destruct (Z.div_eucl m' (Z.pos m)) as [q r].
    rewrite binary_round_aux_sign by nia.
    now rewrite xorb_comm.
Qed.

(** ** Results that stay finite *)

Section RoundingBounds.
Variables prec emax : Z.

Lemma shr_1_le mrs : 0 <= shr_m mrs -> shr_m (shr_1 mrs) <= shr_m mrs.
Proof.
  destruct mrs as [m r s]; simpl.
  destruct m as [|p|p]; try destruct p; simpl; lia.
Qed.

Lemma iter_shr_1_le p : forall mrs,
  0 <= shr_m mrs -> shr_m (SpecFloat.iter_pos shr_1 p mrs) <= shr_m mrs.
Proof.
  induction p as [p IH|p IH|]; intros mrs H; simpl.
  - pose proof (shr_1_nonneg mrs H). pose proof (shr_1_le mrs H).
    pose proof (iter_shr_1_nonneg p _ H0). pose proof (IH _ H0).
    pose proof (IH _ H2). lia.
  - pose proof (iter_shr_1_nonneg p _ H). pose proof (IH _ H).
    pose proof (IH _ H0). lia.
  - now apply shr_1_le.
Qed.

Lemma shr_fexp_le m e l : 0 <= m -> shr_m (fst (shr_fexp prec emax m e l)) <= m.
Proof.
  intros H. unfold shr_fexp, shr.
  destruct (fexp prec emax (Zdigits2 m + e) - e); simpl;
    rewrite ?shr_record_of_loc_m; try lia.
  etransitivity; [apply iter_shr_1_le|]; rewrite shr_record_of_loc_m; lia.
Qed.

Lemma shr_fexp_exp m e l :
  snd (shr_fexp prec emax m e l) = Z.max e (fexp prec emax (Zdigits2 m + e)).
Proof.
  unfold shr_fexp, shr.
  destruct (fexp prec emax (Zdigits2 m + e) - e) eqn:E; simpl; lia.
Qed.

Lemma round_nearest_even_le m l : round_nearest_even m l <= m + 1.
Proof. destruct l as [|[]]; simpl; try lia. destruct (Z.even m); lia. Qed.
End RoundingBounds.

Lemma digits2_pos_size p : digits2_pos p = Pos.size p.
Proof. induction p; simpl; congruence. Qed.

Lemma Zdigits2_bound m k : 0 <= m < 2 ^ k -> 0 <= k -> 0 <= Zdigits2 m <= k.
Proof.
  intros [H0 Hk] Hk0. destruct m as [|p|p]; simpl; try lia.
  rewrite digits2_pos_size. split; [lia|].
  pose proof (Pos.size_le p) as Hs.
  assert (H2 : 2 ^ Zpos (Pos.size p) <= 2 * Zpos p).
  { rewrite <- Pos2Z.inj_pow. change (2 * Z.pos p) with (Z.pos p~0). lia. }
  assert (2 ^ Zpos (Pos.size p) < 2 ^ (k + 1)).
  { rewrite Z.pow_add_r by lia. lia. }
  apply Z.pow_lt_mono_r_iff in H; lia.
Qed.

(** A mantissa of at most [k] bits with a moderate exponent never rounds
    to an infinity. *)
Lemma binary_round_aux_finite s m e l k :
  0 <= m < 2 ^ k -> 0 <= k -> -2000 <= e -> e + 2 * k <= 900 ->
  forall s', binary_round_aux F64.prec F64.emax s m e l <> S754_infinity s'.
Proof.
  intros Hm Hk He Hek s'. unfold binary_round_aux.
  pose proof (shr_fexp_nonneg F64.prec F64.emax m e l ltac:(lia)) as Hn1.
  pose proof (shr_fexp_le F64.prec F64.emax m e l ltac:(lia)) as Hl1.
  pose proof (shr_fexp_exp F64.prec F64.emax m e l) as He1.
  destruct (shr_fexp F64.prec F64.emax m e l) as [mrs1 e1]; simpl in *.
  set (m2 := round_nearest_even (shr_m mrs1) (loc_of_shr_record mrs1)).
  pose proof (round_nearest_even_nonneg _ (loc_of_shr_record mrs1) Hn1) as Hn2.
  pose proof (round_nearest_even_le (shr_m mrs1) (loc_of_shr_record mrs1)) as Hl2.
  fold m2 in Hn2, Hl2.
  pose proof (shr_fexp_exp F64.prec F64.emax m2 e1 loc_Exact) as He2.
  destruct (shr_fexp F64.prec F64.emax m2 e1 loc_Exact) as [mrs2 e2]; simpl in *.
  destruct (shr_m mrs2); try discriminate.
  destruct (Z.leb_spec e2 (F64.emax - F64.prec)); [discriminate|].
  exfalso.
  assert (Hd1 : 0 <= Zdigits2 m <= k) by (apply Zdigits2_bound; lia).
  assert (Hd2 : 0 <= Zdigits2 m2 <= k + 1).
  { apply Zdigits2_bound; [|lia]. rewrite Z.pow_add_r by lia. lia. }
  unfold fexp, emin, F64.prec, F64.emax in *. lia.
Qed.

(** ** get_gps_location *)

Lemma opp_sign x : F64.sign_bit (F64.opp x) = negb <$> F64.sign_bit x.
Proof. now destruct x. Qed.

Lemma round6_sign x : F64.sign_bit (F64.round6 x) = F64.sign_bit x.
Proof.
  destruct x as [s|s| |s m e]; try reflexivity.
  unfold F64.round6. destruct (F64.scaled6 m e); try reflexivity.
  rewrite div_sign. reflexivity.
Qed.

Lemma convert_to_degrees_tuple d m s fd fm fs :
  as_float d = Ok fd -> as_float m = Ok fm -> as_float s = Ok fs ->
  convert_to_degrees (PyTuple [d; m; s])
  = Ok (F64.add (F64.add fd (F64.div fm f60)) (F64.div fs f3600)).
Proof.
  intros Hd Hm Hs. unfold convert_to_degrees, py_truediv, py_add. simpl.
  rewrite Hm. simpl. rewrite Hd. simpl. rewrite Hs. reflexivity.
Qed.

Lemma get_gps_location_eq (g : dict) :
  get_gps_location g =
  match g !! name "GPSLatitude", g !! name "GPSLongitude" with
  | Some v_lat, Some v_lon =>
      match convert_to_degrees v_lat with
      | Raise e => ([EvPrint (MsgGpsWarning e)], Ok None)
      | Ok lat =>
          match convert_to_degrees v_lon with
          | Raise e => ([EvPrint (MsgGpsWarning e)], Ok None)
          | Ok lon =>
              ([], Ok (Some
                (F64.round6 (if py_ne_str (get g "GPSLatitudeRef") "N"
                             then F64.opp lat else lat),
                 F64.round6 (if py_ne_str (get g "GPSLongitudeRef") "E"
                             then F64.opp lon else lon))))
          end
      end
  | _, _ => ([], Ok None)
  end.
Proof.
  unfold get_gps_location, contains, dict_truthy, getitem.
  destruct (g !! name "GPSLatitude") as [v_lat|] eqn:Hlat.
  2:{ rewrite (bool_decide_eq_false_2 (is_Some None)) by (intros [? [=]]).
      simpl. rewrite ?orb_true_r. reflexivity. }
  destruct (g !! name "GPSLongitude") as [v_lon|] eqn:Hlon.
  2:{ rewrite (bool_decide_eq_false_2 (is_Some None)) by (intros [? [=]]).
      simpl. rewrite ?orb_true_r. reflexivity. }
  rewrite !(bool_decide_eq_true_2 (is_Some (Some _))) by (eexists; reflexivity).
  rewrite (bool_decide_eq_false_2 (g = ∅)).
  2:{ intros ->. now rewrite lookup_empty in Hlat. }
  simpl.
  destruct (convert_to_degrees v_lat) as [lat|e]; [|reflexivity]. simpl.
  destruct (convert_to_degrees v_lon) as [lon|e]; reflexivity.
Qed.

Lemma py_eq_str_get (g : dict) k s :
  py_eq_str (get g k) s = true <-> g !! name k = Some (PyStr s).
Proof.
  unfold get, get_default. destruct (g !! name k) as [v|]; simpl.
  - destruct v; simpl; try (split; [discriminate | intros [=]]).
    rewrite String.eqb_eq. split; [now intros -> | now intros [= ->]].
  - split; discriminate.
Qed.

Lemma py_ne_str_get_false (g : dict) k s :
  g !! name k = Some (PyStr s) -> py_ne_str (get g k) s = false.
Proof.
  intros H. unfold py_ne_str. apply py_eq_str_get in H. now rewrite H.
Qed.

Lemma py_ne_str_get_true (g : dict) k s :
  g !! name k <> Some (PyStr s) -> py_ne_str (get g k) s = true.
Proof.
  intros H. unfold py_ne_str.
  destruct (py_eq_str (get g k) s) eqn:E; [|reflexivity].
  now apply py_eq_str_get in E.
Qed.

Lemma nonneg_number_float v :
  nonneg_number v -> exists f, as_float v = Ok f /\ F64.sign_bit f = Some false.
Proof.
  unfold nonneg_number. destruct (as_float v) as [f|e]; [eauto | tauto].
Qed.

Lemma decimal_degrees_nonneg d m s :
  F64.sign_bit d = Some false -> F64.sign_bit m = Some false ->
  F64.sign_bit s = Some false ->
  F64.sign_bit (decimal_degrees d m s) = Some false.
Proof.
  intros Hd Hm Hs. unfold decimal_degrees.
  apply add_nonneg; [apply add_nonneg; [assumption|]|].
  - change (F64.of_Z 60) with (S754_finite false 8444249301319680 (-47)).
    now rewrite div_sign, Hm.
  - change (F64.of_Z 3600) with (S754_finite false 7916483719987200 (-41)).
    now rewrite div_sign, Hs.
Qed.

Lemma convert_nonneg_tuple d m s :
  nonneg_number d -> nonneg_number m -> nonneg_number s ->
  exists x, convert_to_degrees (PyTuple [d; m; s]) = Ok x
            /\ F64.sign_bit x = Some false.
Proof.
  intros (fd & Hd & Sd)%nonneg_number_float (fm & Hm & Sm)%nonneg_number_float
         (fs & Hs & Ss)%nonneg_number_float.
  eexists. split.
  - apply convert_to_degrees_tuple; eassumption.
  - now apply decimal_degrees_nonneg.
Qed.

Lemma of_ratio_finite n d :
  0 <= n < 2 ^ 64 -> Zpos d < 2 ^ 64 ->
  forall s, F64.of_ratio n d <> S754_infinity s.
Proof.
  intros Hn Hd s. destruct n as [|p|p]; try discriminate; try lia.
  unfold F64.of_ratio, F64.div, SFdiv, SFdiv_core_binary.
  assert (H1 : 0 <= Zdigits2 (Zpos p) <= 64) by (apply Zdigits2_bound; lia).
  assert (H2 : 0 <= Zdigits2 (Zpos d) <= 64) by (apply Zdigits2_bound; lia).
  assert (H1' : 1 <= Zdigits2 (Zpos p)) by (simpl; lia).
  assert (H2' : 1 <= Zdigits2 (Zpos d)) by (simpl; lia).
  set (e' := Z.min _ _).
  assert (He : -117 <= e' <= 0).
  { subst e'. unfold fexp, emin, F64.prec, F64.emax. lia. }
  set (m' := match 0 - 0 - e' with Z0 => _ | Zpos _ => _ | Zneg _ => _ end).
  assert (Hm : 0 <= m' < 2 ^ 181).
  { subst m'. destruct (0 - 0 - e') eqn:E; try lia.
    rewrite Z.shiftl_mul_pow2 by lia. split; [lia|].
    assert (2 ^ Zpos p0 <= 2 ^ 117) by (apply Z.pow_le_mono_r; lia).
    change (2 ^ 181) with (2 ^ 64 * 2 ^ 117). nia. }
  pose proof (Z.div_eucl_eq m' (Zpos d) ltac:(lia)) as Hq.
  pose proof (Z.mod_pos_bound m' (Zpos d) ltac:(lia)) as Hr.
  unfold Z.modulo in Hr.
  destruct (Z.div_eucl m' (Zpos d)) as [q r].
  apply (binary_round_aux_finite _ q e' _ 181); try lia. nia.
Qed.

Lemma unsigned_rational_nonneg n d :
  0 <= n < 2 ^ 64 -> 0 < d < 2 ^ 64 -> nonneg_number (PyRational n d).
Proof.
  intros Hn Hd. unfold nonneg_number, as_float, float_of_fraction.
  destruct (Z.eqb_spec d 0); [lia|].
  destruct d as [|d|d]; try lia.
  pose proof (of_ratio_finite n d Hn ltac:(lia)) as Hfin.
  assert (Hs : F64.sign_bit (F64.of_ratio n d) = Some false).
  { destruct n as [|p|p]; try lia; [reflexivity|].
    unfold F64.of_ratio. now rewrite div_sign. }
  destruct (F64.of_ratio n d); try assumption; try discriminate.
  now destruct (Hfin s).
Qed.

Lemma exif_rational_nonneg v : exif_rational v -> nonneg_number v.
Proof.
  destruct v; simpl; try tauto. intros [Hn Hd].
  apply unsigned_rational_nonneg; lia.
Qed.

(** On coordinate tuples as EXIF stores them the function always gives a
    position. *)
Lemma get_gps_location_exif_rationals (g : dict) d1 m1 s1 d2 m2 s2 :
  g !! name "GPSLatitude" = Some (PyTuple [d1; m1; s1]) ->
  g !! name "GPSLongitude" = Some (PyTuple [d2; m2; s2]) ->
  Forall exif_rational [d1; m1; s1; d2; m2; s2] ->
  exists lat lon, get_gps_location g = ([], Ok (Some (lat, lon))).
Proof.
  intros Hlat Hlon Hall.
  pose proof (Forall_impl _ _ _ Hall exif_rational_nonneg) as Hnn.
  repeat match goal with H : Forall nonneg_number (_ :: _) |- _ => inversion_clear H end.
  destruct (convert_nonneg_tuple d1 m1 s1) as (x & Hx & _); try assumption.
  destruct (convert_nonneg_tuple d2 m2 s2) as (y & Hy & _); try assumption.
  rewrite get_gps_location_eq, Hlat, Hlon, Hx, Hy. eauto.
Qed.

(** C1. For a GPS fragment whose two coordinate tuples hold non-negative
    degrees, minutes and seconds, [get_gps_location] returns a pair; the
    latitude is the rounded conversion when [GPSLatitudeRef] is the text
    "N" and its rounded negation for any other value or when the key is
    missing, and likewise the longitude with "E".  So the sign bit of each
    coordinate is set exactly when its ref is not the expected letter. *)
Theorem get_gps_location_sign_rule (g : dict) d1 m1 s1 d2 m2 s2 :
  g !! name "GPSLatitude" = Some (PyTuple [d1; m1; s1]) ->
  g !! name "GPSLongitude" = Some (PyTuple [d2; m2; s2]) ->
  Forall nonneg_number [d1; m1; s1; d2; m2; s2] ->
  exists x y lat lon,
    convert_to_degrees (PyTuple [d1; m1; s1]) = Ok x /\
    convert_to_degrees (PyTuple [d2; m2; s2]) = Ok y /\
    F64.sign_bit x = Some false /\ F64.sign_bit y = Some false /\
    get_gps_location g = ([], Ok (Some (lat, lon))) /\
    (g !! name "GPSLatitudeRef" = Some (PyStr "N") ->
       lat = F64.round6 x /\ F64.sign_bit lat = Some false) /\
    (g !! name "GPSLatitudeRef" <> Some (PyStr "N") ->
       lat = F64.round6 (F64.opp x) /\ F64.sign_bit lat = Some true) /\
    (g !! name "GPSLongitudeRef" = Some (PyStr "E") ->
       lon = F64.round6 y /\ F64.sign_bit lon = Some false) /\
    (g !! name "GPSLongitudeRef" <> Some (PyStr "E") ->
       lon = F64.round6 (F64.opp y) /\ F64.sign_bit lon = Some true).
Proof.
  intros Hlat Hlon Hnn.
  repeat match goal with H : Forall _ (_ :: _) |- _ => inversion_clear H end.
  destruct (convert_nonneg_tuple d1 m1 s1) as (x & Hx & Sx); try assumption.
  destruct (convert_nonneg_tuple d2 m2 s2) as (y & Hy & Sy); try assumption.
  exists x, y. do 2 eexists.
  split; [exact Hx|]. split; [exact Hy|]. split; [exact Sx|]. split; [exact Sy|].
  split.
  { rewrite get_gps_location_eq, Hlat, Hlon, Hx, Hy. reflexivity. }
  repeat split.
  - now rewrite py_ne_str_get_false.
  - rewrite py_ne_str_get_false by assumption. now rewrite round6_sign.
  - now rewrite py_ne_str_get_true.
  - rewrite py_ne_str_get_true by assumption.
    now rewrite round6_sign, opp_sign, Sx.
  - now rewrite py_ne_str_get_false.
  - rewrite py_ne_str_get_false by assumption. now rewrite round6_sign.
  - now rewrite py_ne_str_get_true.
  - rewrite py_ne_str_get_true by assumption.
    now rewrite round6_sign, opp_sign, Sy.
Qed.

Lemma get_gps_location_sign_rule_witness :
  exists x y lat lon,
    convert_to_degrees (PyTuple [PyRational 41 1; PyRational 30 1; PyRational 0 1]) = Ok x /\
    convert_to_degrees (PyTuple [PyRational 2 1; PyRational 10 1; PyRational 3011 100]) = Ok y /\
    F64.sign_bit x = Some false /\ F64.sign_bit y = Some false /\
    get_gps_location Sample.fragment_north_west = ([], Ok (Some (lat, lon))) /\
    (Sample.fragment_north_west !! name "GPSLatitudeRef" = Some (PyStr "N") ->
       lat = F64.round6 x /\ F64.sign_bit lat = Some false) /\
    (Sample.fragment_north_west !! name "GPSLatitudeRef" <> Some (PyStr "N") ->
       lat = F64.round6 (F64.opp x) /\ F64.sign_bit lat = Some true) /\
    (Sample.fragment_north_west !! name "GPSLongitudeRef" = Some (PyStr "E") ->
       lon = F64.round6 y /\ F64.sign_bit lon = Some false) /\
    (Sample.fragment_north_west !! name "GPSLongitudeRef" <> Some (PyStr "E") ->
       lon = F64.round6 (F64.opp y) /\ F64.sign_bit lon = Some true).
Proof.
  apply get_gps_location_sign_rule.
  - reflexivity.
  - reflexivity.
  - repeat constructor; vm_compute; reflexivity.
Defined.

(** C2. When the components of the two coordinate tuples are numbers,
    [get_gps_location] computes each axis as
    degrees + minutes/60 + seconds/3600 in float arithmetic, applies the
    sign of the hemisphere and rounds to six decimal places.  The tuple
    (41, 30, 0) with ref "N" gives the latitude 41.5 exactly. *)
Theorem get_gps_location_decimal_degrees (g : dict)
    d1 m1 s1 d2 m2 s2 (fd1 fm1 fs1 fd2 fm2 fs2 : f64) :
  g !! name "GPSLatitude" = Some (PyTuple [d1; m1; s1]) ->
  g !! name "GPSLongitude" = Some (PyTuple [d2; m2; s2]) ->
  as_float d1 = Ok fd1 -> as_float m1 = Ok fm1 -> as_float s1 = Ok fs1 ->
  as_float d2 = Ok fd2 -> as_float m2 = Ok fm2 -> as_float s2 = Ok fs2 ->
  let lat := decimal_degrees fd1 fm1 fs1 in
  let lon := decimal_degrees fd2 fm2 fs2 in
  get_gps_location g
  = ([], Ok (Some
       (F64.round6 (if py_ne_str (get g "GPSLatitudeRef") "N" then F64.opp lat else lat),
        F64.round6 (if py_ne_str (get g "GPSLongitudeRef") "E" then F64.opp lon else lon))))
  /\ (fd1 = F64.of_Z 41 -> fm1 = F64.of_Z 30 -> fs1 = F64.of_Z 0 ->
      g !! name "GPSLatitudeRef" = Some (PyStr "N") ->
      exists lon', get_gps_location g = ([], Ok (Some (F64.of_ratio 83 2, lon')))
                   /\ F64.format_6f (F64.of_ratio 83 2) = "41.500000").
Proof.
  intros Hlat Hlon H1 H2 H3 H4 H5 H6 lat lon.
  assert (E : get_gps_location g
    = ([], Ok (Some
       (F64.round6 (if py_ne_str (get g "GPSLatitudeRef") "N" then F64.opp lat else lat),
        F64.round6 (if py_ne_str (get g "GPSLongitudeRef") "E" then F64.opp lon else lon))))).
  { rewrite get_gps_location_eq, Hlat, Hlon.
    rewrite (convert_to_degrees_tuple _ _ _ _ _ _ H1 H2 H3).
    rewrite (convert_to_degrees_tuple _ _ _ _ _ _ H4 H5 H6).
    reflexivity. }
  split; [exact E|].
  intros -> -> -> Href. eexists. split; [|reflexivity].
  rewrite E, (py_ne_str_get_false _ _ _ Href). reflexivity.
Qed.

Lemma get_gps_location_decimal_degrees_witness :
  get_gps_location Sample.fragment_north_west
  = ([], Ok (Some (F64.of_ratio 83 2, F64.opp (F64.of_ratio 2175031 1000000)))).
Proof.
  destruct (get_gps_location_decimal_degrees Sample.fragment_north_west
              (PyRational 41 1) (PyRational 30 1) (PyRational 0 1)
              (PyRational 2 1) (PyRational 10 1) (PyRational 3011 100)
              (F64.of_Z 41) (F64.of_Z 30) (F64.of_Z 0)
              (F64.of_Z 2) (F64.of_Z 10) (F64.of_ratio 3011 100)
              eq_refl eq_refl eq_refl eq_refl eq_refl eq_refl eq_refl eq_refl)
    as [E _].
  rewrite E. vm_compute. reflexivity.
Defined.

(** C3. [get_gps_location] never raises.  It returns [None] without a
    word when the mapping is empty or lacks [GPSLatitude] or
    [GPSLongitude], and it returns [None] after printing one warning when
    the conversion of either coordinate fails. *)
Theorem get_gps_location_never_raises (g : dict) :
  (exists out r, get_gps_location g = (out, Ok r)) /\
  (g = ∅ \/ g !! name "GPSLatitude" = None \/ g !! name "GPSLongitude" = None ->
   get_gps_location g = ([], Ok None)) /\
  (forall v_lat v_lon e,
     g !! name "GPSLatitude" = Some v_lat ->
     g !! name "GPSLongitude" = Some v_lon ->
     convert_to_degrees v_lat = Raise e \/
     (exists lat, convert_to_degrees v_lat = Ok lat /\ convert_to_degrees v_lon = Raise e) ->
     get_gps_location g = ([EvPrint (MsgGpsWarning e)], Ok None)).
Proof.
  rewrite get_gps_location_eq. split; [|split].
  - destruct (g !! name "GPSLatitude") as [v_lat|]; [|eauto].
    destruct (g !! name "GPSLongitude") as [v_lon|]; [|eauto].
    destruct (convert_to_degrees v_lat); [|eauto].
    destruct (convert_to_degrees v_lon); eauto.
  - intros [-> | [-> | H]].
    + now rewrite lookup_empty.
    + reflexivity.
    + rewrite H. now destruct (g !! name "GPSLatitude").
  - intros v_lat v_lon e -> -> [-> | (lat & -> & ->)]; reflexivity.
Qed.

(** ** get_address_from_coords *)

(** The text for a finite number: sign, integer part, a point, six
    digits. *)
Lemma format_6f_finite s m e :
  exists int frac,
    F64.format_6f (S754_finite s m e) = F64.sign_str s ++ int ++ "." ++ frac
    /\ String.length frac = 6%nat.
Proof. do 2 eexists. split; reflexivity. Qed.

Lemma get_address_from_coords_eq (w : world) (lat lon : f64) :
  get_address_from_coords w lat lon
  = ([EvReverse lat lon],
     Ok (match reverse w (lat, lon) "ru" 10 with
         | Ok (Some loc) => loc_address loc
         | _ => F64.format_6f lat ++ ", " ++ F64.format_6f lon
         end)).
Proof.
  unfold get_address_from_coords, try_except, emit, lift, location_address.
  simpl. now destruct (reverse w (lat, lon) "ru" 10) as [[loc|]|e].
Qed.

(** C4. For all coordinates and every answer of the geocoder,
    [get_address_from_coords] returns a text and does not raise: the
    address of the location found, or, when the service raises or finds
    nothing, the two coordinates written with six decimals and separated
    by a comma and a space. *)
Theorem get_address_from_coords_degrades (w : world) (lat lon : f64) :
  (exists s, get_address_from_coords w lat lon = ([EvReverse lat lon], Ok s)) /\
  (forall loc, reverse w (lat, lon) "ru" 10 = Ok (Some loc) ->
     get_address_from_coords w lat lon = ([EvReverse lat lon], Ok (loc_address loc))) /\
  (reverse w (lat, lon) "ru" 10 = Ok None \/
   (exists e, reverse w (lat, lon) "ru" 10 = Raise e) ->
     get_address_from_coords w lat lon
     = ([EvReverse lat lon], Ok (F64.format_6f lat ++ ", " ++ F64.format_6f lon))).
Proof.
  rewrite get_address_from_coords_eq.
  split; [eauto|]. split.
  - now intros loc ->.
  - now intros [-> | [e ->]].
Qed.

Example get_address_from_coords_timeout :
  get_address_from_coords Sample.files
    (F64.opp (F64.of_ratio 83 2)) (F64.of_ratio 2175031 1000000)
  = ([EvReverse (F64.opp (F64.of_ratio 83 2)) (F64.of_ratio 2175031 1000000)],
     Ok "-41.500000, 2.175031").
Proof. reflexivity. Qed.

(** ** extract_image_info *)

Lemma get_gps_location_trace (g : dict) :
  exists out coords,
    get_gps_location g = (out, Ok coords) /\
    forall lat lon, EvReverse lat lon ∉ out.
Proof.
  rewrite get_gps_location_eq.
  assert (Hnil : forall lat lon, EvReverse lat lon ∉ ([] : list event))
    by (intros ? ? ?%elem_of_nil; assumption).
  assert (Hwarn : forall e lat lon, EvReverse lat lon ∉ [EvPrint (MsgGpsWarning e)]).
  { intros e lat lon H%list_elem_of_singleton. discriminate. }
  destruct (g !! name "GPSLatitude") as [v_lat|]; [|eauto].
  destruct (g !! name "GPSLongitude") as [v_lon|]; [|eauto].
  destruct (convert_to_degrees v_lat); [|eauto].
  destruct (convert_to_degrees v_lon); eauto.
Qed.

Lemma tag_fold_lookup_None (table : Z -> option string) (f : pyval -> pyval) k
    (l : list (Z * pyval)) : forall acc : dict,
  acc !! name k = None ->
  (forall id v, (id, v) ∈ l -> table id <> Some k) ->
  fold_left (fun d '(id, v) => <[tag_name table id := f v]> d) l acc !! name k = None.
Proof.
  induction l as [|[id v] l IH]; intros acc Hacc Hl; simpl; [assumption|].
  apply IH.
  - rewrite lookup_insert_ne; [assumption|].
    unfold tag_name, name. specialize (Hl id v ltac:(left)).
    destruct (table id); congruence.
  - intros id' v' Hin. apply (Hl id' v'). now right.
Qed.

Lemma read_tags_lookup_None (w : world) (tags : gmap Z pyval) k :
  (forall id, is_Some (tags !! id) -> TAGS w id <> Some k) ->
  read_tags w tags !! name k = None.
Proof.
  intros H. unfold read_tags.
  apply (tag_fold_lookup_None (TAGS w) (decode_bytes w)).
  - apply lookup_empty.
  - intros id v Hin%elem_of_map_to_list. apply H. eauto.
Qed.

(** The outcome for a file that opens, has tags and a date that parses. *)
Lemma extract_image_info_dated (w : world) path image exif t :
  Image_open w path = Ok image ->
  getexif image = Ok exif ->
  exif_tags exif <> ∅ ->
  let exif_data := read_tags w (exif_tags exif) in
  py_truthy (find_date_str exif_data) = true ->
  strptime w (find_date_str exif_data) DATE_FORMAT = Ok t ->
  exists out coords place,
    get_gps_location (gps_fragment w exif) = (out, Ok coords) /\
    (forall lat lon, EvReverse lat lon ∉ out) /\
    match coords with
    | Some (lat, lon) =>
        exists s, get_address_from_coords w lat lon = ([EvReverse lat lon], Ok s)
                  /\ place = ([EvReverse lat lon], s)
    | None => place = ([], NO_COORDS)
    end /\
    extract_image_info w path =
      ((EvPrint (MsgProcessing (basename w path)) :: out ++ fst place ++ [EvPrint MsgDone])%list,
       match copy image with
       | Ok px => Ok (Some {| info_image := px; date_taken := t; address := snd place;
                              camera_model := get_default exif_data "Model" (PyStr NO_MODEL) |})
       | Raise e => Raise e
       end).
Proof.
  intros Hopen Hexif Htags exif_data Hdate Hparse.
  destruct (get_gps_location_trace (gps_fragment w exif)) as (out & coords & Hgps & Hout).
  unfold extract_image_info. rewrite Hopen, Hexif. simpl.
  rewrite bool_decide_eq_false_2 by assumption.
  fold exif_data. rewrite Hdate. simpl. rewrite Hparse, Hgps.
  destruct coords as [[lat lon]|].
  - pose proof (get_address_from_coords_eq w lat lon) as Hs.
    eexists out, (Some (lat, lon)), ([EvReverse lat lon], _).
    split; [reflexivity|]. split; [assumption|]. split; [eauto|].
    cbn -[get_address_from_coords]. rewrite Hs.
    destruct (copy image); simpl; rewrite <- ?app_assoc; reflexivity.
  - exists out, None, ([], NO_COORDS).
    split; [reflexivity|]. split; [assumption|]. split; [reflexivity|].
    simpl. destruct (copy image); simpl; rewrite ?app_nil_r; reflexivity.
Qed.

Lemma extract_image_info_no_date (w : world) path image exif :
  Image_open w path = Ok image ->
  getexif image = Ok exif ->
  exif_tags exif <> ∅ ->
  py_truthy (find_date_str (read_tags w (exif_tags exif))) = false ->
  extract_image_info w path
  = ([EvPrint (MsgProcessing (basename w path)); EvPrint MsgNoDate], Ok None).
Proof.
  intros Hopen Hexif Htags Hfalse.
  unfold extract_image_info. rewrite Hopen, Hexif. simpl.
  rewrite bool_decide_eq_false_2 by assumption.
  now rewrite Hfalse.
Qed.

Lemma extract_image_info_bad_date (w : world) path image exif e :
  Image_open w path = Ok image ->
  getexif image = Ok exif ->
  exif_tags exif <> ∅ ->
  py_truthy (find_date_str (read_tags w (exif_tags exif))) = true ->
  strptime w (find_date_str (read_tags w (exif_tags exif))) DATE_FORMAT = Raise e ->
  extract_image_info w path
  = ([EvPrint (MsgProcessing (basename w path)); EvPrint MsgDateError], Ok None).
Proof.
  intros Hopen Hexif Htags Htrue Hparse.
  unfold extract_image_info. rewrite Hopen, Hexif. simpl.
  rewrite bool_decide_eq_false_2 by assumption.
  rewrite Htrue. simpl. now rewrite Hparse.
Qed.

Lemma extract_image_info_some_inv (w : world) path out info :
  extract_image_info w path = (out, Ok (Some info)) ->
  exists image exif t,
    Image_open w path = Ok image /\ getexif image = Ok exif /\
    exif_tags exif <> ∅ /\
    py_truthy (find_date_str (read_tags w (exif_tags exif))) = true /\
    strptime w (find_date_str (read_tags w (exif_tags exif))) DATE_FORMAT = Ok t.
Proof.
  unfold extract_image_info.
  destruct (Image_open w path) as [image|e] eqn:Hopen; [|intros [=]].
  destruct (getexif image) as [exif|e] eqn:Hexif; [|intros [=]].
  cbn -[get_gps_location get_address_from_coords].
  destruct (bool_decide (exif_tags exif = ∅)) eqn:Htags; [intros [=]|].
  apply bool_decide_eq_false_1 in Htags.
  destruct (py_truthy _) eqn:Hdate; [|intros [=]].
  cbn -[get_gps_location get_address_from_coords].
  destruct (strptime w _ DATE_FORMAT) as [t|e] eqn:Hparse; [|intros [=]].
  intros _. exists image, exif, t. repeat split; assumption.
Qed.

(** C9. In a record that [extract_image_info] returns, the address is the
    text "Координаты недоступны" whenever [get_gps_location] gave [None], and
    then no reverse-geocoding request was sent; the camera model is the text
    "Модель неизвестна" whenever no tag of the image is named [Model]. *)
Theorem extract_image_info_sentinels (w : world) path out info :
  extract_image_info w path = (out, Ok (Some info)) ->
  exists image exif,
    Image_open w path = Ok image /\ getexif image = Ok exif /\
    (snd (get_gps_location (gps_fragment w exif)) = Ok None ->
       address info = NO_COORDS /\ forall lat lon, EvReverse lat lon ∉ out) /\
    ((forall id, is_Some (exif_tags exif !! id) -> TAGS w id <> Some "Model") ->
       camera_model info = PyStr NO_MODEL).
Proof.
  intros H.
  destruct (extract_image_info_some_inv _ _ _ _ H)
    as (image & exif & t & Hopen & Hexif & Htags & Hdate & Hparse).
  destruct (extract_image_info_dated w path image exif t Hopen Hexif Htags Hdate Hparse)
    as (out1 & coords & place & Hgps & Hout1 & Hplace & Hrun).
  rewrite Hrun in H. exists image, exif.
  split; [assumption|]. split; [assumption|].
  destruct (copy image) as [px|e]; [|discriminate].
  injection H as <- <-. simpl. split.
  - rewrite Hgps. simpl. intros [= ->]. subst place. simpl.
    split; [reflexivity|].
    intros lat lon [[=] | [Hin | Hin]%elem_of_app]%elem_of_cons.
    + now apply (Hout1 lat lon).
    + apply list_elem_of_singleton in Hin. discriminate.
  - intros Hmodel. unfold get_default.
    now rewrite (read_tags_lookup_None w (exif_tags exif) "Model" Hmodel).
Qed.

Lemma extract_image_info_sentinels_witness :
  exists info,
    snd (extract_image_info Sample.files "photos/IMG_0002.JPG") = Ok (Some info) /\
    address info = NO_COORDS /\ camera_model info = PyStr NO_MODEL.
Proof.
  destruct (extract_image_info_sentinels Sample.files "photos/IMG_0002.JPG" _ _ eq_refl)
    as (image & exif & Hopen & Hexif & Hgps & Hmodel).
  eexists. split; [reflexivity|].
  injection Hopen as <-. injection Hexif as <-. split.
  - apply Hgps. reflexivity.
  - apply Hmodel. intros id [v Hv]. simpl in Hv.
    apply lookup_singleton_Some in Hv as [<- _]. discriminate.
Defined.

(** C6, as stated: the date is not always taken from [DateTimeOriginal]
    when that tag is present.  A file whose [DateTimeOriginal] is the empty
    text and whose [DateTime] is a good date gives a record, dated by
    [DateTime]. *)
Lemma capture_date_by_presence_fails : ~ capture_date_by_presence.
Proof.
  intros H.
  specialize (H Sample.files "photos/IMG_0003.heic" Sample.img_0003 _ eq_refl eq_refl).
  assert (Htags : exif_tags
            {| exif_tags := {[ 306 := PyStr "2022:02:03 04:05:06"; 36867 := PyStr "" ]};
               get_ifd := Sample.no_ifd |} <> ∅).
  { intros E. apply (f_equal (fun m => m !! 306)) in E. discriminate. }
  specialize (H Htags). vm_compute in H. discriminate.
Qed.

(** C6, amended.  For an image with EXIF tags the text to parse is
    [DateTimeOriginal] when that tag is present and not empty (truthy),
    and [DateTime] otherwise; it is parsed with the format
    [%Y:%m:%d %H:%M:%S].  With neither tag present, or no non-empty value,
    or a text that does not parse, the function returns [None]; with a
    text that parses, every record returned carries the parsed date, and
    one is returned when the pixels can be copied. *)
Theorem extract_image_info_capture_date (w : world) path image exif :
  Image_open w path = Ok image ->
  getexif image = Ok exif ->
  exif_tags exif <> ∅ ->
  let exif_data := read_tags w (exif_tags exif) in
  let original := get exif_data "DateTimeOriginal" in
  let date_str := if py_truthy original then original else get exif_data "DateTime" in
  (exif_data !! name "DateTimeOriginal" = None ->
   exif_data !! name "DateTime" = None ->
   py_truthy date_str = false) /\
  (py_truthy date_str = false ->
   extract_image_info w path
   = ([EvPrint (MsgProcessing (basename w path)); EvPrint MsgNoDate], Ok None)) /\
  (py_truthy date_str = true ->
   forall e, strptime w date_str DATE_FORMAT = Raise e ->
   extract_image_info w path
   = ([EvPrint (MsgProcessing (basename w path)); EvPrint MsgDateError], Ok None)) /\
  (py_truthy date_str = true ->
   forall t, strptime w date_str DATE_FORMAT = Ok t ->
   (forall out info, extract_image_info w path = (out, Ok (Some info)) ->
                     date_taken info = t) /\
   (forall px, copy image = Ok px ->
      exists out info, extract_image_info w path = (out, Ok (Some info))
                       /\ date_taken info = t)).
Proof.
  intros Hopen Hexif Htags exif_data original date_str.
  assert (Hstr : date_str = find_date_str exif_data) by reflexivity.
  rewrite Hstr. clear Hstr date_str. subst exif_data original.
  split; [|split; [|split]].
  - intros H1 H2. unfold find_date_str, py_or, get, get_default.
    now rewrite H1, H2.
  - now apply (extract_image_info_no_date w path image exif).
  - intros Htrue e. now apply (extract_image_info_bad_date w path image exif).
  - intros Htrue t Hparse.
    destruct (extract_image_info_dated w path image exif t Hopen Hexif Htags Htrue Hparse)
      as (out1 & coords & place & _ & _ & _ & Hrun).
    rewrite Hrun. split.
    + intros out info. destruct (copy image); [|discriminate]. now intros [= _ <-].
    + intros px ->. eauto.
Qed.

Lemma extract_image_info_capture_date_witness :
  exists out info,
    extract_image_info Sample.files "photos/IMG_0003.heic" = (out, Ok (Some info))
    /\ date_taken info
       = {| year := 2022; month := 2; day := 3; hour := 4; minute := 5; second := 6 |}.
Proof.
  assert (Htags : exif_tags
            {| exif_tags := {[ 306 := PyStr "2022:02:03 04:05:06"; 36867 := PyStr "" ]};
               get_ifd := Sample.no_ifd |} <> ∅).
  { intros E. apply (f_equal (fun m => m !! 306)) in E. discriminate. }
  destruct (extract_image_info_capture_date Sample.files "photos/IMG_0003.heic"
              Sample.img_0003 _ eq_refl eq_refl Htags) as (_ & _ & _ & H).
  destruct (H eq_refl _ eq_refl) as [_ H'].
  exact (H' Sample.good_pixels eq_refl).
Defined.

(** A file with tags and a date that parses is in none of the skipped
    states. *)
Lemma dated_not_skipped (w : world) path image exif t :
  Image_open w path = Ok image ->
  getexif image = Ok exif ->
  exif_tags exif <> ∅ ->
  py_truthy (find_date_str (read_tags w (exif_tags exif))) = true ->
  strptime w (find_date_str (read_tags w (exif_tags exif))) DATE_FORMAT = Ok t ->
  ~ skipped w path.
Proof.
  intros Hopen Hexif Htags Hdate Hparse
         [e He | image' exif' Ho He Hempty | image' exif' Ho He _ Hno].
  - congruence.
  - rewrite Hopen in Ho. injection Ho as <-. rewrite Hexif in He. injection He as <-.
    contradiction.
  - rewrite Hopen in Ho. injection Ho as <-. rewrite Hexif in He. injection He as <-.
    simpl in Hno. rewrite Hdate, Hparse in Hno.
    destruct Hno as [[=] | [e [=]]].
Qed.

(** A failure met while parsing the EXIF block leaves the function. *)
Lemma extract_image_info_exif_failure (w : world) path image e :
  Image_open w path = Ok image ->
  getexif image = Raise e ->
  extract_image_info w path
  = ([EvPrint (MsgProcessing (basename w path))], Raise e).
Proof.
  intros Hopen Hexif. unfold extract_image_info. now rewrite Hopen, Hexif.
Qed.

(** When reading the EXIF block and decoding the pixels succeed, the
    function returns, and it returns [None] in the three skipped states and
    in no other. *)
Lemma extract_image_info_none_iff (w : world) path :
  (forall image, Image_open w path = Ok image ->
     (exists exif, getexif image = Ok exif) /\ (exists px, copy image = Ok px)) ->
  exists out r,
    extract_image_info w path = (out, Ok r) /\ (r = None <-> skipped w path).
Proof.
  intros Hfine.
  destruct (Image_open w path) as [image|e] eqn:Hopen.
  2:{ exists [EvPrint (MsgProcessing (basename w path)); EvPrint MsgOpenError], None.
      split; [unfold extract_image_info; now rewrite Hopen|].
      split; [intros _; eapply Skipped_NoImage; eassumption | reflexivity]. }
  destruct (Hfine image eq_refl) as [[exif Hexif] [px Hcopy]].
  destruct (decide (exif_tags exif = ∅)) as [Hempty|Htags].
  { exists [EvPrint (MsgProcessing (basename w path)); EvPrint MsgNoExif], None.
    split.
    - unfold extract_image_info. rewrite Hopen, Hexif. simpl.
      now rewrite bool_decide_eq_true_2.
    - split; [intros _; eapply Skipped_NoExif; eassumption | reflexivity]. }
  destruct (py_truthy (find_date_str (read_tags w (exif_tags exif)))) eqn:Hdate.
  2:{ do 2 eexists. split; [eapply extract_image_info_no_date; eassumption|].
      split; [intros _ | reflexivity].
      eapply Skipped_NoDate; try eassumption. now left. }
  destruct (strptime w (find_date_str (read_tags w (exif_tags exif))) DATE_FORMAT)
    as [t|e] eqn:Hparse.
  2:{ do 2 eexists. split; [eapply extract_image_info_bad_date; eassumption|].
      split; [intros _ | reflexivity].
      eapply Skipped_NoDate; try eassumption. right. eauto. }
  destruct (extract_image_info_dated w path image exif t Hopen Hexif Htags Hdate Hparse)
    as (out & coords & place & _ & _ & _ & Hrun).
  rewrite Hcopy in Hrun. revert Hrun.
  set (info := {| info_image := px; date_taken := t; address := snd place;
                  camera_model := _ |}).
  intros Hrun. do 2 eexists. split; [exact Hrun|].
  split; [discriminate|].
  intros Hskip. exfalso. revert Hskip.
  now apply (dated_not_skipped w path image exif t).
Qed.

(** C5.  A failure met while copying the pixels is not turned into
    [None]: for a file that opens, has tags and a date that parses, an
    exception raised by [image.copy()] leaves [extract_image_info], although
    the file is in none of the three skipped states, and it ends the loop of
    [main] over the remaining files as well. *)
Theorem extract_image_info_decode_failure (w : world) path image exif t e :
  Image_open w path = Ok image ->
  getexif image = Ok exif ->
  exif_tags exif <> ∅ ->
  py_truthy (find_date_str (read_tags w (exif_tags exif))) = true ->
  strptime w (find_date_str (read_tags w (exif_tags exif))) DATE_FORMAT = Ok t ->
  copy image = Raise e ->
  snd (extract_image_info w path) = Raise e /\
  ~ skipped w path /\
  forall rest, snd (process_photos w (path :: rest)) = Raise e.
Proof.
  intros Hopen Hexif Htags Hdate Hparse Hcopy.
  destruct (extract_image_info_dated w path image exif t Hopen Hexif Htags Hdate Hparse)
    as (out1 & coords & place & _ & _ & _ & Hrun).
  rewrite Hcopy in Hrun. split; [now rewrite Hrun|]. split.
  - now apply (dated_not_skipped w path image exif t).
  - intros rest. cbn [process_photos]. rewrite Hrun. reflexivity.
Qed.

Lemma extract_image_info_decode_failure_witness :
  snd (extract_image_info Sample.files "damaged/IMG_0004.jpg") = Raise OSError /\
  ~ skipped Sample.files "damaged/IMG_0004.jpg" /\
  forall rest,
    snd (process_photos Sample.files ("damaged/IMG_0004.jpg" :: rest)) = Raise OSError.
Proof.
  eapply (extract_image_info_decode_failure Sample.files "damaged/IMG_0004.jpg"
            Sample.img_0004).
  - reflexivity.
  - reflexivity.
  - intros E. apply (f_equal (fun m => m !! 306)) in E. discriminate.
  - reflexivity.
  - reflexivity.
  - reflexivity.
Defined.

Example main_damaged_folder_raises :
  main Sample.files "damaged"
  = ([EvPrint (MsgSearching "damaged"); EvPrint (MsgFound 1);
      EvPrint (MsgProcessing "IMG_0004.jpg"); EvPrint MsgDone],
     Raise OSError).
Proof. reflexivity. Qed.

(** ** create_document *)

Lemma lex_ltb_asym a : forall b, lex_ltb a b = true -> lex_ltb b a = false.
Proof.
  induction a as [|x a IH]; intros [|y b]; simpl; try congruence.
  intros H.
  destruct (Z.ltb_spec x y), (Z.ltb_spec y x), (Z.eqb_spec x y), (Z.eqb_spec y x);
    simpl in *; try lia; try congruence.
  now apply IH.
Qed.

Lemma lex_ltb_false_trans a : forall b c,
  lex_ltb b a = false -> lex_ltb c b = false -> lex_ltb c a = false.
Proof.
  induction a as [|x a IH]; intros [|y b] [|z c]; simpl; try congruence.
  intros H1 H2.
  destruct (Z.ltb_spec y x), (Z.ltb_spec z y), (Z.ltb_spec z x),
           (Z.eqb_spec y x), (Z.eqb_spec z y), (Z.eqb_spec z x);
    simpl in *; try lia; try congruence.
  now apply (IH b c).
Qed.

Lemma datetime_lt_le a b : datetime_ltb a b = true -> datetime_le a b.
Proof. apply lex_ltb_asym. Qed.

Lemma datetime_le_trans a b c : datetime_le a b -> datetime_le b c -> datetime_le a c.
Proof.
  unfold datetime_le, datetime_ltb. intros H1 H2.
  now apply (lex_ltb_false_trans _ (datetime_fields b)).
Qed.

Lemma Forall_insert_by_date (P : photo_info -> Prop) x l :
  P x -> Forall P l -> Forall P (insert_by_date x l).
Proof.
  intros Hx Hl. induction Hl as [|y l Hy Hl IH]; simpl.
  - now constructor.
  - destruct (datetime_ltb (date_taken y) (date_taken x)); repeat constructor; assumption.
Qed.

Lemma insert_by_date_sorted x l :
  StronglySorted by_date l -> StronglySorted by_date (insert_by_date x l).
Proof.
  induction 1 as [|y l Hs IH Hy]; simpl.
  - repeat constructor.
  - destruct (datetime_ltb (date_taken y) (date_taken x)) eqn:E.
    + constructor; [assumption|].
      apply Forall_insert_by_date; [|assumption].
      now apply datetime_lt_le.
    + constructor; [now constructor|].
      constructor; [exact E|].
      eapply Forall_impl; [exact Hy|].
      intros z Hz. simpl in *. eapply datetime_le_trans; [exact E | exact Hz].
Qed.

Lemma sort_by_date_sorted l : StronglySorted by_date (sort_by_date l).
Proof.
  induction l as [|x l IH]; simpl; [constructor | now apply insert_by_date_sorted].
Qed.

Lemma insert_by_date_perm x l : Permutation (x :: l) (insert_by_date x l).
Proof.
  induction l as [|y l IH]; simpl; [reflexivity|].
  destruct (datetime_ltb (date_taken y) (date_taken x)); [|reflexivity].
  rewrite perm_swap. now constructor.
Qed.

Lemma sort_by_date_perm l : Permutation l (sort_by_date l).
Proof.
  induction l as [|x l IH]; simpl; [reflexivity|].
  rewrite <- insert_by_date_perm. now constructor.
Qed.

Lemma datetime_ltb_irrefl a : datetime_ltb a a = false.
Proof.
  destruct (datetime_ltb a a) eqn:E; [|reflexivity].
  pose proof (lex_ltb_asym _ _ E). unfold datetime_ltb in *. congruence.
Qed.

(** Inserting a record leaves the records of every date in their order,
    with the new one ahead of those of its own date. *)
Lemma filter_insert_by_date t x l :
  filter (fun p => date_taken p = t) (insert_by_date x l)
  = filter (fun p => date_taken p = t) (x :: l).
Proof.
  induction l as [|y l IH]; simpl; [reflexivity|].
  destruct (datetime_ltb (date_taken y) (date_taken x)) eqn:E; [|reflexivity].
  rewrite filter_cons, IH, !filter_cons.
  destruct (decide (date_taken y = t)) as [Hy|Hy];
    destruct (decide (date_taken x = t)) as [Hx|Hx]; try reflexivity.
  exfalso. rewrite Hy, Hx, datetime_ltb_irrefl in E. discriminate.
Qed.

Lemma sort_by_date_stable t l :
  filter (fun p => date_taken p = t) (sort_by_date l)
  = filter (fun p => date_taken p = t) l.
Proof.
  induction l as [|x l IH]; simpl; [reflexivity|].
  now rewrite filter_insert_by_date, !filter_cons, IH.
Qed.

Lemma filter_render_row t l :
  filter (fun r => cell_date r = t) (map render_row l)
  = map render_row (filter (fun p => date_taken p = t) l).
Proof.
  induction l as [|x l IH]; simpl; [reflexivity|].
  rewrite !filter_cons. simpl.
  destruct (decide (date_taken x = t)); simpl; now rewrite IH.
Qed.

Lemma elem_of_saved (out : list event) path table :
  (path, table) ∈ saved out <-> EvSave path table ∈ out.
Proof.
  unfold saved. rewrite list_elem_of_omap. split.
  - intros (ev & Hin & Hev). destruct ev; try discriminate.
    now injection Hev as -> ->.
  - intros Hin. now exists (EvSave path table).
Qed.

Lemma omap_row_added {A} (f : event -> option A) n k :
  (forall i, f (EvPrint (MsgRowAdded i n)) = None) ->
  omap f (map (fun i => EvPrint (MsgRowAdded i n)) k) = [].
Proof.
  intros Hf. induction k as [|i k IH]; [reflexivity|].
  cbn [map].
  change (omap f (EvPrint (MsgRowAdded i n)
                    :: map (fun i => EvPrint (MsgRowAdded i n)) k))
    with (match f (EvPrint (MsgRowAdded i n)) with
          | Some y => y :: omap f (map (fun i => EvPrint (MsgRowAdded i n)) k)
          | None => omap f (map (fun i => EvPrint (MsgRowAdded i n)) k)
          end).
  now rewrite Hf.
Qed.

Lemma texts_accepted_perm w l l' :
  Permutation l l' -> texts_accepted w l -> texts_accepted w l'.
Proof. unfold texts_accepted. intros H. now rewrite H. Qed.

(** The loop either sets the texts of every row, or stops at the first
    text that is refused. *)
Lemma add_rows_cases w total l : forall i,
  (texts_accepted w l /\
   add_rows w i total l
   = (map (fun k => EvPrint (MsgRowAdded k total)) (seq i (length l)),
      Ok (map render_row l)))
  \/ (~ texts_accepted w l /\
      exists n e,
        add_rows w i total l
        = (map (fun k => EvPrint (MsgRowAdded k total)) (seq i n), Raise e)).
Proof.
  induction l as [|x l IH]; intros i.
  - left. split; [constructor | reflexivity].
  - cbn [add_rows].
    destruct (set_text w (date_cell_text w x)) as [[]|e] eqn:Hd.
    2:{ right. split; [intros H; inversion H as [|? ? [H1 _]]; congruence|].
        exists 1%nat, e. reflexivity. }
    destruct (set_text w (address x)) as [[]|e] eqn:Ha.
    2:{ right. split; [intros H; inversion H as [|? ? [_ H2]]; congruence|].
        exists 1%nat, e. reflexivity. }
    destruct (IH (S i)) as [[Hacc ->] | [Hno (n & e & ->)]].
    + left. split; [constructor; auto|]. simpl. now rewrite app_nil_r.
    + right. split; [intros H; inversion H; auto|]. exists (S n), e. reflexivity.
Qed.

Lemma sort_by_date_length l : length (sort_by_date l) = length l.
Proof. symmetry. apply Permutation_length, sort_by_date_perm. Qed.

(** [create_document] either writes the table and returns its path, or
    raises after the progress lines, with nothing written. *)
Lemma create_document_cases (w : world) (photos_info : list photo_info) output_dir :
  let path := join w output_dir (OUTPUT_PREFIX ++ now_stamp w ++ ".docx") in
  let rows := map render_row (sort_by_date photos_info) in
  (texts_accepted w photos_info /\ save w path rows = Ok tt /\
   create_document w photos_info output_dir
   = ((EvPrint (MsgCreating (basename w path))
         :: map (fun i => EvPrint (MsgRowAdded i (length photos_info)))
              (seq 1 (length photos_info))
         ++ [EvSave path rows; EvPrint (MsgSaved path)])%list,
      Ok path))
  \/ (exists n e,
        create_document w photos_info output_dir
        = (EvPrint (MsgCreating (basename w path))
             :: map (fun i => EvPrint (MsgRowAdded i (length photos_info))) (seq 1 n),
           Raise e)
        /\ (~ texts_accepted w photos_info
            \/ (texts_accepted w photos_info /\ save w path rows = Raise e))).
Proof.
  cbv zeta. unfold create_document. rewrite sort_by_date_length.
  destruct (add_rows_cases w (length photos_info) (sort_by_date photos_info) 1)
    as [[Hacc ->] | [Hno (n & e & ->)]].
  - apply (texts_accepted_perm w _ photos_info) in Hacc;
      [|symmetry; apply sort_by_date_perm].
    rewrite sort_by_date_length.
    destruct (save w (join w output_dir (OUTPUT_PREFIX ++ now_stamp w ++ ".docx"))
                (map render_row (sort_by_date photos_info))) as [[]|e] eqn:Hsave.
    + left. split; [assumption|]. split; [reflexivity|].
      unfold print, emit, lift. cbn [mbind M_bind mret M_ret]. rewrite Hsave.
      now rewrite app_nil_r.
    + right. exists (length photos_info), e. split; [|right; now split].
      unfold print, emit, lift. cbn [mbind M_bind mret M_ret]. rewrite Hsave.
      now rewrite app_nil_r.
  - right. exists n, e. split; [reflexivity|]. left. intros Hacc. apply Hno.
    apply (texts_accepted_perm w photos_info); [apply sort_by_date_perm | assumption].
Qed.

(** When the texts are accepted and the document can be saved. *)
Lemma create_document_eq (w : world) (photos_info : list photo_info) output_dir :
  texts_accepted w photos_info ->
  save w (join w output_dir (OUTPUT_PREFIX ++ now_stamp w ++ ".docx"))
    (map render_row (sort_by_date photos_info)) = Ok tt ->
  create_document w photos_info output_dir
  = ((EvPrint (MsgCreating (basename w
         (join w output_dir (OUTPUT_PREFIX ++ now_stamp w ++ ".docx"))))
        :: map (fun i => EvPrint (MsgRowAdded i (length photos_info)))
             (seq 1 (length photos_info))
        ++ [EvSave (join w output_dir (OUTPUT_PREFIX ++ now_stamp w ++ ".docx"))
              (map render_row (sort_by_date photos_info));
            EvPrint (MsgSaved (join w output_dir
                                 (OUTPUT_PREFIX ++ now_stamp w ++ ".docx")))])%list,
     Ok (join w output_dir (OUTPUT_PREFIX ++ now_stamp w ++ ".docx"))).
Proof.
  intros Hacc Hsave.
  destruct (create_document_cases w photos_info output_dir)
    as [(_ & _ & E) | (n & e & _ & [Hno | [_ Hfail]])];
    [exact E | contradiction | congruence].
Qed.

(** [create_document] sends nothing to the geocoder and announces no
    file. *)
Lemma create_document_quiet (w : world) (photos_info : list photo_info) output_dir :
  requests (fst (create_document w photos_info output_dir)) = []
  /\ processed (fst (create_document w photos_info output_dir)) = [].
Proof.
  destruct (create_document_cases w photos_info output_dir)
    as [(_ & _ & ->) | (n & e & -> & _)]; cbn [fst]; unfold requests, processed;
    split;
    match goal with
    | |- omap ?f (?x :: ?l) = _ => change (omap f (x :: l)) with (omap f l)
    end; rewrite ?omap_app, omap_row_added by reflexivity; reflexivity.
Qed.

(** A table that is written is the table of the sorted records, and then
    the function returned. *)
Lemma create_document_saved (w : world) (photos_info : list photo_info) output_dir p t :
  (p, t) ∈ saved (fst (create_document w photos_info output_dir)) ->
  p = join w output_dir (OUTPUT_PREFIX ++ now_stamp w ++ ".docx") /\
  t = map render_row (sort_by_date photos_info) /\
  snd (create_document w photos_info output_dir) = Ok p /\
  saved (fst (create_document w photos_info output_dir)) = [(p, t)].
Proof.
  destruct (create_document_cases w photos_info output_dir)
    as [(_ & _ & ->) | (n & e & -> & _)]; cbn [fst snd]; unfold saved;
    match goal with
    | |- context [omap ?f (?x :: ?l)] => change (omap f (x :: l)) with (omap f l)
    end; rewrite ?omap_app, omap_row_added by reflexivity.
  - simpl. intros [= -> ->]%list_elem_of_singleton. repeat split.
  - intros H. now apply elem_of_nil in H.
Qed.

Lemma lex_ltb_antisym a : forall b,
  length a = length b -> lex_ltb a b = false -> lex_ltb b a = false -> a = b.
Proof.
  induction a as [|x a IH]; intros [|y b] Hlen; simpl in *; try congruence; try lia.
  intros H1 H2.
  destruct (Z.ltb_spec x y), (Z.ltb_spec y x), (Z.eqb_spec x y), (Z.eqb_spec y x);
    simpl in *; try lia; try congruence.
  f_equal; [assumption|]. apply IH; [lia | assumption..].
Qed.

Lemma datetime_le_antisym a b : datetime_le a b -> datetime_le b a -> a = b.
Proof.
  unfold datetime_le, datetime_ltb. intros H1 H2.
  pose proof (lex_ltb_antisym (datetime_fields a) (datetime_fields b) eq_refl H2 H1) as E.
  destruct a, b. simpl in E. now injection E as -> -> -> -> -> ->.
Qed.

Lemma datetime_le_refl a : datetime_le a a.
Proof. apply datetime_ltb_irrefl. Qed.

Lemma sorted_head_least x l y :
  StronglySorted by_date (x :: l) -> y ∈ x :: l ->
  datetime_le (date_taken x) (date_taken y).
Proof.
  intros Hs Hin. inversion_clear Hs as [|? ? _ Hall].
  apply elem_of_cons in Hin as [-> | Hin]; [apply datetime_le_refl|].
  rewrite Forall_forall in Hall. now apply Hall.
Qed.

(** Two date-ordered lists that hold, for every date, the same records in
    the same order are one and the same list. *)
Lemma stable_sorted_unique l1 : forall l2,
  StronglySorted by_date l1 -> StronglySorted by_date l2 ->
  (forall t, filter (fun p => date_taken p = t) l1
             = filter (fun p => date_taken p = t) l2) ->
  l1 = l2.
Proof.
  induction l1 as [|x l1 IH]; intros [|y l2] Hs1 Hs2 H; try reflexivity.
  - specialize (H (date_taken y)). rewrite filter_cons_True in H by reflexivity.
    discriminate.
  - specialize (H (date_taken x)). rewrite filter_cons_True in H by reflexivity.
    discriminate.
  - assert (Hx : x ∈ y :: l2).
    { pose proof (H (date_taken x)) as Hx.
      rewrite filter_cons_True in Hx by reflexivity.
      assert (Hin : x ∈ filter (fun p => date_taken p = date_taken x) (y :: l2))
        by (rewrite <- Hx; left).
      now apply list_elem_of_filter in Hin as [_ Hin]. }
    assert (Hy : y ∈ x :: l1).
    { pose proof (H (date_taken y)) as Hy.
      rewrite (filter_cons_True _ y) in Hy by reflexivity.
      assert (Hin : y ∈ filter (fun p => date_taken p = date_taken y) (x :: l1))
        by (rewrite Hy; left).
      now apply list_elem_of_filter in Hin as [_ Hin]. }
    assert (Hd : date_taken x = date_taken y).
    { apply datetime_le_antisym; eapply sorted_head_least; eassumption. }
    assert (Hxy : x = y).
    { pose proof (H (date_taken x)) as Hh.
      rewrite filter_cons_True in Hh by reflexivity.
      rewrite filter_cons_True in Hh by (now symmetry).
      now injection Hh. }
    subst y. f_equal. apply IH.
    + now inversion Hs1.
    + now inversion Hs2.
    + intros t. specialize (H t). rewrite !filter_cons in H.
      destruct (decide (date_taken x = t)); [now injection H | assumption].
Qed.

(** Any stable sort by date returns the list that [sort_by_date] returns. *)
Lemma sort_by_date_unique l l' :
  StronglySorted by_date l' ->
  (forall t, filter (fun p => date_taken p = t) l'
             = filter (fun p => date_taken p = t) l) ->
  l' = sort_by_date l.
Proof.
  intros Hs Hst. apply stable_sorted_unique; [assumption | apply sort_by_date_sorted|].
  intros t. now rewrite Hst, sort_by_date_stable.
Qed.

(** C8. Whenever [create_document] writes a table, its rows are the
    given records, each rendered once, in non-decreasing order of capture
    date; and the rows of any one date stand in the order in which their
    records were given. *)
Theorem create_document_rows_in_date_order (w : world) photos_info output_dir path rows :
  EvSave path rows ∈ fst (create_document w photos_info output_dir) ->
  rows = map render_row (sort_by_date photos_info) /\
  Permutation (map render_row photos_info) rows /\
  StronglySorted (fun r1 r2 => datetime_le (cell_date r1) (cell_date r2)) rows /\
  forall t, filter (fun r => cell_date r = t) rows
            = map render_row (filter (fun p => date_taken p = t) photos_info).
Proof.
  intros Hin%elem_of_saved.
  apply create_document_saved in Hin as (_ & -> & _ & _).
  split; [reflexivity|]. split; [|split].
  - apply Permutation_map, sort_by_date_perm.
  - pose proof (sort_by_date_sorted photos_info) as Hs.
    induction Hs as [|x l Hs IH Hx]; simpl; constructor; [assumption|].
    apply Forall_map. exact Hx.
  - intros t. now rewrite filter_render_row, sort_by_date_stable.
Qed.

Lemma create_document_rows_in_date_order_witness :
  let l := omap (record_of Sample.files)
             ["photos/IMG_0001.jpg"; "photos/IMG_0002.JPG"; "photos/IMG_0003.heic"] in
  let rows := map render_row (sort_by_date l) in
  EvSave "photos/!_ФОТОТАБЛИЦА_2024-03-01_12-00.docx" rows
    ∈ fst (create_document Sample.files l "photos") /\
  map (fun r => year (cell_date r)) rows = [2021; 2022; 2023] /\
  StronglySorted (fun r1 r2 => datetime_le (cell_date r1) (cell_date r2)) rows.
Proof.
  cbv zeta.
  assert (Hin : EvSave "photos/!_ФОТОТАБЛИЦА_2024-03-01_12-00.docx"
                  (map render_row
                     (sort_by_date
                        (omap (record_of Sample.files)
                           ["photos/IMG_0001.jpg"; "photos/IMG_0002.JPG";
                            "photos/IMG_0003.heic"])))
                ∈ fst (create_document Sample.files
                         (omap (record_of Sample.files)
                            ["photos/IMG_0001.jpg"; "photos/IMG_0002.JPG";
                             "photos/IMG_0003.heic"]) "photos")).
  { vm_compute. repeat (apply elem_of_cons; first [left; reflexivity | right]). }
  split; [exact Hin|]. split; [reflexivity|].
  exact (proj1 (proj2 (proj2 (create_document_rows_in_date_order _ _ _ _ _ Hin)))).
Defined.

(** ** The file filter of main *)

Lemma string_app_cons c a b : String c a ++ b = String c (a ++ b).
Proof. reflexivity. Qed.

Lemma string_app_nil b : "" ++ b = b.
Proof. reflexivity. Qed.

Lemma substring_all s : substring 0 (String.length s) s = s.
Proof. induction s as [|c s IH]; simpl; [reflexivity | now rewrite IH]. Qed.

Lemma substring_split s : forall i, (i <= String.length s)%nat ->
  s = substring 0 i s ++ substring i (String.length s - i) s.
Proof.
  induction s as [|c s IH]; intros [|i] Hi; simpl in *;
    rewrite ?string_app_cons, ?string_app_nil; try reflexivity; try lia.
  - now rewrite substring_all.
  - f_equal. apply IH. lia.
Qed.

Lemma substring_app_r p : forall q,
  substring (String.length p) (String.length q) (p ++ q) = q.
Proof.
  induction p as [|c p IH]; intros q;
    rewrite ?string_app_cons, ?string_app_nil; simpl; [apply substring_all | apply IH].
Qed.

Lemma string_app_length p q :
  String.length (p ++ q) = (String.length p + String.length q)%nat.
Proof.
  induction p as [|c p IH]; rewrite ?string_app_cons, ?string_app_nil; simpl;
    [reflexivity | now rewrite IH].
Qed.

Lemma endswith_iff s suffix : endswith s suffix = true <-> exists p, s = p ++ suffix.
Proof.
  unfold endswith. rewrite andb_true_iff, Nat.leb_le, String.eqb_eq. split.
  - intros [Hle Hsub].
    exists (substring 0 (String.length s - String.length suffix) s).
    pose proof (substring_split s (String.length s - String.length suffix)
                  ltac:(lia)) as Hs.
    replace (String.length s - (String.length s - String.length suffix))%nat
      with (String.length suffix) in Hs by lia.
    now rewrite Hsub in Hs.
  - intros [p ->]. rewrite string_app_length. split; [lia|].
    replace (String.length p + String.length suffix - String.length suffix)%nat
      with (String.length p) by lia.
    apply substring_app_r.
Qed.

Lemma endswith_any_iff s suffixes :
  endswith_any s suffixes = true <-> exists ext, ext ∈ suffixes /\ endswith s ext = true.
Proof.
  unfold endswith_any. rewrite existsb_exists.
  split; intros (ext & Hin & H); exists ext; split; try assumption;
    now apply list_elem_of_In.
Qed.

Lemma py_lower_app a b : py_lower (a ++ b) = py_lower a ++ py_lower b.
Proof.
  induction a as [|c a IH]; rewrite ?string_app_cons, ?string_app_nil; simpl;
    [reflexivity | now rewrite string_app_cons, IH].
Qed.

Lemma py_lower_split p : forall f q,
  py_lower f = p ++ q -> exists a b, f = a ++ b /\ py_lower a = p /\ py_lower b = q.
Proof.
  induction p as [|c p IH]; intros f q H;
    rewrite ?string_app_cons, ?string_app_nil in H.
  - exists "", f. auto.
  - destruct f as [|d f]; [discriminate|]. simpl in H. injection H as Hc Hf.
    destruct (IH f q Hf) as (a & b & -> & Ha & Hb).
    exists (String d a), b. simpl. now rewrite Hc, Ha, Hb.
Qed.

Lemma lower_char_not_upper c : is_upper (lower_char c) = false.
Proof. destruct c as [[] [] [] [] [] [] [] []]; reflexivity. Qed.

Lemma py_lower_no_upper s :
  Forall (fun c => is_upper c = false) (list_ascii_of_string (py_lower s)).
Proof.
  induction s as [|c s IH]; simpl; constructor; [apply lower_char_not_upper | exact IH].
Qed.

Lemma Forall_chars_app_r (P : ascii -> Prop) p q :
  Forall P (list_ascii_of_string (p ++ q)) -> Forall P (list_ascii_of_string q).
Proof.
  induction p as [|c p IH]; rewrite ?string_app_cons, ?string_app_nil; simpl; [auto|].
  intros H. inversion H. auto.
Qed.

(** A suffix with a capital letter is never found at the end of a lowered
    name. *)
Lemma endswith_lower_upper f ext :
  Exists (fun c => is_upper c = true) (list_ascii_of_string ext) ->
  endswith (py_lower f) ext = false.
Proof.
  intros Hup. destruct (endswith (py_lower f) ext) eqn:E; [exfalso | reflexivity].
  apply endswith_iff in E as [p Hp].
  pose proof (py_lower_no_upper f) as Hlow. rewrite Hp in Hlow.
  apply Forall_chars_app_r in Hlow.
  apply Exists_exists in Hup as (c & Hin & Hc).
  rewrite Forall_forall in Hlow.
  rewrite (Hlow c Hin) in Hc. discriminate.
Qed.

Lemma endswith_lower_listed_upper f ext :
  ext ∈ [".JPG"; ".JPEG"; ".HEIF"] -> endswith (py_lower f) ext = false.
Proof.
  intros Hext. apply endswith_lower_upper.
  repeat (apply elem_of_cons in Hext as [-> | Hext];
          [apply Exists_cons_tl, Exists_cons_hd; reflexivity|]).
  now apply elem_of_nil in Hext.
Qed.

Lemma is_supported_iff f :
  is_supported f = true <->
  exists ext, ext ∈ lower_extensions /\ endswith (py_lower f) ext = true.
Proof.
  unfold is_supported. rewrite endswith_any_iff. unfold SUPPORTED_FORMATS. split.
  - intros (ext & Hin & H). exists ext. split; [|assumption].
    repeat (apply elem_of_cons in Hin as [-> | Hin]);
      try (repeat constructor; fail);
      try (rewrite endswith_lower_listed_upper in H by (repeat constructor);
           discriminate).
    now apply elem_of_nil in Hin.
  - intros (ext & Hin & H). exists ext. split; [|assumption].
    repeat (apply elem_of_cons in Hin as [-> | Hin]);
      try (repeat constructor; fail).
    now apply elem_of_nil in Hin.
Qed.

(** A name is selected whatever the case of the letters of its extension. *)
Lemma is_supported_app stem ext :
  py_lower ext ∈ lower_extensions -> is_supported (stem ++ ext) = true.
Proof.
  intros Hin. apply is_supported_iff. exists (py_lower ext). split; [assumption|].
  apply endswith_iff. exists (py_lower stem). apply py_lower_app.
Qed.

(** ** Worked examples *)

(** A tie goes to the even digit. *)
Example round6_tie_to_even :
  F64.round6 (F64.of_ratio 1 128) = F64.of_ratio 7812 1000000
  /\ F64.format_6f (F64.of_ratio 1 128) = "0.007812".
Proof. split; reflexivity. Qed.

(** A small negative number becomes a negative zero. *)
Example round6_negative_zero :
  F64.round6 (F64.of_ratio (-1) 10000000) = S754_zero true
  /\ F64.format_6f (F64.of_ratio (-1) 10000000) = "-0.000000".
Proof. split; reflexivity. Qed.

(** Sums of floats carry their rounding errors. *)
Example add_tenths :
  F64.add (F64.of_ratio 1 10) (F64.of_ratio 2 10) <> F64.of_ratio 3 10
  /\ F64.round6 (F64.add (F64.of_ratio 1 10) (F64.of_ratio 2 10)) = F64.of_ratio 3 10.
Proof. split; [discriminate | reflexivity]. Qed.

(** Values that cannot be coordinates end in a warning, not in an
    exception. *)
Example get_gps_location_malformed :
  get_gps_location (<[name "GPSLatitude" := PyTuple [PyInt 41; PyInt 30]]>
                    (<[name "GPSLongitude" := PyTuple [PyInt 2; PyInt 10; PyInt 30]]> ∅))
  = ([EvPrint (MsgGpsWarning ValueError)], Ok None)
  /\ get_gps_location (<[name "GPSLatitude" := PyStr "41 30 0"]>
                       (<[name "GPSLongitude" := PyTuple [PyInt 2; PyInt 10; PyInt 30]]> ∅))
     = ([EvPrint (MsgGpsWarning ValueError)], Ok None)
  /\ get_gps_location (<[name "GPSLatitude" := PyTuple [PyStr "41"; PyStr "30"; PyStr "0"]]>
                       (<[name "GPSLongitude" := PyTuple [PyInt 2; PyInt 10; PyInt 30]]> ∅))
     = ([EvPrint (MsgGpsWarning TypeError)], Ok None)
  /\ get_gps_location (<[name "GPSLatitude" := PyTuple [PyInt (10 ^ 400); PyInt 30; PyInt 0]]>
                       (<[name "GPSLongitude" := PyTuple [PyInt 2; PyInt 10; PyInt 30]]> ∅))
     = ([EvPrint (MsgGpsWarning OverflowError)], Ok None).
Proof. repeat split; reflexivity. Qed.

(** The sample folder: three pictures are taken, the text file is not, and
    the table is in the order of the dates. *)
Example main_sample_folder :
  snd (main Sample.files "photos") = Ok tt /\
  exists rows,
    EvSave "photos/!_ФОТОТАБЛИЦА_2024-03-01_12-00.docx" rows ∈ fst (main Sample.files "photos")
    /\ map (fun r => year (cell_date r)) rows = [2021; 2022; 2023]
    /\ map cell_place rows = [NO_COORDS; NO_COORDS; "Barcelona"].
Proof.
  split; [reflexivity|].
  eexists. split.
  - set (out := fst _). vm_compute in out. subst out.
    repeat (apply elem_of_cons; first [left; reflexivity | right]).
  - split; reflexivity.
Qed.

(** * Further properties *)

(** ** get_gps_location: what it reads and how it fails *)

Lemma binary_round_aux_opp prec emax s m e l :
  binary_round_aux prec emax (negb s) m e l = SFopp (binary_round_aux prec emax s m e l).
Proof.
  unfold binary_round_aux.
  destruct (shr_fexp prec emax m e l) as [mrs1 e1].
  destruct (shr_fexp prec emax _ e1 loc_Exact) as [mrs2 e2].
  destruct (shr_m mrs2); try reflexivity.
  now destruct (e2 <=? emax - prec).
Qed.

Lemma div_opp_l a b : F64.div (F64.opp a) b = F64.opp (F64.div a b).
Proof.
  destruct a as [sa|sa| |sa ma ea], b as [sb|sb| |sb mb eb]; simpl;
    try reflexivity; try (now destruct sa, sb).
  destruct (SFdiv_core_binary _ _ _ _ _ _) as [[mz ez] lz].
  replace (xorb (negb sa) sb) with (negb (xorb sa sb)) by (now destruct sa, sb).
  apply binary_round_aux_opp.
Qed.

Lemma round6_opp x : F64.round6 (F64.opp x) = F64.opp (F64.round6 x).
Proof.
  destruct x as [s|s| |s m e]; try reflexivity.
  change (F64.opp (S754_finite s m e)) with (S754_finite (negb s) m e).
  unfold F64.round6. destruct (F64.scaled6 m e); try reflexivity.
  exact (div_opp_l (S754_finite s p 0) (S754_finite false 1000000 0)).
Qed.

Lemma opp_opp x : F64.opp (F64.opp x) = x.
Proof. destruct x; simpl; now rewrite ?negb_involutive. Qed.

(** X1. [get_gps_location] reads the four keys [GPSLatitude],
    [GPSLongitude], [GPSLatitudeRef] and [GPSLongitudeRef] and nothing else:
    two mappings that agree on them give the same result and the same
    output, whatever other GPS tags they hold. *)
Theorem get_gps_location_reads_four_keys (g g' : dict) :
  (forall k, k ∈ ["GPSLatitude"; "GPSLongitude"; "GPSLatitudeRef"; "GPSLongitudeRef"] ->
             g !! name k = g' !! name k) ->
  get_gps_location g = get_gps_location g'.
Proof.
  intros H. rewrite !get_gps_location_eq. unfold get, get_default.
  rewrite <- (H "GPSLatitude"), <- (H "GPSLongitude"),
          <- (H "GPSLatitudeRef"), <- (H "GPSLongitudeRef");
    try reflexivity; repeat constructor.
Qed.

Lemma get_gps_location_reads_four_keys_witness :
  get_gps_location Sample.fragment_north_west
  = get_gps_location (<[name "GPSAltitude" := PyRational 12 1]>
                      (<[inr 27 := PyBytes "GPS"]> Sample.fragment_north_west)).
Proof.
  apply get_gps_location_reads_four_keys.
  intros k Hk.
  repeat (apply elem_of_cons in Hk as [-> | Hk]; [reflexivity|]).
  now apply elem_of_nil in Hk.
Defined.

(** X2. The hemisphere letter changes the sign and nothing else.  If a
    fragment with [GPSLatitudeRef] "N" gives (lat, lon), then with any other
    value of that key, or without the key, it gives (-lat, lon); and
    likewise for the longitude and "E". *)
Theorem get_gps_location_mirror (g : dict) out lat lon :
  get_gps_location g = (out, Ok (Some (lat, lon))) ->
  (g !! name "GPSLatitudeRef" = Some (PyStr "N") ->
   (forall ref, ref <> PyStr "N" ->
      get_gps_location (<[name "GPSLatitudeRef" := ref]> g)
      = (out, Ok (Some (F64.opp lat, lon)))) /\
   get_gps_location (delete (name "GPSLatitudeRef") g)
   = (out, Ok (Some (F64.opp lat, lon)))) /\
  (g !! name "GPSLongitudeRef" = Some (PyStr "E") ->
   (forall ref, ref <> PyStr "E" ->
      get_gps_location (<[name "GPSLongitudeRef" := ref]> g)
      = (out, Ok (Some (lat, F64.opp lon)))) /\
   get_gps_location (delete (name "GPSLongitudeRef") g)
   = (out, Ok (Some (lat, F64.opp lon)))).
Proof.
  rewrite get_gps_location_eq.
  destruct (g !! name "GPSLatitude") as [v_lat|] eqn:Hlat; [|discriminate].
  destruct (g !! name "GPSLongitude") as [v_lon|] eqn:Hlon; [|discriminate].
  destruct (convert_to_degrees v_lat) as [x|] eqn:Hx; [|discriminate].
  destruct (convert_to_degrees v_lon) as [y|] eqn:Hy; [|discriminate].
  intros [= <- <- <-].
  assert (Hins : forall k ref, k = "GPSLatitudeRef" \/ k = "GPSLongitudeRef" ->
    ref <> PyStr (if String.eqb k "GPSLatitudeRef" then "N" else "E") ->
    get_gps_location (<[name k := ref]> g)
    = ([], Ok (Some
        (F64.round6 (if py_ne_str (get (<[name k := ref]> g) "GPSLatitudeRef") "N"
                     then F64.opp x else x),
         F64.round6 (if py_ne_str (get (<[name k := ref]> g) "GPSLongitudeRef") "E"
                     then F64.opp y else y))))).
  { intros k ref Hk Href. rewrite get_gps_location_eq.
    rewrite !lookup_insert_ne by (destruct Hk as [-> | ->]; discriminate).
    now rewrite Hlat, Hlon, Hx, Hy. }
  assert (Hdel : forall k, k = "GPSLatitudeRef" \/ k = "GPSLongitudeRef" ->
    get_gps_location (delete (name k) g)
    = ([], Ok (Some
        (F64.round6 (if py_ne_str (get (delete (name k) g) "GPSLatitudeRef") "N"
                     then F64.opp x else x),
         F64.round6 (if py_ne_str (get (delete (name k) g) "GPSLongitudeRef") "E"
                     then F64.opp y else y))))).
  { intros k Hk. rewrite get_gps_location_eq.
    rewrite !lookup_delete_ne by (destruct Hk as [-> | ->]; discriminate).
    now rewrite Hlat, Hlon, Hx, Hy. }
  split; intros Href.
  - rewrite (py_ne_str_get_false _ _ _ Href). split.
    + intros ref Hne. rewrite Hins by (auto; exact Hne).
      rewrite py_ne_str_get_true by (rewrite lookup_insert_eq; congruence).
      unfold get at 1, get_default.
      rewrite lookup_insert_ne by discriminate.
      fold (get_default g "GPSLongitudeRef" PyNone). fold (get g "GPSLongitudeRef").
      now rewrite round6_opp.
    + rewrite Hdel by auto.
      rewrite py_ne_str_get_true by (rewrite lookup_delete_eq; congruence).
      unfold get at 1, get_default.
      rewrite lookup_delete_ne by discriminate.
      fold (get_default g "GPSLongitudeRef" PyNone). fold (get g "GPSLongitudeRef").
      now rewrite round6_opp.
  - rewrite (py_ne_str_get_false _ _ _ Href). split.
    + intros ref Hne. rewrite Hins by (auto; exact Hne).
      rewrite (py_ne_str_get_true _ "GPSLongitudeRef")
        by (rewrite lookup_insert_eq; congruence).
      unfold get at 1, get_default.
      rewrite lookup_insert_ne by discriminate.
      fold (get_default g "GPSLatitudeRef" PyNone). fold (get g "GPSLatitudeRef").
      now rewrite round6_opp.
    + rewrite Hdel by auto.
      rewrite (py_ne_str_get_true _ "GPSLongitudeRef")
        by (rewrite lookup_delete_eq; congruence).
      unfold get at 1, get_default.
      rewrite lookup_delete_ne by discriminate.
      fold (get_default g "GPSLatitudeRef" PyNone). fold (get g "GPSLatitudeRef").
      now rewrite round6_opp.
Qed.

Lemma get_gps_location_mirror_witness :
  get_gps_location (<[name "GPSLatitudeRef" := PyStr "S"]> Sample.fragment_north_west)
  = ([], Ok (Some (F64.opp (F64.of_ratio 83 2),
                   F64.opp (F64.of_ratio 2175031 1000000)))).
Proof.
  destruct (get_gps_location_mirror Sample.fragment_north_west _ _ _ eq_refl) as [H _].
  destruct (H eq_refl) as [H' _].
  exact (H' (PyStr "S") ltac:(discriminate)).
Defined.

Lemma decimal_degrees_nan d m s :
  d = F64.nan \/ m = F64.nan \/ s = F64.nan -> decimal_degrees d m s = F64.nan.
Proof.
  unfold decimal_degrees.
  intros [-> | [-> | ->]].
  - reflexivity.
  - change (F64.div F64.nan (F64.of_Z 60)) with F64.nan.
    destruct d; try reflexivity.
  - change (F64.div F64.nan (F64.of_Z 3600)) with F64.nan.
    generalize (F64.add d (F64.div m (F64.of_Z 60))). intros x. now destruct x.
Qed.

(** X3. A zero denominator is not taken for a malformed value.  When one
    of the three parts of the latitude turns into a NaN (a rational with
    denominator zero, or a float NaN) and the others are numbers, no warning
    is printed and the latitude returned is a NaN; the longitude is
    computed as usual. *)
Theorem get_gps_location_nan_latitude (g : dict) d m s fd fm fs v_lon y :
  g !! name "GPSLatitude" = Some (PyTuple [d; m; s]) ->
  g !! name "GPSLongitude" = Some v_lon ->
  as_float d = Ok fd -> as_float m = Ok fm -> as_float s = Ok fs ->
  fd = F64.nan \/ fm = F64.nan \/ fs = F64.nan ->
  convert_to_degrees v_lon = Ok y ->
  (forall n, as_float (PyRational n 0) = Ok F64.nan) /\
  get_gps_location g
  = ([], Ok (Some (F64.nan,
                   F64.round6 (if py_ne_str (get g "GPSLongitudeRef") "E"
                               then F64.opp y else y)))).
Proof.
  intros Hlat Hlon Hd Hm Hs Hnan Hy. split; [reflexivity|].
  rewrite get_gps_location_eq, Hlat, Hlon, Hy.
  rewrite (convert_to_degrees_tuple _ _ _ _ _ _ Hd Hm Hs).
  change (F64.add (F64.add fd (F64.div fm f60)) (F64.div fs f3600))
    with (decimal_degrees fd fm fs).
  rewrite (decimal_degrees_nan _ _ _ Hnan).
  now destruct (py_ne_str _ _).
Qed.

Lemma get_gps_location_nan_latitude_witness :
  get_gps_location
    (<[name "GPSLatitude" := PyTuple [PyRational 41 1; PyRational 30 0; PyRational 0 1]]>
       Sample.fragment_north_west)
  = ([], Ok (Some (F64.nan, F64.opp (F64.of_ratio 2175031 1000000)))).
Proof.
  refine (proj2 (get_gps_location_nan_latitude
                   (<[name "GPSLatitude" := PyTuple [PyRational 41 1; PyRational 30 0;
                                                     PyRational 0 1]]>
                      Sample.fragment_north_west)
                   (PyRational 41 1) (PyRational 30 0) (PyRational 0 1)
                   (F64.of_Z 41) F64.nan (F64.of_Z 0)
                   (PyTuple [PyRational 2 1; PyRational 10 1; PyRational 3011 100])
                   _
                   eq_refl eq_refl eq_refl eq_refl eq_refl _ eq_refl)).
  right. left. reflexivity.
Defined.

(** X4. A latitude of the wrong shape ends in a warning and [None], never
    in an exception: a tuple that does not hold exactly three items is
    reported as a [ValueError]; a value that is no sequence (a single
    number, or nothing) as a [TypeError]; and three items of which the
    minutes are no number, such as the (numerator, denominator) pairs of old
    Pillow versions, as a [TypeError] as well. *)
Theorem get_gps_location_wrong_shape (g : dict) v_lat v_lon :
  g !! name "GPSLatitude" = Some v_lat ->
  g !! name "GPSLongitude" = Some v_lon ->
  let warns e := get_gps_location g = ([EvPrint (MsgGpsWarning e)], Ok None) in
  (forall items, v_lat = PyTuple items -> length items <> 3%nat -> warns ValueError) /\
  (v_lat = PyNone \/ (exists z, v_lat = PyInt z) \/ (exists f, v_lat = PyFloat f)
   \/ (exists n d, v_lat = PyRational n d) -> warns TypeError) /\
  (forall d m s, v_lat = PyTuple [d; m; s] ->
     m = PyNone \/ (exists t, m = PyStr t) \/ (exists b, m = PyBytes b)
     \/ (exists l, m = PyTuple l) -> warns TypeError).
Proof.
  intros Hlat Hlon warns. subst warns. cbv beta.
  rewrite get_gps_location_eq, Hlat, Hlon. split; [|split].
  - intros items -> Hlen. unfold convert_to_degrees, unpack3. simpl.
    destruct items as [|a [|b [|c [|? ?]]]]; simpl in *; try reflexivity. lia.
  - intros [-> | [[z ->] | [[f ->] | (n & d & ->)]]]; reflexivity.
  - intros d m s -> [-> | [[t ->] | [[b ->] | [l ->]]]]; reflexivity.
Qed.

Lemma get_gps_location_wrong_shape_witness :
  get_gps_location
    (<[name "GPSLatitude" := PyTuple [PyTuple [PyInt 41; PyInt 1];
                                      PyTuple [PyInt 30; PyInt 1];
                                      PyTuple [PyInt 0; PyInt 1]]]>
       Sample.fragment_north_west)
  = ([EvPrint (MsgGpsWarning TypeError)], Ok None).
Proof.
  set (g0 := <[name "GPSLatitude" := _]> Sample.fragment_north_west).
  destruct (get_gps_location_wrong_shape g0
              (PyTuple [PyTuple [PyInt 41; PyInt 1]; PyTuple [PyInt 30; PyInt 1];
                        PyTuple [PyInt 0; PyInt 1]])
              (PyTuple [PyRational 2 1; PyRational 10 1; PyRational 3011 100])
              eq_refl eq_refl) as (_ & _ & H).
  apply (H _ _ _ eq_refl). right. right. right. eauto.
Defined.

(** ** The tag tables: from tag ids to named entries *)

Section TagFold.
Context (table : Z -> option string) (f : pyval -> pyval).

Lemma tag_fold_absent (K : key) (l : list (Z * pyval)) : forall acc : dict,
  (forall id v, (id, v) ∈ l -> tag_name table id <> K) ->
  fold_left (fun d '(tag_id, value) => <[tag_name table tag_id := f value]> d) l acc
    !! K = acc !! K.
Proof.
  induction l as [|[id v] l IH]; intros acc Hl; simpl; [reflexivity|].
  rewrite IH by (intros id' v' Hin; apply (Hl id' v'); now right).
  apply lookup_insert_ne. apply (Hl id v). now left.
Qed.

Lemma tag_fold_present (l : list (Z * pyval)) : forall (acc : dict) id v,
  NoDup (l.*1) ->
  (id, v) ∈ l ->
  (forall id' v', (id', v') ∈ l -> tag_name table id' = tag_name table id -> id' = id) ->
  fold_left (fun d '(tag_id, value) => <[tag_name table tag_id := f value]> d) l acc
    !! tag_name table id = Some (f v).
Proof.
  induction l as [|[id0 v0] l IH]; intros acc id v Hnd Hin Huniq.
  - now apply elem_of_nil in Hin.
  - simpl in Hnd. apply NoDup_cons in Hnd as [Hfresh Hnd].
    apply elem_of_cons in Hin as [[= <- <-] | Hin]; simpl.
    + rewrite tag_fold_absent; [apply lookup_insert_eq|].
      intros id' v' Hin' Heq. apply Hfresh.
      assert (id' = id) as -> by (apply (Huniq id' v'); [now right | assumption]).
      apply list_elem_of_fmap. now exists (id, v').
    + apply IH; [assumption.. |].
      intros id' v' Hin'. apply (Huniq id' v'). now right.
Qed.

Lemma tag_fold_sound (K : key) (x : pyval) (l : list (Z * pyval)) : forall acc : dict,
  fold_left (fun d '(tag_id, value) => <[tag_name table tag_id := f value]> d) l acc
    !! K = Some x ->
  acc !! K = Some x \/ exists id v, (id, v) ∈ l /\ tag_name table id = K /\ x = f v.
Proof.
  induction l as [|[id v] l IH]; intros acc H; simpl in H; [now left|].
  apply IH in H as [H | (id' & v' & Hin & Hk & Hx)].
  - destruct (decide (tag_name table id = K)) as [<- | Hne].
    + rewrite lookup_insert_eq in H. injection H as <-.
      right. exists id, v. split; [now left | auto].
    + rewrite lookup_insert_ne in H by assumption. now left.
  - right. exists id', v'. split; [now right | auto].
Qed.
End TagFold.

Lemma only_tag_named_unique table tags id k :
  only_tag_named table tags id k ->
  forall id' v', (id', v') ∈ map_to_list tags ->
                 tag_name table id' = tag_name table id -> id' = id.
Proof.
  intros [Hk Huniq] id' v' Hin%elem_of_map_to_list Heq.
  apply Huniq; [eauto|]. unfold tag_name in Heq. rewrite Hk in Heq.
  destruct (table id'); congruence.
Qed.

(** X5. A tag of the image is found in [exif_data] under its name: if no
    other tag of the image bears that name, the entry is the value of the
    tag, decoded when it is a byte string.  A tag for which Pillow has no
    name is found under its number. *)
Theorem read_tags_lookup (w : world) (tags : gmap Z pyval) id v :
  tags !! id = Some v ->
  (forall k, only_tag_named (TAGS w) tags id k ->
             read_tags w tags !! name k = Some (decode_bytes w v)) /\
  (TAGS w id = None -> read_tags w tags !! inr id = Some (decode_bytes w v)).
Proof.
  intros Hv%elem_of_map_to_list. split.
  - intros k Hk. unfold read_tags.
    replace (name k) with (tag_name (TAGS w) id)
      by (unfold tag_name; now rewrite (proj1 Hk)).
    apply (tag_fold_present (TAGS w) (decode_bytes w));
      [apply NoDup_fst_map_to_list | assumption |].
    now apply (only_tag_named_unique _ _ _ k).
  - intros Hnone. unfold read_tags.
    replace (inr id : key) with (tag_name (TAGS w) id)
      by (unfold tag_name; now rewrite Hnone).
    apply (tag_fold_present (TAGS w) (decode_bytes w));
      [apply NoDup_fst_map_to_list | assumption |].
    intros id' v' _. unfold tag_name. rewrite Hnone.
    destruct (TAGS w id'); congruence.
Qed.

Lemma read_tags_lookup_witness :
  read_tags Sample.files
    {[ 272 := PyStr "Canon EOS 80D"; 306 := PyStr "2023:05:14 10:30:05";
       36867 := PyStr "2023:05:14 10:30:00" ]} !! name "Model"
  = Some (PyStr "Canon EOS 80D").
Proof.
  set (tags := ({[ 272 := PyStr "Canon EOS 80D"; 306 := PyStr "2023:05:14 10:30:05";
                   36867 := PyStr "2023:05:14 10:30:00" ]} : gmap Z pyval)).
  refine (proj1 (read_tags_lookup Sample.files tags 272 (PyStr "Canon EOS 80D") eq_refl)
            "Model" _).
  split; [reflexivity|].
  intros id' [v' Hv'] Hname.
  destruct (decide (id' = 272)) as [-> | Hne]; [reflexivity | exfalso].
  unfold TAGS, Sample.files, Sample.tags in Hname.
  destruct (Z.eqb_spec id' 271) as [-> | _]; [discriminate|].
  destruct (Z.eqb_spec id' 272) as [-> | _]; [congruence|].
  destruct (id' =? 306); [discriminate|].
  destruct (id' =? 36867); discriminate.
Defined.

(** X6. [exif_data] holds nothing that is not in the image: each of its
    entries is the decoded value of a tag, stored under the name, or else
    the number, of that tag. *)
Theorem read_tags_sound (w : world) (tags : gmap Z pyval) (k : key) x :
  read_tags w tags !! k = Some x ->
  exists id v, tags !! id = Some v /\ tag_name (TAGS w) id = k /\ x = decode_bytes w v.
Proof.
  intros H. apply tag_fold_sound in H as [H | (id & v & Hin & Hk & Hx)].
  - now rewrite lookup_empty in H.
  - exists id, v. now apply elem_of_map_to_list in Hin.
Qed.

Lemma read_tags_sound_witness :
  exists id v,
    ({[ 306 := PyStr "2021:12:31 23:59:59" ]} : gmap Z pyval) !! id = Some v /\
    tag_name (TAGS Sample.files) id = name "DateTime" /\
    PyStr "2021:12:31 23:59:59" = decode_bytes Sample.files v.
Proof.
  apply (read_tags_sound Sample.files {[ 306 := PyStr "2021:12:31 23:59:59" ]}).
  reflexivity.
Defined.

(** X7. The GPS directory is handed over as it is read: a tag of the
    directory whose name no other tag bears is found in the fragment under
    that name, with its value unchanged (byte strings are not decoded
    here). *)
Theorem gps_fragment_lookup (w : world) (exif : exif) gps id v k :
  get_ifd exif GPS_IFD = Ok gps ->
  gps !! id = Some v ->
  only_tag_named (GPSTAGS w) gps id k ->
  gps_fragment w exif !! name k = Some v.
Proof.
  intros Hifd Hv%elem_of_map_to_list Hk.
  unfold gps_fragment, read_gps. rewrite Hifd.
  replace (name k) with (tag_name (GPSTAGS w) id)
    by (unfold tag_name; now rewrite (proj1 Hk)).
  apply (tag_fold_present (GPSTAGS w) (fun v => v));
    [apply NoDup_fst_map_to_list | assumption |].
  now apply (only_tag_named_unique _ _ _ k).
Qed.

Lemma gps_fragment_lookup_witness :
  gps_fragment Sample.files
    {| exif_tags := ∅; get_ifd := Sample.ifd_with_gps Sample.gps_barcelona |}
    !! name "GPSLongitudeRef"
  = Some (PyStr "E").
Proof.
  apply (gps_fragment_lookup Sample.files _ Sample.gps_barcelona 3); [reflexivity.. |].
  split; [reflexivity|].
  intros id' [v' Hv'] Hname.
  destruct (decide (id' = 3)) as [-> | Hne]; [reflexivity | exfalso].
  unfold GPSTAGS, Sample.files, Sample.gps_tags in Hname.
  destruct (id' =? 1); [discriminate|].
  destruct (id' =? 2); [discriminate|].
  destruct (Z.eqb_spec id' 3) as [-> | _]; [congruence|].
  destruct (id' =? 4); discriminate.
Defined.

(** ** extract_image_info: what a record holds and what a run does *)

Lemma get_gps_location_out (g : dict) :
  exists out coords,
    get_gps_location g = (out, Ok coords) /\
    (out = [] \/ exists e, out = [EvPrint (MsgGpsWarning e)]).
Proof.
  rewrite get_gps_location_eq.
  destruct (g !! name "GPSLatitude") as [v_lat|]; [|eauto].
  destruct (g !! name "GPSLongitude") as [v_lon|]; [|eauto].
  destruct (convert_to_degrees v_lat); [|eauto 6].
  destruct (convert_to_degrees v_lon); eauto 6.
Qed.

(** The whole outcome for a file that opens, has tags and a date that
    parses. *)
Lemma extract_image_info_run (w : world) path image exif t :
  Image_open w path = Ok image ->
  getexif image = Ok exif ->
  exif_tags exif <> ∅ ->
  py_truthy (find_date_str (read_tags w (exif_tags exif))) = true ->
  strptime w (find_date_str (read_tags w (exif_tags exif))) DATE_FORMAT = Ok t ->
  exists warning coords,
    get_gps_location (gps_fragment w exif) = (warning, Ok coords) /\
    (warning = [] \/ exists e, warning = [EvPrint (MsgGpsWarning e)]) /\
    let place :=
      match coords with
      | Some (lat, lon) =>
          ([EvReverse lat lon],
           match reverse w (lat, lon) "ru" 10 with
           | Ok (Some loc) => loc_address loc
           | _ => F64.format_6f lat ++ ", " ++ F64.format_6f lon
           end)
      | None => ([], NO_COORDS)
      end in
    extract_image_info w path =
      ((EvPrint (MsgProcessing (basename w path)) :: warning ++ fst place
          ++ [EvPrint MsgDone])%list,
       match copy image with
       | Ok px => Ok (Some {| info_image := px; date_taken := t; address := snd place;
                              camera_model := get_default (read_tags w (exif_tags exif))
                                                "Model" (PyStr NO_MODEL) |})
       | Raise e => Raise e
       end).
Proof.
  intros Hopen Hexif Htags Hdate Hparse.
  destruct (get_gps_location_out (gps_fragment w exif)) as (warning & coords & Hgps & Hw).
  exists warning, coords. split; [assumption|]. split; [assumption|].
  unfold extract_image_info. rewrite Hopen, Hexif. simpl.
  rewrite bool_decide_eq_false_2 by assumption.
  rewrite Hdate. simpl. rewrite Hparse, Hgps.
  destruct coords as [[lat lon]|].
  - cbn -[get_address_from_coords]. rewrite get_address_from_coords_eq.
    destruct (copy image); simpl; rewrite <- ?app_assoc; reflexivity.
  - simpl. destruct (copy image); simpl; rewrite ?app_nil_r; reflexivity.
Qed.

(** X8. A GPS directory that cannot be read does not cost the picture: the
    failure of [get_ifd] is swallowed, and the file gives its record, with
    the address "Координаты недоступны", without a warning and without a
    request to the geocoder. *)
Theorem extract_image_info_unreadable_gps (w : world) path image exif t px e :
  Image_open w path = Ok image ->
  getexif image = Ok exif ->
  exif_tags exif <> ∅ ->
  py_truthy (find_date_str (read_tags w (exif_tags exif))) = true ->
  strptime w (find_date_str (read_tags w (exif_tags exif))) DATE_FORMAT = Ok t ->
  copy image = Ok px ->
  get_ifd exif GPS_IFD = Raise e ->
  extract_image_info w path
  = ([EvPrint (MsgProcessing (basename w path)); EvPrint MsgDone],
     Ok (Some {| info_image := px; date_taken := t; address := NO_COORDS;
                 camera_model := get_default (read_tags w (exif_tags exif))
                                   "Model" (PyStr NO_MODEL) |})).
Proof.
  intros Hopen Hexif Htags Hdate Hparse Hcopy Hifd.
  destruct (extract_image_info_run w path image exif t Hopen Hexif Htags Hdate Hparse)
    as (warning & coords & Hgps & _ & Hrun).
  unfold gps_fragment in Hgps. rewrite Hifd in Hgps.
  injection Hgps as <- <-. now rewrite Hrun, Hcopy.
Qed.

Lemma extract_image_info_unreadable_gps_witness :
  exists info,
    extract_image_info Cases.files "fine/b.jpg"
    = ([EvPrint (MsgProcessing "b.jpg"); EvPrint MsgDone], Ok (Some info))
    /\ address info = NO_COORDS /\ camera_model info = PyStr "Nikon D750".
Proof.
  eexists. split.
  - eapply (extract_image_info_unreadable_gps Cases.files "fine/b.jpg"
              Cases.img_broken_gps); try reflexivity.
    intros E. apply (f_equal (fun m => m !! 306)) in E. discriminate.
  - split; reflexivity.
Defined.

(** X9. The camera model of a record is the value of the [Model] tag of the
    image, decoded when it is a byte string; a [Model] that is present but
    empty is kept as it is, the text "Модель неизвестна" standing for a
    missing tag only. *)
Theorem extract_image_info_camera_model (w : world) path out info image exif id v :
  extract_image_info w path = (out, Ok (Some info)) ->
  Image_open w path = Ok image ->
  getexif image = Ok exif ->
  exif_tags exif !! id = Some v ->
  only_tag_named (TAGS w) (exif_tags exif) id "Model" ->
  camera_model info = decode_bytes w v.
Proof.
  intros H Hopen Hexif Hv Hmodel.
  destruct (extract_image_info_some_inv _ _ _ _ H)
    as (image' & exif' & t & Hopen' & Hexif' & Htags & Hdate & Hparse).
  rewrite Hopen in Hopen'. injection Hopen' as <-.
  rewrite Hexif in Hexif'. injection Hexif' as <-.
  destruct (extract_image_info_run w path image exif t Hopen Hexif Htags Hdate Hparse)
    as (warning & coords & _ & _ & Hrun).
  rewrite Hrun in H. destruct (copy image); [|discriminate].
  injection H as _ <-. simpl. unfold get_default.
  assert (Hl : read_tags w (exif_tags exif) !! name "Model" = Some (decode_bytes w v)).
  { unfold read_tags.
    replace (name "Model") with (tag_name (TAGS w) id)
      by (unfold tag_name; now rewrite (proj1 Hmodel)).
    apply (tag_fold_present (TAGS w) (decode_bytes w));
      [apply NoDup_fst_map_to_list | now apply elem_of_map_to_list |].
    now apply (only_tag_named_unique _ _ _ "Model"). }
  now rewrite Hl.
Qed.

Lemma extract_image_info_camera_model_witness :
  exists out info,
    extract_image_info Cases.files "fine/b.jpg" = (out, Ok (Some info))
    /\ camera_model info = PyStr "Nikon D750".
Proof.
  do 2 eexists. split; [reflexivity|].
  set (tags := ({[ 272 := PyBytes "Nikon D750"; 306 := PyStr "2019:07:04 08:09:10" ]}
                : gmap Z pyval)).
  refine (extract_image_info_camera_model Cases.files "fine/b.jpg" _ _
            Cases.img_broken_gps
            {| exif_tags := tags; get_ifd := fun _ => Raise SyntaxError |}
            272 (PyBytes "Nikon D750") eq_refl eq_refl eq_refl eq_refl _).
  split; [reflexivity|].
  intros id' [v' Hv'] Hname.
  destruct (decide (id' = 272)) as [-> | Hne]; [reflexivity | exfalso].
  unfold TAGS, Cases.files, Sample.tags in Hname.
  destruct (Z.eqb_spec id' 271) as [-> | _]; [discriminate|].
  destruct (Z.eqb_spec id' 272) as [-> | _]; [congruence|].
  destruct (id' =? 306); [discriminate|].
  destruct (id' =? 36867); discriminate.
Defined.

(** X10. When the picture has a position, the record's address is what the
    geocoder found for the rounded coordinates, or the coordinates
    themselves with six decimals when it found nothing or failed; and the
    run sent exactly one request, for those coordinates. *)
Theorem extract_image_info_address (w : world) path out info image exif lat lon :
  extract_image_info w path = (out, Ok (Some info)) ->
  Image_open w path = Ok image ->
  getexif image = Ok exif ->
  snd (get_gps_location (gps_fragment w exif)) = Ok (Some (lat, lon)) ->
  requests out = [(lat, lon)] /\
  address info = match reverse w (lat, lon) "ru" 10 with
                 | Ok (Some loc) => loc_address loc
                 | _ => F64.format_6f lat ++ ", " ++ F64.format_6f lon
                 end.
Proof.
  intros H Hopen Hexif Hcoords.
  destruct (extract_image_info_some_inv _ _ _ _ H)
    as (image' & exif' & t & Hopen' & Hexif' & Htags & Hdate & Hparse).
  rewrite Hopen in Hopen'. injection Hopen' as <-.
  rewrite Hexif in Hexif'. injection Hexif' as <-.
  destruct (extract_image_info_run w path image exif t Hopen Hexif Htags Hdate Hparse)
    as (warning & coords & Hgps & Hw & Hrun).
  rewrite Hgps in Hcoords. injection Hcoords as ->.
  rewrite Hrun in H. destruct (copy image); [|discriminate].
  injection H as <- <-. split; [|reflexivity].
  destruct Hw as [-> | [e ->]]; reflexivity.
Qed.

Lemma extract_image_info_address_witness :
  exists out info,
    extract_image_info Sample.files "photos/IMG_0001.jpg" = (out, Ok (Some info))
    /\ requests out = [(F64.of_ratio 83 2, F64.of_ratio 2175031 1000000)]
    /\ address info = "Barcelona".
Proof.
  do 2 eexists. split; [reflexivity|].
  exact (extract_image_info_address Sample.files "photos/IMG_0001.jpg" _ _
           Sample.img_0001 _ (F64.of_ratio 83 2) (F64.of_ratio 2175031 1000000)
           eq_refl eq_refl eq_refl eq_refl).
Defined.

(** What one call does to the outside world. *)
Lemma extract_image_info_effects (w : world) path :
  let out := fst (extract_image_info w path) in
  processed out = [basename w path] /\
  saved out = [] /\
  (length (requests out) <= 1)%nat /\
  (snd (extract_image_info w path) = Ok None ->
   requests out = [] /\
   exists reason,
     reason ∈ [MsgOpenError; MsgNoExif; MsgNoDate; MsgDateError] /\
     out = [EvPrint (MsgProcessing (basename w path)); EvPrint reason]).
Proof.
  cbv zeta.
  assert (Hskip : forall reason,
    reason ∈ [MsgOpenError; MsgNoExif; MsgNoDate; MsgDateError] ->
    extract_image_info w path
    = ([EvPrint (MsgProcessing (basename w path)); EvPrint reason], Ok None) ->
    processed (fst (extract_image_info w path)) = [basename w path] /\
    saved (fst (extract_image_info w path)) = [] /\
    (length (requests (fst (extract_image_info w path))) <= 1)%nat /\
    (snd (extract_image_info w path) = Ok None ->
     requests (fst (extract_image_info w path)) = [] /\
     exists reason,
       reason ∈ [MsgOpenError; MsgNoExif; MsgNoDate; MsgDateError] /\
       fst (extract_image_info w path)
       = [EvPrint (MsgProcessing (basename w path)); EvPrint reason])).
  { intros reason Hin ->. cbn [fst snd].
    assert (Hp : processed [EvPrint (MsgProcessing (basename w path)); EvPrint reason]
                 = [basename w path]).
    { repeat (apply elem_of_cons in Hin as [-> | Hin]; [reflexivity|]).
      now apply elem_of_nil in Hin. }
    split; [exact Hp|]. split; [reflexivity|]. split; [simpl; lia|].
    intros _. split; [reflexivity|]. eauto. }
  destruct (Image_open w path) as [image|e] eqn:Hopen.
  2:{ apply (Hskip MsgOpenError); [repeat constructor|].
      unfold extract_image_info. now rewrite Hopen. }
  destruct (getexif image) as [exif|e] eqn:Hexif.
  2:{ rewrite (extract_image_info_exif_failure w path image e Hopen Hexif).
      cbn [fst snd]. split; [reflexivity|]. split; [reflexivity|].
      split; [simpl; lia | discriminate]. }
  destruct (decide (exif_tags exif = ∅)) as [Hempty|Htags].
  { apply (Hskip MsgNoExif); [repeat constructor|].
    unfold extract_image_info. rewrite Hopen, Hexif. simpl.
    now rewrite bool_decide_eq_true_2. }
  destruct (py_truthy (find_date_str (read_tags w (exif_tags exif)))) eqn:Hdate.
  2:{ apply (Hskip MsgNoDate); [repeat constructor|].
      exact (extract_image_info_no_date w path image exif Hopen Hexif Htags Hdate). }
  destruct (strptime w (find_date_str (read_tags w (exif_tags exif))) DATE_FORMAT)
    as [t|e] eqn:Hparse.
  2:{ apply (Hskip MsgDateError); [repeat constructor|].
      exact (extract_image_info_bad_date w path image exif e
               Hopen Hexif Htags Hdate Hparse). }
  destruct (extract_image_info_run w path image exif t Hopen Hexif Htags Hdate Hparse)
    as (warning & coords & _ & Hw & Hrun).
  clear Hskip. rewrite Hrun. cbn [fst snd].
  assert (Hsome : forall r, match copy image with
                            | Ok px => Ok (Some (r px))
                            | Raise e => Raise e
                            end <> (Ok None : res (option photo_info)))
    by (intros r; now destruct (copy image)).
  destruct Hw as [-> | [e ->]]; destruct coords as [[lat lon]|]; cbn [fst snd];
    (split; [reflexivity|]; split; [reflexivity|]; split; [simpl; lia|];
     intros Habs; exfalso; revert Habs;
     exact (Hsome (fun px => {| info_image := px; date_taken := t; address := _;
                                camera_model := _ |}))).
Qed.

(** X11. What one call of [extract_image_info] does to the outside world:
    it announces the file once, writes no document, and sends at most one
    request to the geocoder.  A file that is skipped (result [None]) costs
    no request, and its output is the announcement followed by exactly one
    of the four reasons. *)
Theorem extract_image_info_trace (w : world) path :
  let out := fst (extract_image_info w path) in
  processed out = [basename w path] /\
  saved out = [] /\
  (length (requests out) <= 1)%nat /\
  (snd (extract_image_info w path) = Ok None ->
   requests out = [] /\
   exists reason,
     reason ∈ [MsgOpenError; MsgNoExif; MsgNoDate; MsgDateError] /\
     out = [EvPrint (MsgProcessing (basename w path)); EvPrint reason]).
Proof. exact (extract_image_info_effects w path). Qed.

(** ** The loop of main *)

(** When no extraction raises, the loop handles every file once, in
    order, and gathers the records of the files that gave one. *)
Lemma process_photos_all (w : world) (photos : list string) :
  Forall (returns w) photos ->
  process_photos w photos
  = (concat (map (fun p => fst (extract_image_info w p)) photos),
     Ok (omap (record_of w) photos)).
Proof.
  induction 1 as [|p photos [r Hr] _ IH]; [reflexivity|].
  assert (Hrec : record_of w p = r) by (unfold record_of; now rewrite Hr).
  change (omap (record_of w) (p :: photos))
    with (match record_of w p with
          | Some y => y :: omap (record_of w) photos
          | None => omap (record_of w) photos
          end).
  rewrite Hrec. cbn [process_photos map concat]. rewrite IH.
  destruct (extract_image_info w p) as [out res]. simpl in Hr. subst res.
  simpl. now rewrite app_nil_r.
Qed.

(** An exception that leaves [extract_image_info] ends the loop at once. *)
Lemma process_photos_abort (w : world) (before after : list string) p e :
  Forall (returns w) before ->
  snd (extract_image_info w p) = Raise e ->
  process_photos w (before ++ p :: after)
  = ((concat (map (fun q => fst (extract_image_info w q)) before)
        ++ fst (extract_image_info w p))%list,
     Raise e).
Proof.
  intros Hbefore Hp.
  induction Hbefore as [|q before [r Hr] _ IH].
  - cbn [app process_photos map concat].
    destruct (extract_image_info w p) as [out res]. simpl in Hp. now subst res.
  - cbn [app process_photos map concat]. rewrite IH.
    destruct (extract_image_info w q) as [out res]. simpl in Hr. subst res.
    simpl. now rewrite app_assoc.
Qed.

Lemma process_photos_returns (w : world) (photos : list string) out infos :
  process_photos w photos = (out, Ok infos) -> Forall (returns w) photos.
Proof.
  revert out infos. induction photos as [|p photos IH]; intros out infos H;
    [constructor|].
  cbn [process_photos] in H.
  destruct (extract_image_info w p) as [out1 [r|e]] eqn:Hp; [|discriminate].
  destruct (process_photos w photos) as [out2 [rs|e]] eqn:Hps; [|discriminate].
  constructor; [exists r; now rewrite Hp | eauto].
Qed.

Lemma process_photos_trace (w : world) (photos : list string) :
  saved (fst (process_photos w photos)) = [] /\
  (length (requests (fst (process_photos w photos))) <= length photos)%nat.
Proof.
  induction photos as [|p photos [IHs IHr]]; [split; [reflexivity | simpl; lia]|].
  pose proof (extract_image_info_effects w p) as (_ & Hs & Hr & _).
  cbn [process_photos].
  destruct (extract_image_info w p) as [out1 [r|e]]; cbn [fst] in *.
  - destruct (process_photos w photos) as [out2 [rs|e]]; cbn [fst] in *; simpl;
      unfold saved, requests in *; rewrite ?app_nil_r, !omap_app, ?length_app;
      rewrite Hs, IHs; (split; [reflexivity | lia]).
  - simpl. split; [assumption | lia].
Qed.

Lemma process_photos_processed (w : world) (photos : list string) :
  Forall (returns w) photos ->
  processed (fst (process_photos w photos)) = map (basename w) photos.
Proof.
  intros Hret. rewrite (process_photos_all w photos Hret). cbn [fst].
  clear Hret. induction photos as [|p photos IH]; [reflexivity|].
  cbn [map concat]. unfold processed in *. rewrite omap_app, IH.
  pose proof (extract_image_info_effects w p) as [Hp _]. unfold processed in Hp.
  cbv zeta in Hp. now rewrite Hp.
Qed.

(** ** create_document and main: what is written *)

(** X12. When python-docx accepts the texts of every row and the document
    can be saved, [create_document] returns the path of the document, named
    by the prefix and the moment of the run, in the folder it is given; it
    writes that one document and sends nothing to the geocoder.  The table
    has one row for every record, also for a record whose picture cannot be
    turned into a thumbnail: that row gets the text cell in place of the
    picture and keeps its date, camera and address. *)
Theorem create_document_run (w : world) (photos_info : list photo_info) output_dir :
  texts_accepted w photos_info ->
  save w (join w output_dir (OUTPUT_PREFIX ++ now_stamp w ++ ".docx"))
    (map render_row (sort_by_date photos_info)) = Ok tt ->
  let path := join w output_dir (OUTPUT_PREFIX ++ now_stamp w ++ ".docx") in
  let rows := map render_row (sort_by_date photos_info) in
  let out := fst (create_document w photos_info output_dir) in
  snd (create_document w photos_info output_dir) = Ok path
  /\ saved out = [(path, rows)]
  /\ requests out = []
  /\ length rows = length photos_info
  /\ (forall info, info ∈ photos_info ->
        exists r, r ∈ rows /\ cell_date r = date_taken info
                  /\ cell_camera r = camera_model info /\ cell_place r = address info
                  /\ (cell_photo r = LoadError <->
                      exists e, as_jpeg (info_image info) = Raise e)).
Proof.
  intros Hacc Hsave. cbv zeta.
  destruct (create_document_quiet w photos_info output_dir) as [Hr _].
  split; [now rewrite create_document_eq|].
  split.
  { apply (create_document_saved w photos_info output_dir).
    apply elem_of_saved. rewrite create_document_eq by assumption. cbn [fst].
    apply elem_of_cons. right. apply elem_of_app. right. apply elem_of_cons. now left. }
  split; [exact Hr|].
  split; [now rewrite length_map, sort_by_date_length|].
  intros info Hin. exists (render_row info). split.
  - apply list_elem_of_fmap. exists info. split; [reflexivity|].
    now rewrite <- (sort_by_date_perm photos_info).
  - repeat split; try reflexivity; unfold render_row, make_thumbnail; simpl.
    + destruct (as_jpeg (info_image info)); [discriminate | eauto].
    + intros [e ->]. reflexivity.
Qed.

Lemma create_document_run_witness :
  let l := omap (record_of Cases.files) ["fine/c.jpg"; "fine/b.jpg"; "fine/a.jpg"] in
  snd (create_document Cases.files l "fine")
  = Ok "fine/!_ФОТОТАБЛИЦА_2024-03-01_12-00.docx"
  /\ map cell_photo (map render_row (sort_by_date l))
     = [LoadError; Picture "JFIF"; Picture "JFIF"].
Proof.
  cbv zeta. split; [|reflexivity].
  refine (proj1 (create_document_run Cases.files
                   (omap (record_of Cases.files)
                      ["fine/c.jpg"; "fine/b.jpg"; "fine/a.jpg"]) "fine" _ eq_refl)).
  repeat constructor.
Defined.

(** X21. The texts of the cells and the saving of the document are not
    guarded: when python-docx refuses a text of some row, or the document
    cannot be saved, [create_document] raises and nothing is written; a
    failure to save comes out as the exception of [doc.save]. *)
Theorem create_document_failure (w : world) (photos_info : list photo_info) output_dir :
  ~ texts_accepted w photos_info
  \/ (exists e, save w (join w output_dir (OUTPUT_PREFIX ++ now_stamp w ++ ".docx"))
                  (map render_row (sort_by_date photos_info)) = Raise e) ->
  (exists e, snd (create_document w photos_info output_dir) = Raise e) /\
  saved (fst (create_document w photos_info output_dir)) = [] /\
  (forall e, texts_accepted w photos_info ->
             save w (join w output_dir (OUTPUT_PREFIX ++ now_stamp w ++ ".docx"))
               (map render_row (sort_by_date photos_info)) = Raise e ->
             snd (create_document w photos_info output_dir) = Raise e).
Proof.
  intros Hfail.
  destruct (create_document_cases w photos_info output_dir)
    as [(Hacc & Hsave & _) | (n & e & E & Hwhy)].
  - exfalso. destruct Hfail as [Hno | [e He]]; [contradiction | congruence].
  - rewrite E. cbn [fst snd]. split; [eauto|]. split.
    + unfold saved.
      change (omap ?f (EvPrint (MsgCreating ?a) :: ?l)) with (omap f l).
      now rewrite omap_row_added.
    + intros e' Hacc He'. destruct Hwhy as [Hno | [_ He]]; [contradiction | congruence].
Qed.

Lemma create_document_failure_witness :
  let l := omap (record_of Cases.files) ["locked/a.jpg"] in
  length l = 1%nat /\
  snd (create_document Cases.files l "locked") = Raise OSError /\
  saved (fst (create_document Cases.files l "locked")) = [].
Proof.
  cbv zeta. split; [reflexivity|].
  destruct (create_document_failure Cases.files
              (omap (record_of Cases.files) ["locked/a.jpg"]) "locked")
    as (_ & Hsaved & Hexn).
  - right. exists OSError. reflexivity.
  - split; [|exact Hsaved]. apply Hexn; [repeat constructor | reflexivity].
Defined.

(** A run on a folder in which nothing is selected, or which cannot be
    listed, touches no file. *)
Lemma main_idle (w : world) folder_path :
  find_photos w folder_path = [] ->
  saved (fst (main w folder_path)) = []
  /\ requests (fst (main w folder_path)) = []
  /\ processed (fst (main w folder_path)) = [].
Proof.
  unfold main, find_photos.
  destruct (path_exists w folder_path); [|now intros _].
  destruct (isdir w folder_path); [|now intros _].
  destruct (listdir w folder_path) as [entries|e]; [|now intros _].
  intros E. cbn [negb lift mbind M_bind print emit]. now rewrite E.
Qed.

(** The shape of a run of [main] on a folder with selected files. *)
Lemma main_eq (w : world) folder_path :
  path_exists w folder_path = true ->
  isdir w folder_path = true ->
  find_photos w folder_path <> [] ->
  main w folder_path
  = let photos := find_photos w folder_path in
    match process_photos w photos with
    | (out, Raise e) =>
        (EvPrint (MsgSearching folder_path) :: EvPrint (MsgFound (length photos)) :: out,
         Raise e)
    | (out, Ok []) =>
        ((EvPrint (MsgSearching folder_path) :: EvPrint (MsgFound (length photos)) :: out
            ++ [EvPrint MsgNoData])%list,
         Ok tt)
    | (out, Ok infos) =>
        ((EvPrint (MsgSearching folder_path) :: EvPrint (MsgFound (length photos)) :: out
            ++ EvPrint (MsgProcessed (length infos) (length photos))
            :: fst (create_document w infos folder_path))%list,
         match snd (create_document w infos folder_path) with
         | Ok _ => Ok tt
         | Raise e => Raise e
         end)
    end.
Proof.
  intros Hexists Hdir. unfold main, find_photos. rewrite Hexists, Hdir. cbn [negb].
  destruct (listdir w folder_path) as [entries|e]; [|now intros H].
  intros Hphotos. cbv zeta. unfold lift. cbn [mbind M_bind].
  destruct (select_photos w folder_path entries) as [|p photos];
    [now destruct Hphotos|].
  set (l := p :: photos). clearbody l.
  destruct (process_photos w l) as [out [[|i infos]|e]]; [reflexivity| |reflexivity].
  cbn -[create_document].
  destruct (create_document w (i :: infos) folder_path) as [outc [pth|e]];
    cbn; rewrite ?app_nil_r; reflexivity.
Qed.

(** X13. A run of [main] on a folder that exists, in which no extraction
    raises, at least one selected file gives a record, python-docx accepts
    the texts of the rows and the document can be saved, ends normally and
    writes exactly one document, into that folder: the table of the records
    of the selected files, in date order.  The files announced are the
    selected files, each once, in the order of the listing. *)
Theorem main_writes_the_table (w : world) folder_path :
  path_exists w folder_path = true ->
  isdir w folder_path = true ->
  Forall (returns w) (find_photos w folder_path) ->
  omap (record_of w) (find_photos w folder_path) <> [] ->
  texts_accepted w (omap (record_of w) (find_photos w folder_path)) ->
  save w (join w folder_path (OUTPUT_PREFIX ++ now_stamp w ++ ".docx"))
    (map render_row (sort_by_date (omap (record_of w) (find_photos w folder_path))))
  = Ok tt ->
  snd (main w folder_path) = Ok tt /\
  saved (fst (main w folder_path))
  = [(join w folder_path (OUTPUT_PREFIX ++ now_stamp w ++ ".docx"),
      map render_row (sort_by_date (omap (record_of w) (find_photos w folder_path))))] /\
  processed (fst (main w folder_path)) = map (basename w) (find_photos w folder_path).
Proof.
  intros Hexists Hdir Hret Hsome Hacc Hsave.
  assert (Hphotos : find_photos w folder_path <> []).
  { intros E. rewrite E in Hsome. now apply Hsome. }
  rewrite (main_eq w folder_path Hexists Hdir Hphotos). cbv zeta.
  pose proof (process_photos_processed w _ Hret) as Hp.
  pose proof (process_photos_trace w (find_photos w folder_path)) as [Hs _].
  rewrite (process_photos_all w _ Hret) in *. cbn [fst] in Hp, Hs.
  destruct (create_document_quiet w (omap (record_of w) (find_photos w folder_path))
              folder_path) as (_ & Hdp).
  pose proof (create_document_eq w _ folder_path Hacc Hsave) as Hcd.
  assert (Hds : saved (fst (create_document w
                              (omap (record_of w) (find_photos w folder_path))
                              folder_path))
                = [(join w folder_path (OUTPUT_PREFIX ++ now_stamp w ++ ".docx"),
                    map render_row
                      (sort_by_date (omap (record_of w) (find_photos w folder_path))))]).
  { apply (create_document_saved w _ folder_path). apply elem_of_saved.
    rewrite Hcd. cbn [fst].
    apply elem_of_cons. right. apply elem_of_app. right. apply elem_of_cons. now left. }
  apply (f_equal snd) in Hcd. cbn [snd] in Hcd.
  destruct (omap (record_of w) (find_photos w folder_path)) as [|i infos] eqn:Hinfos;
    [now destruct Hsome|].
  rewrite Hcd. cbn [fst snd]. split; [reflexivity|].
  unfold saved, processed in *.
  change (omap ?f (EvPrint (MsgSearching ?a) :: EvPrint (MsgFound ?n) :: ?l))
    with (omap f l).
  rewrite !omap_app.
  change (omap ?f (EvPrint (MsgProcessed ?a ?b) :: ?l)) with (omap f l).
  rewrite Hs, Hp, Hds, Hdp. rewrite app_nil_r. split; reflexivity.
Qed.

Lemma main_writes_the_table_witness :
  snd (main Cases.files "fine") = Ok tt /\
  saved (fst (main Cases.files "fine"))
  = [(join Cases.files "fine" (OUTPUT_PREFIX ++ now_stamp Cases.files ++ ".docx"),
      map render_row
        (sort_by_date (omap (record_of Cases.files) (find_photos Cases.files "fine"))))] /\
  processed (fst (main Cases.files "fine")) = ["b.jpg"; "c.jpg"; "a.jpg"].
Proof.
  apply (main_writes_the_table Cases.files "fine" eq_refl eq_refl).
  - repeat constructor; eexists; reflexivity.
  - discriminate.
  - repeat constructor.
  - reflexivity.
Defined.

(** X22. When every extraction has returned and some file gave a record,
    but python-docx refuses a text of the table or the document cannot be
    saved, [main] raises: every selected file has been processed, and
    nothing is written. *)
Theorem main_loses_the_run (w : world) folder_path :
  path_exists w folder_path = true ->
  isdir w folder_path = true ->
  Forall (returns w) (find_photos w folder_path) ->
  omap (record_of w) (find_photos w folder_path) <> [] ->
  ~ texts_accepted w (omap (record_of w) (find_photos w folder_path))
  \/ (exists e,
        save w (join w folder_path (OUTPUT_PREFIX ++ now_stamp w ++ ".docx"))
          (map render_row
             (sort_by_date (omap (record_of w) (find_photos w folder_path))))
        = Raise e) ->
  (exists e, snd (main w folder_path) = Raise e) /\
  saved (fst (main w folder_path)) = [] /\
  processed (fst (main w folder_path)) = map (basename w) (find_photos w folder_path).
Proof.
  intros Hexists Hdir Hret Hsome Hfail.
  assert (Hphotos : find_photos w folder_path <> []).
  { intros E. rewrite E in Hsome. now apply Hsome. }
  rewrite (main_eq w folder_path Hexists Hdir Hphotos). cbv zeta.
  pose proof (process_photos_processed w _ Hret) as Hp.
  pose proof (process_photos_trace w (find_photos w folder_path)) as [Hs _].
  rewrite (process_photos_all w _ Hret) in *. cbn [fst] in Hp, Hs.
  destruct (create_document_quiet w (omap (record_of w) (find_photos w folder_path))
              folder_path) as (_ & Hdp).
  assert (Hcd : exists n e,
            create_document w (omap (record_of w) (find_photos w folder_path)) folder_path
            = (EvPrint (MsgCreating (basename w
                  (join w folder_path (OUTPUT_PREFIX ++ now_stamp w ++ ".docx"))))
                 :: map (fun i => EvPrint (MsgRowAdded i
                           (length (omap (record_of w) (find_photos w folder_path)))))
                      (seq 1 n),
               Raise e)).
  { destruct (create_document_cases w (omap (record_of w) (find_photos w folder_path))
                folder_path) as [(Hacc & Hsave & _) | (n & e & E & _)]; [|eauto].
    exfalso. destruct Hfail as [Hno | [e He]]; [contradiction | congruence]. }
  destruct Hcd as (n & e & Hcd).
  destruct (omap (record_of w) (find_photos w folder_path)) as [|i infos] eqn:Hinfos;
    [now destruct Hsome|].
  rewrite Hcd in *. cbn [fst snd] in *. split; [eauto|].
  unfold saved, processed in *.
  change (omap ?f (EvPrint (MsgSearching ?a) :: EvPrint (MsgFound ?n) :: ?l))
    with (omap f l).
  rewrite !omap_app.
  change (omap ?f (EvPrint (MsgProcessed ?a ?b) :: EvPrint (MsgCreating ?c) :: ?l))
    with (omap f l).
  rewrite Hs, Hp, !omap_row_added by reflexivity. rewrite !app_nil_r. split; reflexivity.
Qed.

Lemma main_loses_the_run_witness :
  (exists e, snd (main Cases.files "control") = Raise e) /\
  saved (fst (main Cases.files "control")) = [] /\
  processed (fst (main Cases.files "control")) = ["a.jpg"; "f.jpg"].
Proof.
  apply (main_loses_the_run Cases.files "control" eq_refl eq_refl).
  - repeat constructor; eexists; reflexivity.
  - discriminate.
  - left. apply Exists_not_Forall. apply Exists_cons_tl, Exists_cons_hd.
    intros [H _]. vm_compute in H. discriminate.
Defined.

(** X14. An exception that leaves [extract_image_info] for one file ends
    the whole run: [main] raises it, the files listed after the failing one
    are never opened, and no document is written, whatever the files before
    it gave. *)
Theorem main_aborts (w : world) folder_path (before after : list string) p e :
  path_exists w folder_path = true ->
  isdir w folder_path = true ->
  find_photos w folder_path = (before ++ p :: after)%list ->
  Forall (returns w) before ->
  snd (extract_image_info w p) = Raise e ->
  snd (main w folder_path) = Raise e /\
  saved (fst (main w folder_path)) = [] /\
  processed (fst (main w folder_path)) = map (basename w) (before ++ [p])%list.
Proof.
  intros Hexists Hdir Hphotos Hbefore Hp.
  assert (Hne : find_photos w folder_path <> []).
  { rewrite Hphotos. now destruct before. }
  rewrite (main_eq w folder_path Hexists Hdir Hne). cbv zeta.
  pose proof (process_photos_trace w (find_photos w folder_path)) as [Hs _].
  pose proof (process_photos_processed w _ Hbefore) as Hpb.
  rewrite (process_photos_all w _ Hbefore) in Hpb. cbn [fst] in Hpb.
  pose proof (extract_image_info_effects w p) as [Hpp _]. cbv zeta in Hpp.
  rewrite Hphotos in *.
  rewrite (process_photos_abort w before after p e Hbefore Hp) in *.
  cbn [fst snd] in *. split; [reflexivity|]. split; [exact Hs|].
  unfold processed in *.
  change (omap ?f (EvPrint (MsgSearching ?a) :: EvPrint (MsgFound ?n) :: ?l))
    with (omap f l).
  rewrite omap_app, Hpb, Hpp, map_app. reflexivity.
Qed.

Lemma main_aborts_witness :
  snd (main Cases.files "mixed") = Raise SyntaxError /\
  saved (fst (main Cases.files "mixed")) = [] /\
  processed (fst (main Cases.files "mixed")) = ["a.jpg"; "b.jpg"; "c.jpg"; "d.jpg"].
Proof.
  apply (main_aborts Cases.files "mixed"
           ["mixed/a.jpg"; "mixed/b.jpg"; "mixed/c.jpg"] ["mixed/e.jpg"]
           "mixed/d.jpg" SyntaxError eq_refl eq_refl eq_refl).
  - repeat constructor; eexists; reflexivity.
  - reflexivity.
Defined.

(** What is saved in a run of [main] is saved by [create_document], on the
    records of a loop that came to its end. *)
Lemma main_saved (w : world) folder_path path table :
  (path, table) ∈ saved (fst (main w folder_path)) ->
  path_exists w folder_path = true /\
  isdir w folder_path = true /\
  Forall (returns w) (find_photos w folder_path) /\
  omap (record_of w) (find_photos w folder_path) <> [] /\
  main w folder_path
  = ((EvPrint (MsgSearching folder_path)
        :: EvPrint (MsgFound (length (find_photos w folder_path)))
        :: concat (map (fun p => fst (extract_image_info w p)) (find_photos w folder_path))
        ++ EvPrint (MsgProcessed
                      (length (omap (record_of w) (find_photos w folder_path)))
                      (length (find_photos w folder_path)))
        :: fst (create_document w (omap (record_of w) (find_photos w folder_path))
                  folder_path))%list,
     match snd (create_document w (omap (record_of w) (find_photos w folder_path))
                  folder_path) with
     | Ok _ => Ok tt
     | Raise e => Raise e
     end) /\
  (path, table)
    ∈ saved (fst (create_document w (omap (record_of w) (find_photos w folder_path))
                    folder_path)).
Proof.
  intros Hin.
  destruct (decide (find_photos w folder_path = [])) as [Hnone|Hphotos].
  { destruct (main_idle w folder_path Hnone) as [E _]. rewrite E in Hin.
    now apply elem_of_nil in Hin. }
  destruct (path_exists w folder_path) eqn:Hexists.
  2:{ unfold main in Hin. rewrite Hexists in Hin. now apply elem_of_nil in Hin. }
  destruct (isdir w folder_path) eqn:Hdir.
  2:{ unfold main in Hin. rewrite Hexists, Hdir in Hin. now apply elem_of_nil in Hin. }
  rewrite (main_eq w folder_path Hexists Hdir Hphotos) in *. cbv zeta in *.
  pose proof (process_photos_trace w (find_photos w folder_path)) as [Hs _].
  pose proof (process_photos_returns w (find_photos w folder_path)) as Hret.
  destruct (process_photos w (find_photos w folder_path)) as [out [infos|e]] eqn:Hloop.
  2:{ cbn [fst] in *. unfold saved in *.
      change (omap ?f (EvPrint (MsgSearching ?a) :: EvPrint (MsgFound ?n) :: ?l))
        with (omap f l) in Hin.
      rewrite Hs in Hin. now apply elem_of_nil in Hin. }
  specialize (Hret out infos eq_refl).
  rewrite (process_photos_all w _ Hret) in Hloop. injection Hloop as <- <-.
  cbn [fst] in Hs.
  destruct (omap (record_of w) (find_photos w folder_path)) as [|i infos] eqn:Hinfos.
  { cbn [fst] in Hin. unfold saved in *.
    change (omap ?f (EvPrint (MsgSearching ?a) :: EvPrint (MsgFound ?n) :: ?l))
      with (omap f l) in Hin.
    rewrite omap_app, Hs in Hin. now apply elem_of_nil in Hin. }
  cbn [fst] in Hin. repeat split; try assumption; try discriminate.
  unfold saved in *.
  change (omap ?f (EvPrint (MsgSearching ?a) :: EvPrint (MsgFound ?n) :: ?l))
    with (omap f l) in Hin.
  rewrite omap_app in Hin.
  change (omap ?f (EvPrint (MsgProcessed ?a ?b) :: ?l)) with (omap f l) in Hin.
  now rewrite Hs in Hin.
Qed.

(** X15. [main] never writes more than one document, and it writes one
    only at the end of a run in which the folder exists and is a directory,
    no extraction raised and some file gave a record; the document is then
    the non-empty table of all the records, in the folder itself.  In every
    other run nothing is written. *)
Theorem main_saves_only_after_success (w : world) folder_path path table :
  (path, table) ∈ saved (fst (main w folder_path)) ->
  path_exists w folder_path = true /\
  isdir w folder_path = true /\
  Forall (returns w) (find_photos w folder_path) /\
  snd (main w folder_path) = Ok tt /\
  path = join w folder_path (OUTPUT_PREFIX ++ now_stamp w ++ ".docx") /\
  table = map render_row (sort_by_date (omap (record_of w) (find_photos w folder_path))) /\
  table <> [] /\
  saved (fst (main w folder_path)) = [(path, table)].
Proof.
  intros Hin.
  destruct (main_saved w folder_path path table Hin)
    as (Hexists & Hdir & Hret & Hsome & Hmain & Hcd).
  destruct (create_document_saved w _ folder_path path table Hcd)
    as (Hpath & Htable & Hok & Hsaved).
  pose proof (process_photos_trace w (find_photos w folder_path)) as [Hs _].
  rewrite (process_photos_all w _ Hret) in Hs. cbn [fst] in Hs.
  repeat split; try assumption.
  - rewrite Hmain. cbn [snd]. now rewrite Hok.
  - intros E. rewrite Htable in E. apply (f_equal (@length row)) in E.
    rewrite length_map, sort_by_date_length in E.
    destruct (omap (record_of w) (find_photos w folder_path)); [now apply Hsome|].
    discriminate.
  - rewrite Hmain. cbn [fst]. unfold saved in *.
    change (omap ?f (EvPrint (MsgSearching ?a) :: EvPrint (MsgFound ?n) :: ?l))
      with (omap f l).
    rewrite omap_app.
    change (omap ?f (EvPrint (MsgProcessed ?a ?b) :: ?l)) with (omap f l).
    now rewrite Hs, Hsaved.
Qed.

Lemma main_saves_only_after_success_witness :
  let path := join Cases.files "fine" (OUTPUT_PREFIX ++ now_stamp Cases.files ++ ".docx") in
  let table :=
    map render_row
      (sort_by_date (omap (record_of Cases.files) (find_photos Cases.files "fine"))) in
  snd (main Cases.files "fine") = Ok tt /\
  length table = 3%nat /\
  saved (fst (main Cases.files "fine")) = [(path, table)].
Proof.
  cbv zeta.
  destruct (main_saves_only_after_success Cases.files "fine"
              (join Cases.files "fine" (OUTPUT_PREFIX ++ now_stamp Cases.files ++ ".docx"))
              (map render_row
                 (sort_by_date
                    (omap (record_of Cases.files) (find_photos Cases.files "fine")))))
    as (_ & _ & _ & Hok & _ & _ & _ & Hsaved).
  - vm_compute. left.
  - split; [exact Hok|]. split; [reflexivity | exact Hsaved].
Defined.

(** X16. However a run of [main] goes, it sends the geocoder at most one
    request for each selected file. *)
Theorem main_requests_bound (w : world) folder_path :
  (length (requests (fst (main w folder_path)))
   <= length (find_photos w folder_path))%nat.
Proof.
  destruct (decide (find_photos w folder_path = [])) as [Hnone|Hphotos].
  { destruct (main_idle w folder_path Hnone) as (_ & E & _). rewrite E. simpl. lia. }
  destruct (path_exists w folder_path) eqn:Hexists.
  2:{ unfold main. rewrite Hexists. simpl. lia. }
  destruct (isdir w folder_path) eqn:Hdir.
  2:{ unfold main. rewrite Hexists, Hdir. simpl. lia. }
  rewrite (main_eq w folder_path Hexists Hdir Hphotos). cbv zeta.
  pose proof (process_photos_trace w (find_photos w folder_path)) as [_ Hr].
  destruct (process_photos w (find_photos w folder_path)) as [out [[|i infos]|e]];
    cbn [fst] in *; unfold requests in *;
    change (omap ?f (EvPrint (MsgSearching ?a) :: EvPrint (MsgFound ?n) :: ?l))
      with (omap f l); [| |assumption].
  - rewrite omap_app. simpl. now rewrite app_nil_r.
  - rewrite omap_app.
    change (omap ?f (EvPrint (MsgProcessed ?a ?b) :: ?l)) with (omap f l).
    destruct (create_document_quiet w (i :: infos) folder_path) as (Hdr & _).
    unfold requests in Hdr. now rewrite Hdr, app_nil_r.
Qed.

(** X17. Records that come in date order are written in the order they
    come in, ties included: in a table that is written, sorting has not
    moved them. *)
Theorem create_document_keeps_sorted_input (w : world) photos_info output_dir path rows :
  StronglySorted by_date photos_info ->
  (path, rows) ∈ saved (fst (create_document w photos_info output_dir)) ->
  rows = map render_row photos_info.
Proof.
  intros Hsorted Hin.
  apply create_document_saved in Hin as (_ & -> & _).
  f_equal. symmetry. now apply sort_by_date_unique.
Qed.

Lemma create_document_keeps_sorted_input_witness :
  let l := omap (record_of Cases.files) ["fine/c.jpg"; "fine/b.jpg"] in
  length l = 2%nat /\
  saved (fst (create_document Cases.files l "fine"))
  = [("fine/!_ФОТОТАБЛИЦА_2024-03-01_12-00.docx", map render_row l)].
Proof.
  cbv zeta. split; [reflexivity|].
  assert (Hin : ("fine/!_ФОТОТАБЛИЦА_2024-03-01_12-00.docx",
                 map render_row
                   (sort_by_date
                      (omap (record_of Cases.files) ["fine/c.jpg"; "fine/b.jpg"])))
                ∈ saved (fst (create_document Cases.files
                                (omap (record_of Cases.files) ["fine/c.jpg"; "fine/b.jpg"])
                                "fine"))).
  { vm_compute. left. }
  assert (Hsorted : StronglySorted by_date
                      (omap (record_of Cases.files) ["fine/c.jpg"; "fine/b.jpg"]))
    by (repeat constructor).
  rewrite <- (create_document_keeps_sorted_input Cases.files
                (omap (record_of Cases.files) ["fine/c.jpg"; "fine/b.jpg"])
                "fine" _ _ Hsorted Hin).
  reflexivity.
Defined.

(** ** The selection of main *)

Lemma find_photos_Ok (w : world) folder_path entries :
  listdir w folder_path = Ok entries ->
  find_photos w folder_path = select_photos w folder_path entries.
Proof. unfold find_photos. now intros ->. Qed.

(** The loop announces the files it is given in their order, as far as it
    gets. *)
Lemma process_photos_announced (w : world) (photos : list string) name :
  name ∈ processed (fst (process_photos w photos)) ->
  name ∈ map (basename w) photos.
Proof.
  induction photos as [|p photos IH]; [intros H; exact H|].
  cbn [process_photos].
  pose proof (extract_image_info_effects w p) as [Hp _]. cbv zeta in Hp.
  destruct (extract_image_info w p) as [out1 [r|e]]; cbn [fst] in *.
  - destruct (process_photos w photos) as [out2 [rs|e]]; cbn [fst] in *; simpl;
      unfold processed in *; rewrite ?app_nil_r, omap_app, Hp;
      intros [-> | H]%elem_of_cons; [left | right; now apply IH
                                     | left | right; now apply IH].
  - simpl. rewrite Hp. intros [-> | H]%elem_of_cons; [left | now apply elem_of_nil in H].
Qed.

(** What [main] announces is a selected file. *)
Lemma main_announced (w : world) folder_path name :
  name ∈ processed (fst (main w folder_path)) ->
  name ∈ map (basename w) (find_photos w folder_path).
Proof.
  intros Hin.
  destruct (decide (find_photos w folder_path = [])) as [Hnone|Hphotos].
  { destruct (main_idle w folder_path Hnone) as (_ & _ & E). rewrite E in Hin.
    now apply elem_of_nil in Hin. }
  destruct (path_exists w folder_path) eqn:Hexists.
  2:{ unfold main in Hin. rewrite Hexists in Hin. now apply elem_of_nil in Hin. }
  destruct (isdir w folder_path) eqn:Hdir.
  2:{ unfold main in Hin. rewrite Hexists, Hdir in Hin. now apply elem_of_nil in Hin. }
  rewrite (main_eq w folder_path Hexists Hdir Hphotos) in Hin. cbv zeta in Hin.
  apply (process_photos_announced w).
  destruct (process_photos w (find_photos w folder_path)) as [out [[|i infos]|e]];
    cbn [fst] in *; unfold processed in *;
    change (omap ?f (EvPrint (MsgSearching ?a) :: EvPrint (MsgFound ?n) :: ?l))
      with (omap f l) in Hin; [| |assumption].
  - rewrite omap_app in Hin. simpl in Hin. now rewrite app_nil_r in Hin.
  - rewrite omap_app in Hin.
    change (omap ?f (EvPrint (MsgProcessed ?a ?b) :: ?l)) with (omap f l) in Hin.
    destruct (create_document_quiet w (i :: infos) folder_path) as (_ & Hdp).
    unfold processed in Hdp. now rewrite Hdp, app_nil_r in Hin.
Qed.

(** After the search line, [main] reports the number of selected files and
    runs the loop over them. *)
Lemma main_runs_the_loop (w : world) folder_path :
  path_exists w folder_path = true ->
  isdir w folder_path = true ->
  find_photos w folder_path <> [] ->
  exists rest,
    fst (main w folder_path)
    = (EvPrint (MsgSearching folder_path)
         :: EvPrint (MsgFound (length (find_photos w folder_path)))
         :: fst (process_photos w (find_photos w folder_path)) ++ rest)%list.
Proof.
  intros Hexists Hdir Hphotos.
  rewrite (main_eq w folder_path Hexists Hdir Hphotos). cbv zeta.
  destruct (process_photos w (find_photos w folder_path)) as [out [[|i infos]|e]];
    cbn [fst]; [eauto | eauto |].
  exists []. now rewrite app_nil_r.
Qed.

(** C10. From the entries of the folder, [main] selects exactly those whose
    lower-case form ends with .jpg, .jpeg, .heic or .heif, in the order of
    the listing: these are the files it counts and runs its loop over.  The
    entries .JPG, .JPEG and .HEIF of [SUPPORTED_FORMATS] never match a
    lower-case form; entries ending in .HEIC or .Jpg are selected. *)
Theorem main_selects_by_lowered_suffix (w : world) folder_path entries :
  listdir w folder_path = Ok entries ->
  let chosen :=
    filter (fun f => Exists (fun ext => endswith (py_lower f) ext = true)
                       lower_extensions) entries in
  find_photos w folder_path = map (join w folder_path) chosen /\
  (path_exists w folder_path = true -> isdir w folder_path = true -> chosen <> [] ->
   exists rest,
     fst (main w folder_path)
     = (EvPrint (MsgSearching folder_path)
          :: EvPrint (MsgFound (length chosen))
          :: fst (process_photos w (map (join w folder_path) chosen)) ++ rest)%list) /\
  (forall f ext, ext ∈ [".JPG"; ".JPEG"; ".HEIF"] -> endswith (py_lower f) ext = false) /\
  (forall stem, stem ++ ".HEIC" ∈ entries -> stem ++ ".HEIC" ∈ chosen) /\
  (forall stem, stem ++ ".Jpg" ∈ entries -> stem ++ ".Jpg" ∈ chosen).
Proof.
  intros Hlist. cbv zeta.
  assert (Hfilter :
    filter (fun f => is_supported f = true) entries
    = filter (fun f => Exists (fun ext => endswith (py_lower f) ext = true)
                         lower_extensions) entries).
  { apply list_filter_iff. intros f. rewrite is_supported_iff, Exists_exists.
    reflexivity. }
  assert (Hfind : find_photos w folder_path
                  = map (join w folder_path)
                      (filter (fun f => Exists (fun ext => endswith (py_lower f) ext = true)
                                          lower_extensions) entries)).
  { rewrite (find_photos_Ok w folder_path entries Hlist). unfold select_photos.
    now rewrite Hfilter. }
  split; [exact Hfind|]. split.
  { intros Hexists Hdir Hsome. rewrite <- Hfind.
    replace (length (filter _ entries)) with (length (find_photos w folder_path))
      by (now rewrite Hfind, length_map).
    apply main_runs_the_loop; [assumption.. |].
    rewrite Hfind. intros E. apply Hsome. now apply map_eq_nil in E. }
  split; [intros f ext; apply endswith_lower_listed_upper|].
  split; intros stem Hin; rewrite <- Hfilter; apply list_elem_of_filter;
    (split; [apply is_supported_app; repeat constructor | assumption]).
Qed.

Lemma main_selects_by_lowered_suffix_witness :
  find_photos Cases.files "upper"
  = ["upper/IMG_0005.HEIC"; "upper/IMG_0006.HEIF"; "upper/scan.Jpg"; "upper/IMG_0007.heic"]
  /\ find_photos Sample.files "photos"
     = ["photos/IMG_0001.jpg"; "photos/IMG_0002.JPG"; "photos/IMG_0003.heic"].
Proof.
  split.
  - exact (proj1 (main_selects_by_lowered_suffix Cases.files "upper" _ eq_refl)).
  - exact (proj1 (main_selects_by_lowered_suffix Sample.files "photos" _ eq_refl)).
Defined.

(** C7, as stated: the extensions are not matched in the case in which
    they are listed.  In a folder that holds IMG_0005.HEIC and scan.Jpg,
    which end with none of the listed extensions, both are selected. *)
Lemma selection_case_sensitive_fails : ~ selection_case_sensitive.
Proof.
  intros H.
  specialize (H Cases.files "upper"
                ["IMG_0005.HEIC"; "IMG_0006.HEIF"; "scan.Jpg"; "IMG_0007.heic"] eq_refl).
  vm_compute in H. discriminate.
Qed.

(** C7, amended.  The name of every entry is put in lower case before it is
    compared with the listed extensions, so the case of its letters does not
    count: [main] selects an entry exactly when it ends with .jpg, .jpeg,
    .heic or .heif written in any mix of cases, and it announces no other
    file.  Entries ending in .HEIC are selected, and so are entries ending
    in .HEIF. *)
Theorem main_selects_ignoring_case (w : world) folder_path entries :
  listdir w folder_path = Ok entries ->
  (forall p, p ∈ find_photos w folder_path <->
     exists stem ext, stem ++ ext ∈ entries /\ py_lower ext ∈ lower_extensions
                      /\ p = join w folder_path (stem ++ ext)) /\
  (forall name, name ∈ processed (fst (main w folder_path)) ->
     exists stem ext, stem ++ ext ∈ entries /\ py_lower ext ∈ lower_extensions
                      /\ name = basename w (join w folder_path (stem ++ ext))) /\
  (forall stem, stem ++ ".HEIC" ∈ entries ->
     join w folder_path (stem ++ ".HEIC") ∈ find_photos w folder_path) /\
  (forall stem, stem ++ ".HEIF" ∈ entries ->
     join w folder_path (stem ++ ".HEIF") ∈ find_photos w folder_path).
Proof.
  intros Hlist.
  assert (Hsel : forall p, p ∈ find_photos w folder_path <->
     exists stem ext, stem ++ ext ∈ entries /\ py_lower ext ∈ lower_extensions
                      /\ p = join w folder_path (stem ++ ext)).
  { intros p. rewrite (find_photos_Ok w folder_path entries Hlist). unfold select_photos.
    rewrite list_elem_of_fmap. split.
    - intros (f & -> & [Hf Hin]%list_elem_of_filter).
      apply is_supported_iff in Hf as (ext & Hext & [q Hq]%endswith_iff).
      apply py_lower_split in Hq as (a & b & -> & _ & <-). eauto 6.
    - intros (stem & ext & Hin & Hext & ->). exists (stem ++ ext). split; [reflexivity|].
      apply list_elem_of_filter. split; [now apply is_supported_app | assumption]. }
  split; [exact Hsel|]. split.
  { intros name Hin%main_announced.
    apply list_elem_of_fmap in Hin as (p & -> & Hp).
    apply Hsel in Hp as (stem & ext & Hin & Hext & ->). eauto 6. }
  split; intros stem Hin; apply Hsel; exists stem; eexists;
    (split; [exact Hin|]); (split; [repeat constructor | reflexivity]).
Qed.

Lemma main_selects_ignoring_case_witness :
  "upper/IMG_0005.HEIC" ∈ find_photos Cases.files "upper"
  /\ "upper/IMG_0006.HEIF" ∈ find_photos Cases.files "upper".
Proof.
  destruct (main_selects_ignoring_case Cases.files "upper" _ eq_refl)
    as (_ & _ & Hheic & Hheif).
  split.
  - apply (Hheic "IMG_0005"). repeat constructor.
  - apply (Hheif "IMG_0006"). apply elem_of_cons. right. repeat constructor.
Defined.

(** ** The start-up code *)

Section Strip.

Context {A : Type} (p : A -> bool).

Local Open Scope list_scope.

Lemma lstrip_list_app pre l :
  Forall (fun x => p x = true) pre -> lstrip_list p (pre ++ l) = lstrip_list p l.
Proof.
  induction 1 as [|x pre Hx _ IH]; [reflexivity|]. simpl. now rewrite Hx.
Qed.

Lemma lstrip_list_all l : Forall (fun x => p x = true) l -> lstrip_list p l = [].
Proof.
  induction 1 as [|x l Hx _ IH]; [reflexivity|]. simpl. now rewrite Hx.
Qed.

Lemma lstrip_list_keep l :
  (forall x, head l = Some x -> p x = false) -> lstrip_list p l = l.
Proof.
  destruct l as [|x l]; [reflexivity|]. intros H. simpl. now rewrite (H x eq_refl).
Qed.

Lemma rstrip_list_all l : Forall (fun x => p x = true) l -> rstrip_list p l = [].
Proof.
  induction 1 as [|x l Hx _ IH]; [reflexivity|]. simpl. now rewrite IH, Hx.
Qed.

Lemma rstrip_list_app l suf :
  Forall (fun x => p x = true) suf -> rstrip_list p (l ++ suf) = rstrip_list p l.
Proof.
  intros Hsuf. induction l as [|x l IH]; simpl.
  - now apply rstrip_list_all.
  - now rewrite IH.
Qed.

Lemma rstrip_list_keep l :
  (forall x, last l = Some x -> p x = false) -> rstrip_list p l = l.
Proof.
  induction l as [|x l IH]; [reflexivity|]. intros H. simpl.
  destruct l as [|y l].
  - simpl. now rewrite (H x eq_refl).
  - rewrite IH by exact H. reflexivity.
Qed.

Lemma strip_list_wrapped pre core suf :
  Forall (fun x => p x = true) pre ->
  Forall (fun x => p x = true) suf ->
  trimmed p core ->
  strip_list p (pre ++ core ++ suf) = core.
Proof.
  intros Hpre Hsuf [Hhead Hlast]. unfold strip_list.
  rewrite lstrip_list_app by assumption.
  destruct core as [|x core].
  - simpl. now rewrite lstrip_list_all.
  - rewrite lstrip_list_keep by exact Hhead.
    rewrite rstrip_list_app by assumption. now apply rstrip_list_keep.
Qed.

Lemma lstrip_list_spec l :
  exists pre, l = pre ++ lstrip_list p l /\ Forall (fun x => p x = true) pre /\
              forall x, head (lstrip_list p l) = Some x -> p x = false.
Proof.
  induction l as [|x l (pre & Hl & Hpre & Hhead)].
  - exists []. repeat split; [constructor | discriminate].
  - simpl. destruct (p x) eqn:Hx.
    + exists (x :: pre). split; [simpl; now rewrite <- Hl|].
      split; [now constructor | assumption].
    + exists []. split; [reflexivity|]. split; [constructor|].
      intros y [= <-]. assumption.
Qed.

Lemma rstrip_list_spec l :
  exists suf, l = rstrip_list p l ++ suf /\ Forall (fun x => p x = true) suf /\
              forall x, last (rstrip_list p l) = Some x -> p x = false.
Proof.
  induction l as [|x l (suf & Hl & Hsuf & Hlast)].
  - exists []. repeat split; [constructor | discriminate].
  - simpl. destruct (rstrip_list p l) as [|y kept] eqn:Hkept.
    + destruct (p x) eqn:Hx.
      * exists (x :: suf). split; [simpl in *; now rewrite <- Hl|].
        split; [now constructor | discriminate].
      * exists suf. split; [simpl in *; now rewrite <- Hl|].
        split; [assumption|]. intros z [= <-]. assumption.
    + exists suf. split; [simpl in *; now rewrite <- Hl|].
      split; [assumption | exact Hlast].
Qed.

Lemma strip_list_spec l :
  exists pre suf,
    l = pre ++ strip_list p l ++ suf /\
    Forall (fun x => p x = true) pre /\ Forall (fun x => p x = true) suf /\
    trimmed p (strip_list p l).
Proof.
  destruct (lstrip_list_spec l) as (pre & Hl & Hpre & Hhead).
  destruct (rstrip_list_spec (lstrip_list p l)) as (suf & Hr & Hsuf & Hlast).
  exists pre, suf. unfold strip_list.
  split; [now rewrite <- Hr|]. split; [assumption|]. split; [assumption|].
  split; [|exact Hlast].
  intros x Hx. apply Hhead. rewrite Hr.
  destruct (rstrip_list p (lstrip_list p l)); [discriminate | exact Hx].
Qed.

End Strip.

Lemma list_ascii_of_string_app s1 s2 :
  list_ascii_of_string (s1 ++ s2)
  = (list_ascii_of_string s1 ++ list_ascii_of_string s2)%list.
Proof.
  induction s1 as [|c s1 IH]; [now rewrite string_app_nil|].
  rewrite string_app_cons. simpl. now rewrite IH.
Qed.

Lemma string_of_list_ascii_app l1 l2 :
  string_of_list_ascii (l1 ++ l2) = string_of_list_ascii l1 ++ string_of_list_ascii l2.
Proof.
  induction l1 as [|c l1 IH]; simpl; [now rewrite string_app_nil|].
  now rewrite string_app_cons, IH.
Qed.

Lemma Forall_repeat_quote n : Forall (fun c => is_quote c = true) (repeat QUOTE n).
Proof. induction n; simpl; constructor; [reflexivity | assumption]. Qed.

Lemma strip_quotes_wrapped n m core :
  unquoted core -> strip_quotes (quotes n ++ core ++ quotes m) = core.
Proof.
  intros Hcore. unfold strip_quotes, quotes.
  rewrite !list_ascii_of_string_app, !list_ascii_of_string_of_list_ascii.
  rewrite strip_list_wrapped by (apply Forall_repeat_quote || exact Hcore).
  apply string_of_list_ascii_of_string.
Qed.

(** X18. [strip_quotes] takes off the double quotes at both ends and
    nothing else: every text is its stripped form between two runs of
    quotes, and the stripped form neither begins nor ends with one.  Quotes
    inside the text stay. *)
Theorem strip_quotes_spec (s : string) :
  exists n m, s = quotes n ++ strip_quotes s ++ quotes m /\ unquoted (strip_quotes s).
Proof.
  destruct (strip_list_spec is_quote (list_ascii_of_string s))
    as (pre & suf & Hs & Hpre & Hsuf & Htrim).
  assert (Hrun : forall l, Forall (fun c => is_quote c = true) l ->
                           l = repeat QUOTE (length l)).
  { induction 1 as [|c l Hc _ IH]; [reflexivity|]. simpl. rewrite <- IH.
    unfold is_quote in Hc. apply Ascii.eqb_eq in Hc. now subst c. }
  exists (length pre), (length suf). unfold quotes, strip_quotes, unquoted.
  rewrite <- (Hrun pre Hpre), <- (Hrun suf Hsuf).
  rewrite list_ascii_of_string_of_list_ascii. split; [|exact Htrim].
  rewrite <- !string_of_list_ascii_app, <- Hs.
  symmetry. apply string_of_list_ascii_of_string.
Qed.

(** X19. A folder given on the command line reaches [main] without the
    double quotes around it, however many there are, and the line typed at
    the prompt plays no part. *)
Theorem folder_argument_quoted (prog : string) (rest : list string) typed n m core :
  unquoted core ->
  folder_argument (prog :: (quotes n ++ core ++ quotes m) :: rest) typed = core.
Proof.
  intros Hcore. unfold folder_argument. cbn [length Nat.ltb Nat.leb nth].
  now apply strip_quotes_wrapped.
Qed.

Lemma folder_argument_quoted_witness :
  folder_argument ["photo_evidence.py"; quotes 1 ++ "C:\photos\site 12" ++ quotes 1; "x"]
    "ignored"
  = "C:\photos\site 12".
Proof.
  apply (folder_argument_quoted "photo_evidence.py" ["x"] "ignored" 1 1
           "C:\photos\site 12").
  split; intros x [= <-]; reflexivity.
Defined.

Lemma utf8_chars_head c s :
  exists ch chs, utf8_chars (String c s) = String c ch :: chs.
Proof.
  simpl. destruct (utf8_chars s) as [|[|c' ch] chs]; eauto.
  destruct (is_continuation c'); eauto.
Qed.

Lemma utf8_chars_cons c c' s :
  is_continuation c' = false ->
  utf8_chars (String c (String c' s)) = String c EmptyString :: utf8_chars (String c' s).
Proof.
  intros Hc'. destruct (utf8_chars_head c' s) as (ch & chs & E).
  change (utf8_chars (String c (String c' s)))
    with (match utf8_chars (String c' s) with
          | ch :: chs =>
              match ch with
              | String c' _ =>
                  if is_continuation c' then String c ch :: chs
                  else String c EmptyString :: ch :: chs
              | EmptyString => String c EmptyString :: chs
              end
          | [] => [String c EmptyString]
          end).
  rewrite E. now rewrite Hc'.
Qed.

Lemma utf8_chars_app s c t :
  is_continuation c = false ->
  utf8_chars (s ++ String c t) = (utf8_chars s ++ utf8_chars (String c t))%list.
Proof.
  intros Hc. induction s as [|a s IH]; [now rewrite string_app_nil|].
  rewrite string_app_cons.
  change (utf8_chars (String a (s ++ String c t)))
    with (match utf8_chars (s ++ String c t) with
          | ch :: chs =>
              match ch with
              | String c' _ =>
                  if is_continuation c' then String a ch :: chs
                  else String a EmptyString :: ch :: chs
              | EmptyString => String a EmptyString :: chs
              end
          | [] => [String a EmptyString]
          end).
  rewrite IH. destruct s as [|b s].
  - change (utf8_chars EmptyString) with (@nil string). cbn [app].
    destruct (utf8_chars_head c t) as (ch & chs & E).
    rewrite E. now rewrite Hc.
  - destruct (utf8_chars_head b s) as (ch & chs & E).
    change (utf8_chars (String a (String b s)))
      with (match utf8_chars (String b s) with
            | ch :: chs =>
                match ch with
                | String c' _ =>
                    if is_continuation c' then String a ch :: chs
                    else String a EmptyString :: ch :: chs
                | EmptyString => String a EmptyString :: chs
                end
            | [] => [String a EmptyString]
            end).
    rewrite E. cbn [app]. destruct (is_continuation b); reflexivity.
Qed.

Lemma concat_utf8_chars s : concat_strings (utf8_chars s) = s.
Proof.
  induction s as [|c s IH]; [reflexivity|].
  change (utf8_chars (String c s))
    with (match utf8_chars s with
          | ch :: chs =>
              match ch with
              | String c' _ =>
                  if is_continuation c' then String c ch :: chs
                  else String c EmptyString :: ch :: chs
              | EmptyString => String c EmptyString :: chs
              end
          | [] => [String c EmptyString]
          end).
  destruct (utf8_chars s) as [|[|c' ch] chs]; cbn [concat_strings] in *.
  - now rewrite <- IH.
  - rewrite string_app_nil in IH. rewrite string_app_cons, string_app_nil.
    now rewrite IH.
  - destruct (is_continuation c'); cbn [concat_strings];
      rewrite ?string_app_cons, ?string_app_nil, ?string_app_cons in *; now rewrite IH.
Qed.

Lemma utf8_chars_blanks n : utf8_chars (blanks n) = repeat " " n.
Proof.
  induction n as [|n IH]; [reflexivity|].
  change (blanks (S n)) with (String " " (blanks n)).
  destruct n as [|n]; [reflexivity|].
  change (blanks (S n)) with (String " " (blanks n)) in *.
  rewrite utf8_chars_cons by reflexivity. now rewrite IH.
Qed.

Lemma py_strip_blanks a b s c t :
  s = String QUOTE t ->
  s = c ++ String QUOTE EmptyString ->
  py_strip (blanks a ++ s ++ blanks b) = s.
Proof.
  intros Hhead Hlast. unfold py_strip.
  assert (Hall : forall n, Forall (fun ch => is_space ch = true) (repeat " " n)).
  { induction n; simpl; constructor; [reflexivity | assumption]. }
  assert (Hchars : utf8_chars (blanks a ++ s ++ blanks b)
                   = (repeat " " a ++ utf8_chars s ++ repeat " " b)%list).
  { assert (Hsb : utf8_chars (s ++ blanks b) = (utf8_chars s ++ repeat " " b)%list).
    { destruct b as [|b].
      - change (blanks 0) with EmptyString.
        assert (E : s ++ EmptyString = s)
          by (clear; induction s as [|x s IH];
              [reflexivity | now rewrite string_app_cons, IH]).
        rewrite E. simpl. now rewrite app_nil_r.
      - change (blanks (S b)) with (String " " (blanks b)).
        rewrite utf8_chars_app by reflexivity.
        change (String " " (blanks b)) with (blanks (S b)).
        now rewrite utf8_chars_blanks. }
    rewrite Hhead in *. rewrite string_app_cons.
    rewrite utf8_chars_app by reflexivity.
    rewrite <- string_app_cons, Hsb. now rewrite utf8_chars_blanks. }
  rewrite Hchars, strip_list_wrapped; [apply concat_utf8_chars | apply Hall | apply Hall |].
  split.
  - rewrite Hhead. destruct (utf8_chars_head QUOTE t) as (ch & chs & ->).
    intros x [= <-]. reflexivity.
  - rewrite Hlast, utf8_chars_app by reflexivity.
    intros x. rewrite last_app. simpl. intros [= <-]. reflexivity.
Qed.

(** X20. A path typed at the prompt in double quotes, with blanks before
    or after, reaches [main] as the path itself. *)
Theorem folder_argument_typed (prog : string) a b n m core :
  unquoted core ->
  folder_argument [prog] (blanks a ++ (quotes (S n) ++ core ++ quotes (S m)) ++ blanks b)
  = core.
Proof.
  intros Hcore. unfold folder_argument. cbn [length Nat.ltb Nat.leb].
  rewrite (py_strip_blanks a b _ (quotes (S n) ++ core ++ quotes m)
             (quotes n ++ core ++ quotes (S m))).
  - now apply strip_quotes_wrapped.
  - change (quotes (S n)) with (String QUOTE (quotes n)).
    now rewrite string_app_cons.
  - assert (E : quotes (S m) = quotes m ++ String QUOTE EmptyString).
    { unfold quotes. change (String QUOTE EmptyString) with (string_of_list_ascii [QUOTE]).
      rewrite <- (string_of_list_ascii_app (repeat QUOTE m) [QUOTE]).
      f_equal. clear. induction m as [|m IH]; [reflexivity|]. simpl. now rewrite <- IH. }
    rewrite E.
    assert (Hassoc : forall x y z : string, (x ++ y) ++ z = x ++ y ++ z).
    { clear. intros x y z. induction x as [|ch x IH];
        [now rewrite !string_app_nil | now rewrite !string_app_cons, IH]. }
    now rewrite !Hassoc.
Qed.

Lemma folder_argument_typed_witness :
  folder_argument ["photo_evidence.py"]
    (blanks 2 ++ (quotes 1 ++ "D:\evidence" ++ quotes 1) ++ blanks 1)
  = "D:\evidence".
Proof.
  apply (folder_argument_typed "photo_evidence.py" 2 1 0 0 "D:\evidence").
  split; intros x [= <-]; reflexivity.
Defined.
